(** * Address book assistant: a shallow embedding of [project-main.py]

    The development follows the layout of the program: Python strings
    and the pieces of the runtime library the program calls, calendar
    dates, the validated fields, the contact record, the address book
    and the command handlers, then the properties.

    Modelling conventions.
    - A Python [str] is a list of Unicode code points.
    - A method that mutates [self] is a computation in a state monad
      whose state survives a raised exception, as an object does.
    - Records are objects: the address book maps a name to a reference
      into a store of records, so that a record obtained by [find] and
      then mutated is the record the book holds.
    - [datetime.today()] is an input: the current date is a parameter. *)

From Stdlib Require Import ZArith NArith List String Ascii Bool Lia.
From Stdlib Require Import DecimalString Sorting.Sorted.
From stdpp Require Import base option list gmap strings.

Import ListNotations.
Local Open Scope Z_scope.

(* ===================================================================== *)
(** ** Python strings *)
(* ===================================================================== *)

(** A code point, 0 to 0x10FFFF. *)
Definition codepoint := N.

(** [str]: a sequence of code points; [len] is [length]. *)
Definition pystr := list codepoint.

(** A literal of the program text (the literals used are ASCII). *)
Definition py (s : string) : pystr :=
  List.map N_of_ascii (list_ascii_of_string s).

Definition in_range (c : codepoint) (r : N * N) : bool :=
  (fst r <=? c)%N && (c <=? snd r)%N.

Definition in_ranges (t : list (N * N)) (c : codepoint) : bool :=
  existsb (in_range c) t.

(** Code points of general category Nd (decimal digit), Unicode 14: what
    [str.isdecimal] accepts and what [\d] matches in a [str] pattern.
    Each range is a run of complete 0-9 blocks. *)
Definition decimal_ranges : list (N * N) :=
  [ (48, 57); (1632, 1641); (1776, 1785); (1984, 1993); (2406, 2415);
    (2534, 2543); (2662, 2671); (2790, 2799); (2918, 2927); (3046, 3055);
    (3174, 3183); (3302, 3311); (3430, 3439); (3558, 3567); (3664, 3673);
    (3792, 3801); (3872, 3881); (4160, 4169); (4240, 4249); (6112, 6121);
    (6160, 6169); (6470, 6479); (6608, 6617); (6784, 6793); (6800, 6809);
    (6992, 7001); (7088, 7097); (7232, 7241); (7248, 7257); (42528, 42537);
    (43216, 43225); (43264, 43273); (43472, 43481); (43504, 43513);
    (43600, 43609); (44016, 44025); (65296, 65305); (66720, 66729);
    (68912, 68921); (69734, 69743); (69872, 69881); (69942, 69951);
    (70096, 70105); (70384, 70393); (70736, 70745); (70864, 70873);
    (71248, 71257); (71360, 71369); (71472, 71481); (71904, 71913);
    (72016, 72025); (72784, 72793); (73040, 73049); (73120, 73129);
    (92768, 92777); (92864, 92873); (93008, 93017); (120782, 120831);
    (123200, 123209); (123632, 123641); (125264, 125273);
    (130032, 130041) ]%N.

(** Code points with Numeric_Type=Digit that are not decimal
    (superscripts, circled digits and the like), Unicode 14. *)
Definition other_digit_ranges : list (N * N) :=
  [ (178, 179); (185, 185); (4969, 4977); (6618, 6618); (8304, 8304);
    (8308, 8313); (8320, 8329); (9312, 9320); (9332, 9340); (9352, 9360);
    (9450, 9450); (9461, 9469); (9471, 9471); (10102, 10110);
    (10112, 10120); (10122, 10130); (68160, 68163); (69216, 69224);
    (69714, 69722); (127232, 127242) ]%N.

(** White space in the sense of [str.isspace] and [str.strip]. *)
Definition space_ranges : list (N * N) :=
  [ (9, 13); (28, 32); (133, 133); (160, 160); (5760, 5760);
    (8192, 8202); (8232, 8233); (8239, 8239); (8287, 8287);
    (12288, 12288) ]%N.

Definition char_isdecimal (c : codepoint) : bool := in_ranges decimal_ranges c.

Definition char_isdigit (c : codepoint) : bool :=
  in_ranges decimal_ranges c || in_ranges other_digit_ranges c.

Definition char_isspace (c : codepoint) : bool := in_ranges space_ranges c.

(** [s.isdigit()]: every character is a digit and there is at least one. *)
Definition isdigit (s : pystr) : bool :=
  match s with
  | [] => false
  | _ => forallb char_isdigit s
  end.

(** The value of a decimal digit, as [int] reads it. *)
Definition decimal_value (c : codepoint) : option Z :=
  match List.find (in_range c) decimal_ranges with
  | Some (lo, _) => Some (Z.of_N ((c - lo) mod 10))
  | None => None
  end.

Fixpoint lstrip (s : pystr) : pystr :=
  match s with
  | c :: s' => if char_isspace c then lstrip s' else s
  | [] => []
  end.

Definition rstrip (s : pystr) : pystr := rev (lstrip (rev s)).

(** [s.strip()] *)
Definition strip (s : pystr) : pystr := rstrip (lstrip s).

Fixpoint starts_with (p s : pystr) : bool :=
  match p, s with
  | [], _ => true
  | a :: p', b :: s' => (a =? b)%N && starts_with p' s'
  | _ :: _, [] => false
  end.

(** [needle in hay] on strings: substring test. *)
Fixpoint contains (needle hay : pystr) : bool :=
  starts_with needle hay ||
  match hay with
  | [] => false
  | _ :: hay' => contains needle hay'
  end.

(** [a < b] on strings: lexicographic on code points. *)
Fixpoint str_ltb (a b : pystr) : bool :=
  match a, b with
  | _, [] => false
  | [], _ :: _ => true
  | x :: a', y :: b' => (x <? y)%N || ((x =? y)%N && str_ltb a' b')
  end.

Definition str_le (a b : pystr) : Prop := str_ltb b a = false.

(** [str(n)] for an integer. *)
Definition str_int (n : Z) : pystr := py (NilZero.string_of_int (Z.to_int n)).

(** [sep.join(parts)] *)
Fixpoint join (sep : pystr) (parts : list pystr) : pystr :=
  match parts with
  | [] => []
  | [p] => p
  | p :: rest => p ++ sep ++ join sep rest
  end.

(** The parts of the runtime that depend on the Unicode case tables and
    on [repr] are taken as an interface: [lower] is [str.lower], [repr]
    is [repr] of a string (what [str] of a [KeyError] shows). *)
Class PyRuntime := {
  lower : pystr -> pystr;
  repr : pystr -> pystr
}.

(** Two facts about [str.lower] that the round trip of an email relies
    on: lowering twice is lowering once, and lowering neither creates
    nor removes white space at the ends of a string. *)
Class PyRuntimeLaws (R : PyRuntime) : Prop := {
  lower_idemp : forall s, lower (lower s) = lower s;
  lower_strip : forall s, strip (lower s) = lower (strip s)
}.

(** The restriction of [str.lower] to the letters A-Z, and a [repr]
    that only adds quotes: an instance of the interface for running
    examples on ASCII text. *)
Definition ascii_lower_char (c : codepoint) : codepoint :=
  if (65 <=? c)%N && (c <=? 90)%N then (c + 32)%N else c.

Definition ascii_runtime : PyRuntime :=
  {| lower := List.map ascii_lower_char;
     repr := fun s => py "'" ++ s ++ py "'" |}.

(* ===================================================================== *)
(** ** Regular expressions over code points, matched by derivatives *)
(* ===================================================================== *)

Inductive regex : Type :=
| ReNone
| ReEps
| ReClass (cls : list (N * N))
| ReCat (r1 r2 : regex)
| ReAlt (r1 r2 : regex)
| ReStar (r : regex).

Fixpoint nullable (r : regex) : bool :=
  match r with
  | ReNone => false
  | ReEps => true
  | ReClass _ => false
  | ReCat r1 r2 => nullable r1 && nullable r2
  | ReAlt r1 r2 => nullable r1 || nullable r2
  | ReStar _ => true
  end.

Fixpoint deriv (c : codepoint) (r : regex) : regex :=
  match r with
  | ReNone => ReNone
  | ReEps => ReNone
  | ReClass cls => if in_ranges cls c then ReEps else ReNone
  | ReCat r1 r2 =>
      if nullable r1
      then ReAlt (ReCat (deriv c r1) r2) (deriv c r2)
      else ReCat (deriv c r1) r2
  | ReAlt r1 r2 => ReAlt (deriv c r1) (deriv c r2)
  | ReStar r1 => ReCat (deriv c r1) (ReStar r1)
  end.

(** The whole of [s] is in the language of [r]. *)
Fixpoint fullmatch (r : regex) (s : pystr) : bool :=
  match s with
  | [] => nullable r
  | c :: s' => fullmatch (deriv c r) s'
  end.

Definition re_plus (r : regex) : regex := ReCat r (ReStar r).
Definition re_char (c : N) : regex := ReClass [(c, c)].

(** [$] without MULTILINE: the end of the string, or just before a
    newline that ends the string. *)
Definition re_dollar : regex := ReAlt ReEps (re_char 10%N).

(* ===================================================================== *)
(** ** Exceptions and stateful computations *)
(* ===================================================================== *)

(** The exceptions the program raises or can receive from the runtime,
    each with its message. [Dangling] is not a Python exception: it is
    the outcome of following a reference that the store does not hold,
    which no state built by the program contains. *)
Inductive exn : Type :=
| ValueError (msg : pystr)
| KeyError (msg : pystr)
| IndexError (msg : pystr)
| OverflowError (msg : pystr)
| Dangling.

(** The outcome of a call: an exception raised, or a value returned. *)
Inductive outcome (A : Type) : Type :=
| Raised (e : exn)
| Returned (a : A).
Arguments Raised {A} e.
Arguments Returned {A} a.

(** A computation on a mutable state [S]: the state is threaded through
    and is still there after an exception. *)
Definition M (S A : Type) : Type := S -> outcome A * S.

Definition ret {S A} (a : A) : M S A := fun s => (Returned a, s).

Definition bind {S A B} (m : M S A) (k : A -> M S B) : M S B :=
  fun s =>
    match m s with
    | (Returned a, s') => k a s'
    | (Raised e, s') => (Raised e, s')
    end.

Definition raise {S A} (e : exn) : M S A := fun s => (Raised e, s).
Definition get {S} : M S S := fun s => (Returned s, s).
Definition put {S} (s : S) : M S unit := fun _ => (Returned tt, s).

(** A pure call that may raise, used inside a computation. *)
Definition lift {S A} (o : outcome A) : M S A := fun s => (o, s).

(** [try: m except Exception as e: h e] *)
Definition try_except {S A} (m : M S A) (h : exn -> M S A) : M S A :=
  fun s =>
    match m s with
    | (Returned a, s') => (Returned a, s')
    | (Raised e, s') => h e s'
    end.

Declare Scope py_scope.
Delimit Scope py_scope with py.
Notation "'let!' x ':=' m 'in' k" := (bind m (fun x => k))
  (at level 10, x pattern, m at level 100, k at level 200) : py_scope.
Notation "m ';;' k" := (bind m (fun _ => k))
  (at level 100, k at level 200, right associativity) : py_scope.

(** [for x in xs: body x], stopping at the first exception. *)
Fixpoint for_each {S A} (xs : list A) (body : A -> M S unit) : M S unit :=
  match xs with
  | [] => ret tt
  | x :: xs' => bind (body x) (fun _ => for_each xs' body)
  end.

(** The same for a pure call. *)
Definition obind {A B} (o : outcome A) (k : A -> outcome B) : outcome B :=
  match o with
  | Returned a => k a
  | Raised e => Raised e
  end.

(* ===================================================================== *)
(** ** Calendar dates ([datetime.date]) *)
(* ===================================================================== *)

Record date : Type := mkDate { year : Z; month : Z; day : Z }.

Definition MINYEAR : Z := 1.
Definition MAXYEAR : Z := 9999.

Definition is_leap (y : Z) : bool :=
  (y mod 4 =? 0) && (negb (y mod 100 =? 0) || (y mod 400 =? 0)).

Definition DAYS_IN_MONTH : list Z :=
  [31; 28; 31; 30; 31; 30; 31; 31; 30; 31; 30; 31].

Definition days_in_month (y m : Z) : Z :=
  if (m =? 2) && is_leap y then 29
  else nth (Z.to_nat (m - 1)) DAYS_IN_MONTH 0.

Definition DAYS_BEFORE_MONTH : list Z :=
  [0; 31; 59; 90; 120; 151; 181; 212; 243; 273; 304; 334].

Definition days_before_month (y m : Z) : Z :=
  nth (Z.to_nat (m - 1)) DAYS_BEFORE_MONTH 0
  + (if (2 <? m) && is_leap y then 1 else 0).

Definition days_before_year (y : Z) : Z :=
  let y1 := y - 1 in
  y1 * 365 + y1 / 4 - y1 / 100 + y1 / 400.

(** [date(y, m, d)]: the constructor checks its fields. *)
Definition new_date (y m d : Z) : outcome date :=
  if negb ((MINYEAR <=? y) && (y <=? MAXYEAR))
  then Raised (ValueError (py "year " ++ str_int y ++ py " is out of range"))
  else if negb ((1 <=? m) && (m <=? 12))
  then Raised (ValueError (py "month must be in 1..12"))
  else if negb ((1 <=? d) && (d <=? days_in_month y m))
  then Raised (ValueError (py "day is out of range for month"))
  else Returned (mkDate y m d).

(** [d.replace(year=y)] *)
Definition replace_year (d : date) (y : Z) : outcome date :=
  new_date y (month d) (day d).

(** [d.toordinal()]: 1 is 1 January of year 1. *)
Definition toordinal (d : date) : Z :=
  days_before_year (year d) + days_before_month (year d) (month d) + day d.

Definition DI400Y : Z := 146097.
Definition DI100Y : Z := 36524.
Definition DI4Y : Z := 1461.
Definition MAXORDINAL : Z := 3652059.

(** The end of [_ord2ymd]: the month and the day of the [n]-th day,
    counted from 0, of a year that is a leap year or not. *)
Definition month_day (leapyear : bool) (n : Z) : Z * Z :=
  let m := Z.shiftr (n + 50) 5 in
  let preceding :=
    nth (Z.to_nat (m - 1)) DAYS_BEFORE_MONTH 0
    + (if (2 <? m) && leapyear then 1 else 0) in
  if n <? preceding then
    let m' := m - 1 in
    let preceding' :=
      preceding - (nth (Z.to_nat (m' - 1)) DAYS_IN_MONTH 0
                   + (if (m' =? 2) && leapyear then 1 else 0)) in
    (m', n - preceding' + 1)
  else (m, n - preceding + 1).

(** [date.fromordinal(n)], for [1 <= n <= MAXORDINAL] ([_ord2ymd]). *)
Definition fromordinal (n : Z) : date :=
  let n := n - 1 in
  let n400 := n / DI400Y in
  let n := n mod DI400Y in
  let y := n400 * 400 + 1 in
  let n100 := n / DI100Y in
  let n := n mod DI100Y in
  let n4 := n / DI4Y in
  let n := n mod DI4Y in
  let n1 := n / 365 in
  let n := n mod 365 in
  let y := y + n100 * 100 + n4 * 4 + n1 in
  if (n1 =? 4) || (n100 =? 4) then mkDate (y - 1) 12 31
  else
    let leapyear := (n1 =? 3) && (negb (n4 =? 24) || (n100 =? 3)) in
    let (m, d) := month_day leapyear n in
    mkDate y m d.

(** [d.weekday()]: Monday is 0, Saturday 5, Sunday 6. *)
Definition weekday (d : date) : Z := (toordinal d + 6) mod 7.

(** [d + timedelta(days=k)] *)
Definition add_days (d : date) (k : Z) : outcome date :=
  if 999999999 <? Z.abs k
  then Raised (OverflowError
                 (py "days=" ++ str_int k
                  ++ py "; must have magnitude <= 999999999"))
  else
    let o := toordinal d + k in
    if (0 <? o) && (o <=? MAXORDINAL) then Returned (fromordinal o)
    else Raised (OverflowError (py "date value out of range")).

(** [a < b] and [a == b] on dates. *)
Definition date_ltb (a b : date) : bool :=
  (year a <? year b)
  || ((year a =? year b)
      && ((month a <? month b)
          || ((month a =? month b) && (day a <? day b)))).

Definition date_eqb (a b : date) : bool :=
  (year a =? year b) && (month a =? month b) && (day a =? day b).

(** A date that the constructor accepts. *)
Definition valid_date (d : date) : Prop :=
  MINYEAR <= year d <= MAXYEAR /\ 1 <= month d <= 12
  /\ 1 <= day d <= days_in_month (year d) (month d).

(** Decimal digits of a number, zero-padded to [width] characters. *)
Fixpoint zero_pad (width : nat) (n : Z) : pystr :=
  match width with
  | O => []
  | S w => zero_pad w (n / 10) ++ [(48 + Z.to_N (n mod 10))%N]
  end.

(** [d.strftime("%d.%m.%Y")]: day and month on two digits, the year
    with century on four digits, zero-padded as the library documents
    it for [%Y] ("0001, 0002, ..., 9999"). A C library that leaves a
    year below 1000 unpadded is outside this model. *)
Definition strftime (d : date) : pystr :=
  zero_pad 2 (day d) ++ py "." ++ zero_pad 2 (month d) ++ py "."
  ++ zero_pad 4 (year d).

(* ===================================================================== *)
(** ** [datetime.strptime(value, "%d.%m.%Y")] *)
(* ===================================================================== *)

(** The library turns the format into the pattern
    [(3[0-1]|[1-2]\d|0[1-9]|[1-9]| [1-9])\.(1[0-2]|0[1-9]|[1-9])\.(\d\d\d\d)]
    and matches it with backtracking: a directive is a group of
    alternatives tried in order, an alternative a sequence of character
    classes. *)
Inductive item : Type :=
| Group (alts : list (list (codepoint -> bool)))
| Lit (c : codepoint).

Definition between (lo hi : N) (c : codepoint) : bool :=
  (lo <=? c)%N && (c <=? hi)%N.

Fixpoint match_classes (cls : list (codepoint -> bool)) (s : pystr)
  : option (pystr * pystr) :=
  match cls, s with
  | [], _ => Some ([], s)
  | p :: cls', c :: s' =>
      if p c then
        match match_classes cls' s' with
        | Some (tok, rest) => Some (c :: tok, rest)
        | None => None
        end
      else None
  | _ :: _, [] => None
  end.

Fixpoint first_alt {A} (alts : list (list (codepoint -> bool)))
  (k : list (codepoint -> bool) -> option A) : option A :=
  match alts with
  | [] => None
  | alt :: alts' =>
      match k alt with
      | Some a => Some a
      | None => first_alt alts' k
      end
  end.

(** The captured groups and the text left after the match. *)
Fixpoint match_items (items : list item) (s : pystr)
  : option (list pystr * pystr) :=
  match items with
  | [] => Some ([], s)
  | Lit c :: items' =>
      match s with
      | c' :: s' => if (c =? c')%N then match_items items' s' else None
      | [] => None
      end
  | Group alts :: items' =>
      first_alt alts (fun alt =>
        match match_classes alt s with
        | Some (tok, rest) =>
            match match_items items' rest with
            | Some (toks, rest') => Some (tok :: toks, rest')
            | None => None
            end
        | None => None
        end)
  end.

Definition directive_d : item :=
  Group [ [between 51 51; between 48 49];
          [between 49 50; char_isdecimal];
          [between 48 48; between 49 57];
          [between 49 57];
          [between 32 32; between 49 57] ]%N.

Definition directive_m : item :=
  Group [ [between 49 49; between 48 50];
          [between 48 48; between 49 57];
          [between 49 57] ]%N.

Definition directive_Y : item :=
  Group [ [char_isdecimal; char_isdecimal; char_isdecimal; char_isdecimal] ].

Definition format_dmY : list item :=
  [directive_d; Lit 46%N; directive_m; Lit 46%N; directive_Y].

(** [int(tok)] on a captured group: digits, after white space at the
    ends is dropped. *)
Definition py_int (tok : pystr) : option Z :=
  match strip tok with
  | [] => None
  | digits =>
      fold_left (fun acc c =>
                   match acc, decimal_value c with
                   | Some n, Some v => Some (10 * n + v)
                   | _, _ => None
                   end) digits (Some 0)
  end.

Section Strptime.
Context {R : PyRuntime}.

Definition strptime (value : pystr) : outcome date :=
  match match_items format_dmY value with
  | None =>
      Raised (ValueError (py "time data " ++ repr value
                          ++ py " does not match format '%d.%m.%Y'"))
  | Some (toks, rest) =>
      match rest with
      | _ :: _ => Raised (ValueError (py "unconverted data remains: " ++ rest))
      | [] =>
          match toks with
          | [d; m; y] =>
              match py_int d, py_int m, py_int y with
              | Some dv, Some mv, Some yv => new_date yv mv dv
              | _, _, _ => Raised (ValueError (py "invalid literal for int()"))
              end
          | _ => Raised (ValueError (py "invalid literal for int()"))
          end
      end
  end.
End Strptime.

(* ===================================================================== *)
(** ** Fields *)
(* ===================================================================== *)

Module Name.
(** [Name(value)]: [Field.__init__], no validation. *)
Definition init (value : pystr) : outcome pystr := Returned value.
End Name.

Module Phone.
Definition validate (value : pystr) : bool :=
  isdigit value && (length value =? 10)%nat.

Definition init (value : pystr) : outcome pystr :=
  if negb (validate value)
  then Raised (ValueError
    (py "Phone number must contain 10 digits. Use format like 0931112233."))
  else Returned value.
End Phone.

Module Email.
Definition local_chars : list (N * N) :=
  [(97, 122); (65, 90); (48, 57); (46, 46); (95, 95); (37, 37);
   (43, 43); (45, 45)]%N.
Definition domain_chars : list (N * N) :=
  [(97, 122); (65, 90); (48, 57); (46, 46); (45, 45)]%N.
Definition letters : list (N * N) := [(97, 122); (65, 90)]%N.

(** [^[a-zA-Z0-9._%+-]+@[a-zA-Z0-9.-]+\.[a-zA-Z]{2,}$] *)
Definition pattern : regex :=
  ReCat (re_plus (ReClass local_chars))
 (ReCat (re_char 64%N)
 (ReCat (re_plus (ReClass domain_chars))
 (ReCat (re_char 46%N)
 (ReCat (ReClass letters)
 (ReCat (ReClass letters)
 (ReCat (ReStar (ReClass letters))
        re_dollar)))))).

Definition validate (value : pystr) : bool := fullmatch pattern value.

Definition init {R : PyRuntime} (value : pystr) : outcome pystr :=
  let value := lower (strip value) in
  if negb (validate value)
  then Raised (ValueError
    (py "Invalid email format. Must contain '@' and domain."))
  else Returned value.
End Email.

Module Address.
Definition validate (value : pystr) : bool :=
  (0 <? length (strip value))%nat.

Definition init (value : pystr) : outcome pystr :=
  if negb (validate value)
  then Raised (ValueError (py "Address cannot be empty."))
  else Returned value.
End Address.

Module Birthday.
(** The field holds the parsed [datetime]; its time of day is
    midnight, the format having no time directive, so the value is
    kept as the date. Every [ValueError] of the parser is replaced. *)
Definition init {R : PyRuntime} (value : pystr) : outcome date :=
  match strptime value with
  | Returned d => Returned d
  | Raised (ValueError _) =>
      Raised (ValueError (py "Invalid date format. Use DD.MM.YYYY"))
  | Raised e => Raised e
  end.
End Birthday.

(* ===================================================================== *)
(** ** The contact record (class [Record]) *)
(* ===================================================================== *)

(** The attributes of a record object. A phone, an email and an address
    are kept by their [value]; a field that is [None] in the program is
    [None] here. *)
Record record : Type := mkRecord {
  name : pystr;
  phones : list pystr;
  email : option pystr;
  address : option pystr;
  birthday : option date
}.

Definition set_phones (ps : list pystr) (r : record) : record :=
  mkRecord (name r) ps (email r) (address r) (birthday r).
Definition set_email (e : option pystr) (r : record) : record :=
  mkRecord (name r) (phones r) e (address r) (birthday r).
Definition set_address (a : option pystr) (r : record) : record :=
  mkRecord (name r) (phones r) (email r) a (birthday r).
Definition set_birthday (b : option date) (r : record) : record :=
  mkRecord (name r) (phones r) (email r) (address r) b.

(** The plain structure [to_dict] builds and [from_dict] reads, with the
    types of the persisted file. [None] stands for a key that is
    absent, and for [email], [address] and [birthday], which the
    program reads with [data.get], also for a key present with
    [None]. *)
Record portable : Type := mkPortable {
  p_name : option pystr;
  p_phones : option (list pystr);
  p_email : option pystr;
  p_address : option pystr;
  p_birthday : option pystr
}.

(** Truth value of [data.get(key)] for a string or [None]. *)
Definition truthy (v : option pystr) : option pystr :=
  match v with
  | Some (c :: s) => Some (c :: s)
  | _ => None
  end.

Local Open Scope py_scope.

Module Rec.
(** [Record(name)] *)
Definition init (nm : pystr) : outcome record :=
  obind (Name.init nm) (fun n => Returned (mkRecord n [] None None None)).

Definition add_phone (phone : pystr) : M record unit :=
  let! p := lift (Phone.init phone) in
  let! self := get in
  put (set_phones (phones self ++ [p]) self).

(** The loop of [find_phone]: the position of the first phone whose
    value is [phone]. The program returns the object at that
    position; the position identifies it. *)
Fixpoint find_index (phone : pystr) (ps : list pystr) : option nat :=
  match ps with
  | [] => None
  | p :: ps' =>
      if bool_decide (p = phone) then Some O
      else option_map S (find_index phone ps')
  end.

Definition find_phone (phone : pystr) : M record (option nat) :=
  let! self := get in
  ret (find_index phone (phones self)).

(** [self.phones.remove(obj)] takes out the first element that is
    [obj], here the element at its position. *)
Definition remove_phone (phone : pystr) : M record unit :=
  let! phone_to_remove := find_phone phone in
  match phone_to_remove with
  | Some i =>
      let! self := get in
      put (set_phones (delete i (phones self)) self)
  | None =>
      raise (ValueError (py "Phone number " ++ phone ++ py " not found"))
  end.

Definition edit_phone (old_phone new_phone : pystr) : M record unit :=
  let! phone_to_edit := find_phone old_phone in
  match phone_to_edit with
  | Some index =>
      if negb (Phone.validate new_phone)
      then raise (ValueError (py
        "New phone number must contain 10 digits. Use format like 0931112233."))
      else
        let! p := lift (Phone.init new_phone) in
        let! self := get in
        put (set_phones (<[index := p]> (phones self)) self)
  | None =>
      raise (ValueError (py "Phone number " ++ old_phone ++ py " not found"))
  end.

Section WithRuntime.
Context {R : PyRuntime}.

Definition add_email (e : pystr) : M record unit :=
  let! v := lift (Email.init e) in
  let! self := get in
  put (set_email (Some v) self).

Definition edit_email (new_email : pystr) : M record unit :=
  if negb (Email.validate new_email)
  then raise (ValueError (py "Invalid email format."))
  else
    let! v := lift (Email.init new_email) in
    let! self := get in
    put (set_email (Some v) self).

Definition add_address (a : pystr) : M record unit :=
  let! v := lift (Address.init a) in
  let! self := get in
  put (set_address (Some v) self).

Definition edit_address (new_address : pystr) : M record unit :=
  if negb (Address.validate new_address)
  then raise (ValueError (py "Address cannot be empty."))
  else
    let! v := lift (Address.init new_address) in
    let! self := get in
    put (set_address (Some v) self).

Definition add_birthday (b : pystr) : M record unit :=
  let! v := lift (Birthday.init b) in
  let! self := get in
  put (set_birthday (Some v) self).

Definition to_dict (self : record) : portable :=
  {| p_name := Some (name self);
     p_phones := Some (phones self);
     p_email := email self;
     p_address := address self;
     p_birthday := option_map strftime (birthday self) |}.

(** The statements of [from_dict] after the record is created. *)
Definition fill (data : portable) : M record unit :=
  for_each (default [] (p_phones data)) add_phone ;;
  match truthy (p_email data) with
  | Some e => add_email e
  | None => ret tt
  end ;;
  match truthy (p_address data) with
  | Some a => add_address a
  | None => ret tt
  end ;;
  match truthy (p_birthday data) with
  | Some b => add_birthday b
  | None => ret tt
  end.

Definition from_dict (data : portable) : outcome record :=
  match p_name data with
  | None => Raised (KeyError (py "name"))
  | Some nm =>
      obind (init nm) (fun r0 =>
        match fill data r0 with
        | (Returned _, r) => Returned r
        | (Raised e, _) => Raised e
        end)
  end.
End WithRuntime.
End Rec.

(* ===================================================================== *)
(** ** The address book (class [AddressBook]) *)
(* ===================================================================== *)

(** A reference to a record object. *)
Definition loc := nat.

(** The objects of a run: the store of records, and the dictionary
    [book.data], from a name to the record object, in insertion order. *)
Record world : Type := mkWorld {
  heap : list record;
  data : list (pystr * loc)
}.

(** One item of the list that the birthday query returns. *)
Record entry : Type := mkEntry {
  entry_name : pystr;
  congratulation_date : pystr
}.

(** Dictionary operations, insertion order kept. *)
Fixpoint dict_get (k : pystr) (d : list (pystr * loc)) : option loc :=
  match d with
  | [] => None
  | (k', v) :: d' => if bool_decide (k' = k) then Some v else dict_get k d'
  end.

(** [d[k] = v]: a present key keeps its place, a new one goes last. *)
Fixpoint dict_set (k : pystr) (v : loc) (d : list (pystr * loc))
  : list (pystr * loc) :=
  match d with
  | [] => [(k, v)]
  | (k', v') :: d' =>
      if bool_decide (k' = k) then (k', v) :: d'
      else (k', v') :: dict_set k v d'
  end.

(** [del d[k]] *)
Fixpoint dict_del (k : pystr) (d : list (pystr * loc)) : list (pystr * loc) :=
  match d with
  | [] => []
  | (k', v') :: d' =>
      if bool_decide (k' = k) then d' else (k', v') :: dict_del k d'
  end.

(** [list.sort(key=...)] on the entries: a stable sort that compares
    keys with [<] only; an element goes after the elements before it
    whose key is not greater. *)
Fixpoint insert_by_name (x : entry) (l : list entry) : list entry :=
  match l with
  | [] => [x]
  | y :: l' =>
      if str_ltb (entry_name x) (entry_name y) then x :: y :: l'
      else y :: insert_by_name x l'
  end.

Definition sort_by_name (l : list entry) : list entry :=
  fold_left (fun acc x => insert_by_name x acc) l [].

(** The object behind a reference. *)
Definition deref (l : loc) : M world record :=
  fun w =>
    match heap w !! l with
    | Some r => (Returned r, w)
    | None => (Raised Dangling, w)
    end.

(** A method call [obj.m(...)] on the record object at [l]. *)
Definition on_record {A} (l : loc) (m : M record A) : M world A :=
  fun w =>
    match heap w !! l with
    | Some r =>
        let (o, r') := m r in
        (o, mkWorld (<[l := r']> (heap w)) (data w))
    | None => (Raised Dangling, w)
    end.

(** A new record object enters the store. *)
Definition alloc (r : record) : M world loc :=
  fun w => (Returned (length (heap w)), mkWorld (heap w ++ [r]) (data w)).

(** [Record(name)] as an expression of a handler. *)
Definition new_record (nm : pystr) : M world loc :=
  let! r := lift (Rec.init nm) in alloc r.

(** [self.data.values()], with the object behind each reference. *)
Fixpoint values (d : list (pystr * loc)) : M world (list (loc * record)) :=
  match d with
  | [] => ret []
  | (_, l) :: d' =>
      let! r := deref l in
      let! rs := values d' in
      ret ((l, r) :: rs)
  end.

Module AddressBook.
Definition add_record (rcd : loc) : M world unit :=
  let! r := deref rcd in
  fun w => (Returned tt, mkWorld (heap w) (dict_set (name r) rcd (data w))).

Definition find (nm : pystr) : M world (option loc) :=
  let! self := get in
  ret (dict_get nm (data self)).

Definition delete (nm : pystr) : M world unit :=
  let! self := get in
  match dict_get nm (data self) with
  | Some _ => put (mkWorld (heap self) (dict_del nm (data self)))
  | None => raise (KeyError (py "Contact '" ++ nm ++ py "' not found"))
  end.

(** The body of the loop of [get_birthdays_in_days] for one record:
    the result list after it. *)
Definition birthday_step (today target_date : date) (r : record)
  (result : list entry) : outcome (list entry) :=
  match birthday r with
  | None => Returned result
  | Some bday =>
      obind (replace_year bday (year today)) (fun bday_this_year =>
      obind (if date_ltb bday_this_year today
             then replace_year bday_this_year (year today + 1)
             else Returned bday_this_year) (fun bday_this_year =>
      if date_eqb bday_this_year target_date then
        let wd := weekday bday_this_year in
        obind (if wd =? 5 then add_days bday_this_year 2
               else if wd =? 6 then add_days bday_this_year 1
               else Returned bday_this_year) (fun date =>
        Returned (result ++ [mkEntry (name r) (strftime date)]))
      else Returned result))
  end.

Fixpoint birthday_loop (today target_date : date) (rs : list (loc * record))
  (result : list entry) : outcome (list entry) :=
  match rs with
  | [] => Returned result
  | (_, r) :: rs' =>
      obind (birthday_step today target_date r result)
            (birthday_loop today target_date rs')
  end.

(** [today] is the value of [datetime.today().date()]. *)
Definition get_birthdays_in_days (today : date) (days : Z)
  : M world (list entry) :=
  if days <? 0
  then raise (ValueError (py "Number of days cannot be negative."))
  else
    let! target_date := lift (add_days today days) in
    let! self := get in
    let! rs := values (data self) in
    let! result := lift (birthday_loop today target_date rs []) in
    ret (sort_by_name result).

Definition get_upcoming_birthdays (today : date) : M world (list entry) :=
  get_birthdays_in_days today 7.

Section WithRuntime.
Context {R : PyRuntime}.

(** The inner loop over the phones: the list of found records and
    the flag [phone_found] when the loop ends or breaks. *)
Fixpoint search_phones (query_lower : pystr) (l : loc) (ps : list pystr)
  (found_records : list loc) : list loc * bool :=
  match ps with
  | [] => (found_records, false)
  | p :: ps' =>
      if contains query_lower p then (found_records ++ [l], true)
      else search_phones query_lower l ps' found_records
  end.

(** The body of the loop of [search] for one record. *)
Definition search_step (query_lower : pystr) (found_records : list loc)
  (lr : loc * record) : list loc :=
  let (l, r) := lr in
  if contains query_lower (lower (name r)) then found_records ++ [l]
  else
    let (found_records, phone_found) :=
      search_phones query_lower l (phones r) found_records in
    if phone_found then found_records
    else if match email r with
            | Some e => contains query_lower (lower e)
            | None => false
            end
    then found_records ++ [l]
    else if match address r with
            | Some a => contains query_lower (lower a)
            | None => false
            end
    then found_records ++ [l]
    else if match birthday r with
            | Some b => contains query_lower (strftime b)
            | None => false
            end
    then found_records ++ [l]
    else found_records.

Definition search (query : pystr) : M world (list loc) :=
  let query_lower := lower query in
  let! self := get in
  let! rs := values (data self) in
  ret (fold_left (search_step query_lower) rs []).
End WithRuntime.
End AddressBook.

(* ===================================================================== *)
(** ** Command handlers *)
(* ===================================================================== *)

Section Handlers.
Context {R : PyRuntime}.

(** The decorator: an exception of the handler becomes its answer. *)
Definition input_error (func : M world pystr) : M world pystr :=
  try_except func (fun e =>
    match e with
    | ValueError msg => ret (py "Error: " ++ msg)
    | KeyError msg => ret (py "Error: " ++ repr msg)
    | IndexError msg => ret (py "Error: " ++ msg)
    | OverflowError msg => ret (py "Unexpected error: " ++ msg)
    | Dangling => raise Dangling
    end).

Definition add_contact (args : list pystr) : M world pystr :=
  input_error
    match args with
    | nm :: phone :: _ =>
        let! found := AddressBook.find nm in
        let! rm :=
          match found with
          | Some rcd => ret (rcd, py "Contact updated.")
          | None =>
              let! rcd := new_record nm in
              AddressBook.add_record rcd ;;
              ret (rcd, py "Contact added.")
          end in
        let (rcd, message) := rm : loc * pystr in
        match phone with
        | _ :: _ => on_record rcd (Rec.add_phone phone)
        | [] => ret tt
        end ;;
        ret message
    | _ =>
        raise (IndexError (py
          "Not enough arguments. Usage: add contact [name] [phone]"))
    end.

Definition change_contact (args : list pystr) : M world pystr :=
  input_error
    match args with
    | nm :: old_phone :: new_phone :: _ =>
        let! found := AddressBook.find nm in
        match found with
        | None => raise (KeyError (py "Contact '" ++ nm ++ py "' not found"))
        | Some rcd =>
            on_record rcd (Rec.edit_phone old_phone new_phone) ;;
            ret (py "Contact updated.")
        end
    | _ =>
        raise (IndexError (py
          "Not enough arguments. Usage: change contact [name] [old_phone] [new_phone]"))
    end.
End Handlers.

(* ===================================================================== *)
(** ** The other command handlers *)
(* ===================================================================== *)

Section MoreHandlers.
Context {R : PyRuntime}.

(** The [KeyError] of a handler for a name the book does not have. *)
Definition contact_not_found (nm : pystr) : exn :=
  KeyError (py "Contact '" ++ nm ++ py "' not found").

Definition delete_contact (args : list pystr) : M world pystr :=
  input_error
    match args with
    | nm :: _ =>
        AddressBook.delete nm ;;
        ret (py "Contact '" ++ nm ++ py "' deleted.")
    | [] =>
        raise (IndexError (py
          "Not enough arguments. Usage: delete contact [name]"))
    end.

Definition add_birthday (args : list pystr) : M world pystr :=
  input_error
    match args with
    | nm :: bday :: _ =>
        let! found := AddressBook.find nm in
        match found with
        | None => raise (contact_not_found nm)
        | Some rcd =>
            on_record rcd (Rec.add_birthday bday) ;;
            ret (py "Birthday added.")
        end
    | _ =>
        raise (IndexError (py
          "Not enough arguments. Usage: add birthday [name] [DD.MM.YYYY]"))
    end.

Definition change_birthday (args : list pystr) : M world pystr :=
  input_error
    match args with
    | nm :: new_birthday :: _ =>
        let! found := AddressBook.find nm in
        match found with
        | None => raise (contact_not_found nm)
        | Some rcd =>
            let! r := deref rcd in
            match birthday r with
            | None =>
                raise (ValueError (py "Contact '" ++ nm
                  ++ py "' has no birthday. Use 'add birthday' first."))
            | Some _ =>
                on_record rcd (Rec.add_birthday new_birthday) ;;
                ret (py "Birthday updated.")
            end
        end
    | _ =>
        raise (IndexError (py
          "Not enough arguments. Usage: change birthday [name] [new_DD.MM.YYYY]"))
    end.

Definition show_birthday (args : list pystr) : M world pystr :=
  input_error
    match args with
    | nm :: _ =>
        let! found := AddressBook.find nm in
        match found with
        | None => raise (contact_not_found nm)
        | Some rcd =>
            let! r := deref rcd in
            match birthday r with
            | None => ret (nm ++ py " has no birthday set.")
            | Some b => ret (nm ++ py "'s birthday: " ++ strftime b)
            end
        end
    | [] =>
        raise (IndexError (py
          "Not enough arguments. Usage: show birthday [name]"))
    end.

Definition add_email (args : list pystr) : M world pystr :=
  input_error
    match args with
    | nm :: e :: _ =>
        let! found := AddressBook.find nm in
        match found with
        | None => raise (contact_not_found nm)
        | Some rcd =>
            on_record rcd (Rec.add_email e) ;;
            ret (py "Email added.")
        end
    | _ =>
        raise (IndexError (py
          "Not enough arguments. Usage: add email [name] [email]"))
    end.

Definition change_email (args : list pystr) : M world pystr :=
  input_error
    match args with
    | nm :: new_email :: _ =>
        let! found := AddressBook.find nm in
        match found with
        | None => raise (contact_not_found nm)
        | Some rcd =>
            let! r := deref rcd in
            match email r with
            | None =>
                raise (ValueError (py "Contact '" ++ nm
                  ++ py "' has no email. Use 'add email' first."))
            | Some _ =>
                on_record rcd (Rec.edit_email new_email) ;;
                ret (py "Email updated.")
            end
        end
    | _ =>
        raise (IndexError (py
          "Not enough arguments. Usage: change email [name] [new_email]"))
    end.

Definition add_address (args : list pystr) : M world pystr :=
  input_error
    match args with
    | nm :: a :: rest =>
        let addr := join (py " ") (a :: rest) in
        let! found := AddressBook.find nm in
        match found with
        | None => raise (contact_not_found nm)
        | Some rcd =>
            on_record rcd (Rec.add_address addr) ;;
            ret (py "Address added.")
        end
    | _ =>
        raise (IndexError (py
          "Not enough arguments. Usage: add address [name] [address]"))
    end.

Definition change_address (args : list pystr) : M world pystr :=
  input_error
    match args with
    | nm :: a :: rest =>
        let new_address := join (py " ") (a :: rest) in
        let! found := AddressBook.find nm in
        match found with
        | None => raise (contact_not_found nm)
        | Some rcd =>
            let! r := deref rcd in
            match address r with
            | None =>
                raise (ValueError (py "Contact '" ++ nm
                  ++ py "' has no address. Use 'add address' first."))
            | Some _ =>
                on_record rcd (Rec.edit_address new_address) ;;
                ret (py "Address updated.")
            end
        end
    | _ =>
        raise (IndexError (py
          "Not enough arguments. Usage: change address [name] [new_address]"))
    end.
End MoreHandlers.

(* ===================================================================== *)
(** ** Reading a command line ([parse_input]) *)
(* ===================================================================== *)

(** [s.split()]: the maximal runs of characters that are not white
    space; [cur] is the run being read. *)
Fixpoint split_from (cur : pystr) (s : pystr) : list pystr :=
  match s with
  | [] => match cur with
          | [] => []
          | _ :: _ => [cur]
          end
  | c :: s' =>
      if char_isspace c then
        match cur with
        | [] => split_from [] s'
        | _ :: _ => cur :: split_from [] s'
        end
      else split_from (cur ++ [c]) s'
  end.

Definition split (s : pystr) : list pystr := split_from [] s.

Definition TWO_WORD_COMMANDS : list pystr :=
  List.map py
    [ "show all"; "add contact"; "change contact"; "add birthday";
      "change birthday"; "show birthday"; "add email"; "change email";
      "add address"; "change address"; "delete contact" ]%string.

Definition parse_input {R : PyRuntime} (user_input : pystr)
  : pystr * list pystr :=
  match split user_input with
  | [] => ([], [])
  | p0 :: p1 :: rest =>
      let two_word_command := lower (p0 ++ py " " ++ p1) in
      if existsb (fun c => bool_decide (two_word_command = c)) TWO_WORD_COMMANDS
      then (two_word_command, rest)
      else (lower (strip p0), p1 :: rest)
  | [p0] => (lower (strip p0), [])
  end.

(* ===================================================================== *)
(** ** Saving and loading the book *)
(* ===================================================================== *)

(** What [load_data] finds under the file name: no file, a file that is
    not JSON, or the list that [json.load] returns. The JSON text is
    not modelled: a file written by [save_data] holds the list that
    [save_data] gave to [json.dump]. *)
Inductive file_content : Type :=
| NoFile
| NotJson
| Json (data_list : list portable).

Section Persistence.
Context {R : PyRuntime}.

(** [save_data]: the list handed to [json.dump]. *)
Definition save_data : M world (list portable) :=
  let! self := get in
  let! rs := values (data self) in
  ret (List.map (fun lr => Rec.to_dict (snd lr)) rs).

(** The loop of [load_data] over the list read from the file. *)
Fixpoint load_records (data_list : list portable) : M world unit :=
  match data_list with
  | [] => ret tt
  | record_dict :: rest =>
      let! r := lift (Rec.from_dict record_dict) in
      let! rcd := alloc r in
      AddressBook.add_record rcd ;;
      load_records rest
  end.

(** [load_data]: the book it returns. Any exception in the loop gives
    up the book built so far for an empty one. *)
Definition load_data (f : file_content) : world :=
  match f with
  | NoFile => mkWorld [] []
  | NotJson => mkWorld [] []
  | Json data_list =>
      match load_records data_list (mkWorld [] []) with
      | (Returned _, book) => book
      | (Raised _, _) => mkWorld [] []
      end
  end.
End Persistence.

(* ===================================================================== *)
(** ** Sample data for the examples *)
(* ===================================================================== *)

(** Ten times ARABIC-INDIC DIGIT ZERO (U+0660). *)
Definition arabic_zeros : pystr := repeat 1632%N 10.

Definition ann : record :=
  mkRecord (py "Ann") [py "0931112233"; py "0501234567"]
           (Some (py "ann@example.com")) (Some (py "12 Main St"))
           (Some (mkDate 1990 11 7)).

Definition bob : record :=
  mkRecord (py "Bob") [py "0670000000"] None None (Some (mkDate 1985 11 8)).

(** Born on a leap day. *)
Definition leapling : record :=
  mkRecord (py "Leap") [] None None (Some (mkDate 2000 2 29)).

Definition sample_world : world :=
  mkWorld [bob; ann] [(py "Bob", 0%nat); (py "Ann", 1%nat)].

Definition zoe : record :=
  mkRecord (py "Zoe") [] None None (Some (mkDate 2001 11 7)).

Definition birthday_world : world :=
  mkWorld [zoe; bob; ann]
          [(py "Zoe", 0%nat); (py "Bob", 1%nat); (py "Ann", 2%nat)].

Definition leap_world : world :=
  mkWorld [bob; leapling] [(py "Bob", 0%nat); (py "Leap", 1%nat)].

(* ===================================================================== *)
(** ** Vocabulary of the properties *)
(* ===================================================================== *)

(** The ASCII digits '0' to '9'. *)
Definition ascii_digit (c : codepoint) : Prop := (48 <= c <= 57)%N.

(** The character of a digit from 0 to 9. *)
Definition digit_char (k : Z) : codepoint := (48 + Z.to_N k)%N.

(** The state of a run of the program: every reference of the book
    leads to a record, which is the record of that name, and a name is
    a key once. *)
Record book_ok (w : world) : Prop := mkBookOk {
  ok_refs : forall k l, (k, l) ∈ data w ->
            exists r, heap w !! l = Some r /\ name r = k;
  ok_keys : NoDup (List.map fst (data w))
}.

(** The records behind the references of a dictionary. *)
Definition records_of (w : world) (d : list (pystr * loc))
  : list (loc * record) :=
  omap (fun kl => match heap w !! snd kl with
                  | Some r => Some (snd kl, r)
                  | None => None
                  end) d.

(** A record matches a lowered query when one of its fields does. *)
Definition record_matches {R : PyRuntime} (query_lower : pystr) (r : record) : bool :=
  contains query_lower (lower (name r))
  || existsb (contains query_lower) (phones r)
  || match email r with
     | Some e => contains query_lower (lower e)
     | None => false
     end
  || match address r with
     | Some a => contains query_lower (lower a)
     | None => false
     end
  || match birthday r with
     | Some b => contains query_lower (strftime b)
     | None => false
     end.

(** The records of the program: every phone passed the validation of
    [Phone], the email is a value that [Email] produced, the address
    passed the validation of [Address], the birthday is a date of the
    calendar. Any number of phones, duplicates included, and any
    combination of present and absent optional fields is allowed. *)
Record record_ok {R : PyRuntime} (r : record) : Prop := mkRecordOk {
  ok_phones : Forall (fun p => Phone.validate p = true) (phones r);
  ok_email : forall e, email r = Some e ->
             exists raw, Email.init raw = Returned e;
  ok_address : forall a, address r = Some a -> Address.validate a = true;
  ok_birthday : forall b, birthday r = Some b -> valid_date b
}.

(** The order of the result: by name, on code points. *)
Definition name_le (a b : entry) : Prop := str_le (entry_name a) (entry_name b).

(** [occ] is the occurrence of the month and day of [bday] in the year
    of [today] when that date is not before [today], and in the next
    year when it is. *)
Definition next_occurrence (today bday occ : date) : Prop :=
  month occ = month bday /\ day occ = day bday /\ valid_date occ
  /\ ((year occ = year today /\ date_ltb occ today = false)
      \/ (year occ = year today + 1
          /\ date_ltb (mkDate (year today) (month bday) (day bday)) today
             = true)).

(** [d] is [occ] plus two days when [occ] is a Saturday, plus one day
    when it is a Sunday, a Monday in both cases, and [occ] itself on
    the other days. *)
Definition congratulation (occ d : date) : Prop :=
  (weekday occ = 5 /\ add_days occ 2 = Returned d
   /\ toordinal d = toordinal occ + 2 /\ weekday d = 0)
  \/ (weekday occ = 6 /\ add_days occ 1 = Returned d
      /\ toordinal d = toordinal occ + 1 /\ weekday d = 0)
  \/ (weekday occ <> 5 /\ weekday occ <> 6 /\ d = occ).

(** What an entry of the result says about a record of the book. *)
Definition entry_of (today : date) (days : Z) (r : record) (e : entry) : Prop :=
  exists bday occ d,
    birthday r = Some bday
    /\ next_occurrence today bday occ
    /\ add_days today days = Returned occ
    /\ toordinal occ = toordinal today + days
    /\ congratulation occ d
    /\ e = mkEntry (name r) (strftime d).

(** What [month_day] has to satisfy at one day of the year: a month, a
    day of that month, and as many days before it as asked. *)
Definition month_day_check (leap : bool) (n : Z) : bool :=
  let (m, d) := month_day leap n in
  (1 <=? m) && (m <=? 12) && (1 <=? d)
  && (d <=? nth (Z.to_nat (m - 1)) DAYS_IN_MONTH 0
            + (if (m =? 2) && leap then 1 else 0))
  && (nth (Z.to_nat (m - 1)) DAYS_BEFORE_MONTH 0
      + (if (2 <? m) && leap then 1 else 0) + d =? n + 1).

(** A word of a command line: not empty, no white space in it. *)
Definition token (s : pystr) : Prop :=
  s <> [] /\ Forall (fun c => char_isspace c = false) s.

(** The records of the book, in the order of the book. *)
Definition book_records (w : world) : list record :=
  List.map snd (records_of w (data w)).

(** The names of the book, in the order of the book. *)
Definition book_names (w : world) : list pystr := List.map fst (data w).

(** What a computation on a state of the program guarantees: from a
    state that satisfies [P], either it returns a value and a state
    that satisfy [Q], or it raises a Python exception and leaves a
    well-formed book. *)
Definition triple {A} (P : world -> Prop) (m : M world A)
  (Q : A -> world -> Prop) : Prop :=
  forall w, P w ->
    match m w with
    | (Returned a, w') => Q a w'
    | (Raised e, w') => e <> Dangling /\ book_ok w'
    end.

(** The reference [l] leads to the record of name [nm]. *)
Definition holds_name (w : world) (l : loc) (nm : pystr) : Prop :=
  exists r, heap w !! l = Some r /\ name r = nm.

(** A stored record whose phone is too short, as in a file edited by
    hand. *)
Definition bad_dict : portable :=
  mkPortable (Some (py "Eve")) (Some [py "12345"]) None None None.

(** The handlers of the command table that are modelled here. *)
Definition modelled_handlers {R : PyRuntime}
  : list (list pystr -> M world pystr) :=
  [ add_contact; change_contact; delete_contact; add_birthday;
    change_birthday; show_birthday; add_email; change_email;
    add_address; change_address ].

(** Proof tactics: a goal [Forall P [v1; ...; vn]] one value at a time,
    and the evaluation of a zero-padded number. *)
Ltac each_case tac :=
  cbn [seq List.map];
  repeat (apply Forall_cons; split; [tac | ]);
  constructor.

Ltac eval_zero_pad :=
  repeat match goal with
  | |- context [zero_pad ?w (Z.of_nat ?n)] =>
      let v := eval vm_compute in (zero_pad w (Z.of_nat n)) in
      change (zero_pad w (Z.of_nat n)) with v
  end.

(* ===================================================================== *)
(** ** Properties: phones *)
(* ===================================================================== *)

Lemma in_range_spec c lo hi :
  in_range c (lo, hi) = true <-> (lo <= c <= hi)%N.
Proof.
  unfold in_range; cbn [fst snd].
  rewrite andb_true_iff, !N.leb_le. tauto.
Qed.

(** Below 128 the digits of [str.isdigit] are exactly '0' to '9'. *)
Lemma char_isdigit_ascii (c : codepoint) :
  (c < 128)%N -> (char_isdigit c = true <-> ascii_digit c).
Proof.
  intros Hc. unfold ascii_digit. split.
  - unfold char_isdigit, in_ranges. intros H.
    apply orb_true_iff in H. destruct H as [H | H];
      apply existsb_exists in H; destruct H as [[lo hi] [Hin H]];
      apply in_range_spec in H;
      cbn in Hin; repeat (destruct Hin as [Hin | Hin];
        [inversion Hin; subst; lia | ]); try contradiction.
  - intros H. unfold char_isdigit, in_ranges, decimal_ranges.
    cbn [existsb]. replace (in_range c (48%N, 57%N)) with true; [reflexivity | ].
    symmetry. apply in_range_spec. exact H.
Qed.

Lemma phone_init_validate (s : pystr) :
  Phone.init s =
  if Phone.validate s then Returned s
  else Raised (ValueError
    (py "Phone number must contain 10 digits. Use format like 0931112233.")).
Proof. unfold Phone.init. destruct (Phone.validate s); reflexivity. Qed.

Lemma phone_validate_spec (s : pystr) :
  Phone.validate s = true
  <-> length s = 10%nat /\ Forall (fun c => char_isdigit c = true) s.
Proof.
  unfold Phone.validate, isdigit. rewrite andb_true_iff, Nat.eqb_eq.
  split.
  - intros [Hd Hl]. split; [exact Hl | ].
    destruct s as [ | c s']; [discriminate | ].
    apply Forall_forall. intros x Hx.
    apply (proj1 (forallb_forall _ _) Hd). apply list_elem_of_In. exact Hx.
  - intros [Hl Hd]. split; [ | exact Hl].
    destruct s as [ | c s']; [discriminate | ].
    apply forallb_forall. intros x Hx.
    apply (proj1 (Forall_forall _ _) Hd). apply list_elem_of_In. exact Hx.
Qed.

(** C4, as stated, fails: a string of ten Arabic-Indic digits has the
    right length and no ASCII digit, and [Phone] accepts it. *)
Lemma phone_accepts_non_ascii_digits :
  Phone.init arabic_zeros = Returned arabic_zeros
  /\ length arabic_zeros = 10%nat
  /\ Forall (fun c => ~ ascii_digit c) arabic_zeros
  /\ ~ (forall s, (exists p, Phone.init s = Returned p)
                  <-> (length s = 10%nat /\ Forall ascii_digit s)).
Proof.
  assert (Hno : Forall (fun c => ~ ascii_digit c) arabic_zeros).
  { unfold arabic_zeros, ascii_digit. cbn [repeat].
    repeat constructor; lia. }
  split; [reflexivity | ]. split; [reflexivity | ]. split; [exact Hno | ].
  intros H. destruct (proj1 (H arabic_zeros)) as [_ Hall].
  - exists arabic_zeros. reflexivity.
  - inversion Hall as [ | c l Hc _ ]; subst.
    inversion Hno as [ | c' l' Hc' _ ]; subst. exact (Hc' Hc).
Qed.

(** C4, amended: [Phone(s)] succeeds, keeping [s] as the value, exactly
    when [s] has ten characters that are all digits in the sense of
    [str.isdigit] (Unicode digits; among the characters below 128,
    exactly '0' to '9'); every other string is refused with the
    [ValueError] of the validation. *)
Theorem phone_init_iff_ten_unicode_digits (s : pystr) :
  (Phone.init s = Returned s
   <-> length s = 10%nat /\ Forall (fun c => char_isdigit c = true) s)
  /\ (Phone.init s = Raised (ValueError
        (py "Phone number must contain 10 digits. Use format like 0931112233."))
      <-> ~ (length s = 10%nat /\ Forall (fun c => char_isdigit c = true) s))
  /\ Forall (fun c => (c < 128)%N -> (char_isdigit c = true <-> ascii_digit c)) s.
Proof.
  rewrite phone_init_validate, <- phone_validate_spec.
  split; [ | split].
  - destruct (Phone.validate s); split; intros H; congruence.
  - destruct (Phone.validate s); split; intros H;
      try congruence; try discriminate.
  - apply Forall_forall. intros c _. apply char_isdigit_ascii.
Qed.

Lemma find_index_None (p : pystr) (ps : list pystr) :
  Rec.find_index p ps = None <-> p ∉ ps.
Proof.
  induction ps as [ | q ps IH]; cbn.
  - split; [intros _; apply not_elem_of_nil | reflexivity].
  - rewrite not_elem_of_cons. case_bool_decide as Hq.
    + split; [discriminate | intros [Hne _]; congruence].
    + destruct (Rec.find_index p ps) as [i | ]; cbn.
      * split; [discriminate | ]. intros [_ Hn]. apply IH in Hn. discriminate.
      * split; [ | reflexivity]. intros _. split; [congruence | ].
        apply IH. reflexivity.
Qed.

Lemma find_index_Some (p : pystr) (ps : list pystr) (i : nat) :
  Rec.find_index p ps = Some i ->
  ps !! i = Some p /\ forall j, (j < i)%nat -> ps !! j <> Some p.
Proof.
  revert i. induction ps as [ | q ps IH]; cbn; intros i H; [discriminate | ].
  case_bool_decide as Hq.
  - inversion H; subst. split; [reflexivity | ]. intros j Hj. lia.
  - destruct (Rec.find_index p ps) as [k | ]; cbn in H; [ | discriminate].
    inversion H; subst. destruct (IH k eq_refl) as [Hk Hlt].
    split; [exact Hk | ]. intros [ | j] Hj; cbn.
    + congruence.
    + apply Hlt. lia.
Qed.

(** C6: [edit_phone] falls in one of three cases. No phone is
    [old_phone]: the not-found [ValueError], record unchanged.
    [old_phone] is there and [new_phone] is not valid: the invalid-phone
    [ValueError], record unchanged. Otherwise the first phone equal to
    [old_phone] is replaced where it stands: same length, the new value
    at that position, every other position and every other attribute
    as before. *)
Theorem edit_phone_cases (r : record) (old_phone new_phone : pystr) :
  ((old_phone ∉ phones r)
   /\ Rec.edit_phone old_phone new_phone r =
      (Raised (ValueError (py "Phone number " ++ old_phone ++ py " not found")),
       r))
  \/ ((old_phone ∈ phones r) /\ Phone.validate new_phone = false
      /\ Rec.edit_phone old_phone new_phone r =
         (Raised (ValueError (py
           "New phone number must contain 10 digits. Use format like 0931112233.")),
          r))
  \/ (exists (i : nat) (r' : record),
        phones r !! i = Some old_phone
        /\ (forall j, (j < i)%nat -> phones r !! j <> Some old_phone)
        /\ Phone.validate new_phone = true
        /\ Rec.edit_phone old_phone new_phone r = (Returned tt, r')
        /\ name r' = name r /\ email r' = email r
        /\ address r' = address r /\ birthday r' = birthday r
        /\ length (phones r') = length (phones r)
        /\ phones r' !! i = Some new_phone
        /\ (forall j, j <> i -> phones r' !! j = phones r !! j)).
Proof.
  unfold Rec.edit_phone, Rec.find_phone, bind, get, ret, raise, put, lift.
  destruct (Rec.find_index old_phone (phones r)) as [i | ] eqn:Hfind.
  - destruct (find_index_Some _ _ _ Hfind) as [Hi Hfirst].
    destruct (Phone.validate new_phone) eqn:Hv; cbn [negb].
    + right. right.
      exists i, (set_phones (<[i := new_phone]> (phones r)) r).
      rewrite phone_init_validate, Hv. cbn.
      repeat split; try assumption.
      * apply length_insert.
      * apply list_lookup_insert_eq. eapply lookup_lt_Some. exact Hi.
      * intros j Hj. apply list_lookup_insert_ne. congruence.
    + right. left. split; [ | split; reflexivity].
      eapply list_elem_of_lookup_2. exact Hi.
  - left. split; [ | reflexivity]. apply find_index_None. exact Hfind.
Qed.

(* ===================================================================== *)
(** ** Properties: the dictionary of the book *)
(* ===================================================================== *)

Lemma dict_get_set_eq (k : pystr) (v : loc) (d : list (pystr * loc)) :
  dict_get k (dict_set k v d) = Some v.
Proof.
  induction d as [ | [k' v'] d IH]; cbn.
  - rewrite bool_decide_eq_true_2; reflexivity.
  - case_bool_decide as Hk; cbn.
    + rewrite bool_decide_eq_true_2; [reflexivity | exact Hk].
    + rewrite bool_decide_eq_false_2; [exact IH | exact Hk].
Qed.

Lemma dict_get_set_ne (k k0 : pystr) (v : loc) (d : list (pystr * loc)) :
  k0 <> k -> dict_get k0 (dict_set k v d) = dict_get k0 d.
Proof.
  intros Hne. induction d as [ | [k' v'] d IH]; cbn.
  - rewrite bool_decide_eq_false_2; [reflexivity | congruence].
  - case_bool_decide as Hk; cbn.
    + subst k'. rewrite !bool_decide_eq_false_2 by congruence. reflexivity.
    + rewrite IH. reflexivity.
Qed.

Lemma dict_get_elem (k : pystr) (l : loc) (d : list (pystr * loc)) :
  dict_get k d = Some l -> (k, l) ∈ d.
Proof.
  induction d as [ | [k' v'] d IH]; cbn; [discriminate | ].
  case_bool_decide as Hk.
  - intros H. inversion H; subst. apply list_elem_of_here.
  - intros H. apply list_elem_of_further, IH, H.
Qed.

(* ===================================================================== *)
(** ** Properties: record construction and the key of a record *)
(* ===================================================================== *)

(** C8, as stated, fails: [Record] accepts the empty name and a name of
    white space only, and the book then holds the record under the
    empty key. *)
Lemma record_accepts_empty_name :
  Rec.init [] = Returned (mkRecord [] [] None None None)
  /\ Rec.init (py " ") = Returned (mkRecord (py " ") [] None None None)
  /\ (exists w,
        (let! rcd := new_record [] in AddressBook.add_record rcd)%py
          (mkWorld [] []) = (Returned tt, w)
        /\ data w = [([], 0%nat)])
  /\ ~ (forall nm, strip nm = [] -> exists e, Rec.init nm = Raised e).
Proof.
  split; [reflexivity | ]. split; [reflexivity | ]. split.
  - eexists. split; reflexivity.
  - intros H. destruct (H [] eq_refl) as [e He]. discriminate He.
Qed.

(** C8, amended: [Record(name)] succeeds for every string, the empty
    one included, and keeps it unchanged as the name of a record with no
    other field set ([Name] validates nothing); a record added to the
    book is keyed by exactly that name, so [find] of the name returns
    the new record. *)
Theorem record_init_keeps_any_name (nm : pystr) (w : world) :
  Rec.init nm = Returned (mkRecord nm [] None None None)
  /\ (let! rcd := new_record nm in
      AddressBook.add_record rcd ;;
      AddressBook.find nm)%py w
     = (Returned (Some (length (heap w))),
        mkWorld (heap w ++ [mkRecord nm [] None None None])
                (dict_set nm (length (heap w)) (data w))).
Proof.
  split; [reflexivity | ].
  unfold new_record, AddressBook.add_record, AddressBook.find, alloc, deref,
    bind, lift, get, ret. cbn.
  rewrite lookup_app_r by lia. rewrite Nat.sub_diag. cbn.
  rewrite dict_get_set_eq. reflexivity.
Qed.

(* ===================================================================== *)
(** ** Properties: [add_contact] on a name the book already has *)
(* ===================================================================== *)

(** C10: when the book has a record under [nm] and [phone] is valid,
    [add_contact] answers "Contact updated."; the dictionary is
    unchanged, so the name still refers to the same record object, and
    in the store only that object changes: [phone] is appended to its
    phones, its other attributes are kept. *)
Theorem add_contact_existing_appends_phone
  {R : PyRuntime} (w : world) (nm phone : pystr) (rest : list pystr)
  (l : loc) (r : record) :
  dict_get nm (data w) = Some l ->
  heap w !! l = Some r ->
  Phone.validate phone = true ->
  add_contact (nm :: phone :: rest) w
  = (Returned (py "Contact updated."),
     mkWorld (<[l := mkRecord (name r) (phones r ++ [phone]) (email r)
                              (address r) (birthday r)]> (heap w))
             (data w)).
Proof.
  intros Hget Hl Hv.
  assert (Hne : exists c s, phone = c :: s).
  { destruct phone as [ | c s]; [discriminate Hv | eauto]. }
  destruct Hne as (c & s & ->).
  unfold add_contact, input_error, try_except, AddressBook.find, on_record,
    Rec.add_phone, bind, lift, get, ret, put.
  rewrite Hget, Hl, phone_init_validate, Hv. reflexivity.
Qed.

Lemma add_contact_existing_witness :
  add_contact (R := ascii_runtime) [py "Ann"; py "0990000001"] sample_world
  = (Returned (py "Contact updated."),
     mkWorld [bob;
              mkRecord (py "Ann")
                [py "0931112233"; py "0501234567"; py "0990000001"]
                (Some (py "ann@example.com")) (Some (py "12 Main St"))
                (Some (mkDate 1990 11 7))]
             [(py "Bob", 0%nat); (py "Ann", 1%nat)]).
Proof.
  exact (add_contact_existing_appends_phone (R := ascii_runtime)
           sample_world (py "Ann") (py "0990000001") [] 1%nat ann
           eq_refl eq_refl eq_refl).
Defined.

(* ===================================================================== *)
(** ** Properties: the birthday query, argument check and alias *)
(* ===================================================================== *)

(** C7: a negative number of days raises the [ValueError] of the
    argument check, whatever the book holds, and leaves the state as it
    was. *)
Theorem get_birthdays_negative_days (today : date) (days : Z) (w : world) :
  days < 0 ->
  AddressBook.get_birthdays_in_days today days w
  = (Raised (ValueError (py "Number of days cannot be negative.")), w).
Proof.
  intros Hneg. unfold AddressBook.get_birthdays_in_days.
  destruct (Z.ltb_spec days 0) as [_ | Hge]; [reflexivity | lia].
Qed.

Lemma get_birthdays_negative_days_witness :
  AddressBook.get_birthdays_in_days (mkDate 2026 11 3) (-1) sample_world
  = (Raised (ValueError (py "Number of days cannot be negative.")),
     sample_world).
Proof.
  apply (get_birthdays_negative_days (mkDate 2026 11 3) (-1) sample_world).
  lia.
Defined.

(** C9: [get_upcoming_birthdays] is [get_birthdays_in_days] at 7, on
    every state and whatever the current date. *)
Theorem get_upcoming_birthdays_is_seven_days (today : date) (w : world) :
  AddressBook.get_upcoming_birthdays today w
  = AddressBook.get_birthdays_in_days today 7 w.
Proof. unfold AddressBook.get_upcoming_birthdays. reflexivity. Qed.

(* ===================================================================== *)
(** ** Properties: well-formed states *)
(* ===================================================================== *)

Lemma book_ok_empty : book_ok (mkWorld [] []).
Proof.
  split; cbn.
  - intros k l H. inversion H.
  - constructor.
Qed.

Lemma sample_world_ok : book_ok sample_world.
Proof.
  split.
  - intros k l H. unfold sample_world in H. cbn in H.
    apply list_elem_of_In in H. cbn in H.
    destruct H as [H | [H | []]]; inversion H; subst; eexists;
      split; reflexivity.
  - cbn. repeat constructor; cbn; intros H;
      repeat (apply elem_of_cons in H; destruct H as [H | H];
              [discriminate H | ]); inversion H.
Qed.

(** No record object is under two keys. *)
Lemma book_ok_refs_NoDup (w : world) :
  book_ok w -> NoDup (List.map snd (data w)).
Proof.
  intros [Hrefs Hkeys]. revert Hrefs Hkeys.
  generalize (data w) as d. induction d as [ | [k l] d IH]; cbn; intros Hrefs Hkeys.
  - constructor.
  - apply NoDup_cons in Hkeys. destruct Hkeys as [Hk Hkeys].
    apply NoDup_cons. split.
    + intros Hl. apply list_elem_of_fmap in Hl.
      destruct Hl as ([k' l'] & Heq & Hin). cbn in Heq. subst l'.
      destruct (Hrefs k l) as (r & Hr & Hn); [apply list_elem_of_here | ].
      destruct (Hrefs k' l) as (r' & Hr' & Hn');
        [apply list_elem_of_further, Hin | ].
      rewrite Hr in Hr'. inversion Hr'; subst r'.
      apply Hk. apply list_elem_of_fmap. exists (k', l). split; [ | exact Hin].
      cbn. congruence.
    + apply IH; [ | exact Hkeys].
      intros k' l' Hin. apply Hrefs. apply list_elem_of_further, Hin.
Qed.

Lemma values_returns (w : world) (d : list (pystr * loc)) :
  (forall k l, (k, l) ∈ d -> is_Some (heap w !! l)) ->
  values d w = (Returned (records_of w d), w)
  /\ List.map fst (records_of w d) = List.map snd d.
Proof.
  induction d as [ | [k l] d IH]; intros Hrefs.
  - split; reflexivity.
  - destruct (Hrefs k l) as [r Hr]; [apply list_elem_of_here | ].
    destruct IH as [IHv IHm].
    { intros k' l' Hin. eapply Hrefs. apply list_elem_of_further, Hin. }
    unfold records_of in *. cbn. unfold bind, deref, ret.
    rewrite Hr. cbn. rewrite IHv. cbn. rewrite IHm. split; reflexivity.
Qed.

Lemma values_inv (w w' : world) (d : list (pystr * loc))
  (rs : list (loc * record)) :
  values d w = (Returned rs, w') ->
  w' = w
  /\ Forall (fun lr => heap w !! fst lr = Some (snd lr)
                       /\ exists k, (k, fst lr) ∈ d) rs.
Proof.
  revert rs. induction d as [ | [k l] d IH]; intros rs H; cbn in H.
  - unfold ret in H. inversion H; subst. split; [reflexivity | constructor].
  - unfold bind, deref, ret in H.
    destruct (heap w !! l) as [r | ] eqn:Hr; [ | discriminate H].
    destruct (values d w) as [[e | rs'] w1] eqn:Hv; [discriminate H | ].
    inversion H; subst. destruct (IH rs' eq_refl) as [-> Hall].
    split; [reflexivity | ]. constructor.
    + cbn. split; [exact Hr | ]. exists k. apply list_elem_of_here.
    + eapply Forall_impl; [exact Hall | ]. cbn.
      intros [l' r'] [H1 [k' H2]]. split; [exact H1 | ].
      exists k'. apply list_elem_of_further, H2.
Qed.

(* ===================================================================== *)
(** ** Properties: search *)
(* ===================================================================== *)

Section SearchProperties.
Context {R : PyRuntime}.

Lemma search_phones_spec (q : pystr) (l : loc) (ps : list pystr)
  (found : list loc) :
  AddressBook.search_phones q l ps found
  = if existsb (contains q) ps then (found ++ [l], true) else (found, false).
Proof.
  induction ps as [ | p ps IH]; cbn; [reflexivity | ].
  destruct (contains q p); cbn; [reflexivity | exact IH].
Qed.

(** One turn of the loop appends the record once or not at all. *)
Lemma search_step_spec (q : pystr) (found : list loc) (l : loc) (r : record) :
  AddressBook.search_step q found (l, r)
  = if record_matches q r then found ++ [l] else found.
Proof.
  unfold AddressBook.search_step, record_matches.
  destruct (contains q (lower (name r))); cbn; [reflexivity | ].
  rewrite search_phones_spec.
  destruct (existsb (contains q) (phones r)); cbn; [reflexivity | ].
  destruct (match email r with Some e => _ | None => _ end);
    cbn; [reflexivity | ].
  destruct (match address r with Some a => _ | None => _ end);
    cbn; reflexivity.
Qed.

Lemma search_loop_spec (q : pystr) (rs : list (loc * record))
  (found : list loc) :
  fold_left (AddressBook.search_step q) rs found
  = found ++ List.map fst
               (List.filter (fun lr => record_matches q (snd lr)) rs).
Proof.
  revert found.
  induction rs as [ | [l r] rs IH]; intros found;
    cbn [fold_left List.filter List.map snd].
  - rewrite app_nil_r. reflexivity.
  - rewrite IH, search_step_spec.
    destruct (record_matches q r); cbn [List.map fst]; [ | reflexivity].
    rewrite <- app_assoc. reflexivity.
Qed.

Lemma filter_fst_sublist (f : loc * record -> bool) (rs : list (loc * record)) :
  List.map fst (List.filter f rs) `sublist_of` List.map fst rs.
Proof.
  induction rs as [ | x rs IH]; cbn; [constructor | ].
  destruct (f x); cbn; [apply sublist_skip | apply sublist_cons]; exact IH.
Qed.

(** C5: on a state of the program, [search] returns and changes
    nothing; the records found are those of the book, in the order of
    the book, that match the query in at least one field (name, a
    phone, email, address or rendered birthday); so the result is a
    subsequence of the book's values, and a record is in it at most
    once, however many of its fields match. *)
Theorem search_once_in_book_order (w : world) (query : pystr) :
  book_ok w ->
  exists found : list loc,
    AddressBook.search query w = (Returned found, w)
    /\ found `sublist_of` List.map snd (data w)
    /\ NoDup found
    /\ (forall l, l ∈ found <->
          (l ∈ List.map snd (data w)
           /\ exists r, heap w !! l = Some r
                        /\ record_matches (lower query) r = true)).
Proof.
  intros Hok.
  destruct (values_returns w (data w)) as [Hv Hm].
  { intros k l Hin. destruct (ok_refs w Hok k l Hin) as (r & Hr & _).
    rewrite Hr. eexists. reflexivity. }
  set (hit := fun lr : loc * record => record_matches (lower query) (snd lr)).
  exists (List.map fst (List.filter hit (records_of w (data w)))).
  assert (Hsub : List.map fst (List.filter hit (records_of w (data w)))
                 `sublist_of` List.map snd (data w)).
  { rewrite <- Hm. apply filter_fst_sublist. }
  split; [ | split; [exact Hsub | split]].
  - unfold AddressBook.search, bind, get, ret. rewrite Hv.
    rewrite search_loop_spec. reflexivity.
  - eapply sublist_NoDup; [ | exact Hsub]. apply book_ok_refs_NoDup, Hok.
  - intros l. rewrite !list_elem_of_In, in_map_iff. split.
    + intros ([l' r] & Hl & Hin). cbn in Hl. subst l'.
      apply filter_In in Hin. destruct Hin as [Hin Hhit].
      split.
      * rewrite <- Hm. apply in_map_iff. exists (l, r). split; [reflexivity | exact Hin].
      * exists r. split; [ | exact Hhit].
        apply list_elem_of_In in Hin. unfold records_of in Hin.
        apply list_elem_of_omap in Hin. destruct Hin as ([k l0] & _ & Heq).
        cbn in Heq. destruct (heap w !! l0) eqn:E; inversion Heq; subst.
        exact E.
    + intros [Hl (r & Hr & Hhit)].
      exists (l, r). split; [reflexivity | ].
      apply filter_In. split; [ | exact Hhit].
      apply in_map_iff in Hl. destruct Hl as ([k l0] & Heq & Hin).
      cbn in Heq. subst l0.
      apply list_elem_of_In. unfold records_of. apply list_elem_of_omap.
      exists (k, l). split; [apply list_elem_of_In, Hin | ].
      cbn. rewrite Hr. reflexivity.
Qed.
End SearchProperties.

(** A query that matches both records of the sample book, one of them
    in three fields. *)
Lemma search_once_in_book_order_witness :
  exists found : list loc,
    AddressBook.search (R := ascii_runtime) (py "0") sample_world
    = (Returned found, sample_world)
    /\ found `sublist_of` [0%nat; 1%nat]
    /\ NoDup found
    /\ (forall l, l ∈ found <->
          (l ∈ [0%nat; 1%nat]
           /\ exists r, heap sample_world !! l = Some r
                /\ record_matches (R := ascii_runtime)
                     (lower (PyRuntime := ascii_runtime) (py "0")) r = true)).
Proof.
  exact (search_once_in_book_order (R := ascii_runtime)
           sample_world (py "0") sample_world_ok).
Defined.

(* ===================================================================== *)
(** ** Properties: a rendered date parses back *)
(* ===================================================================== *)

(** A property of the integers from [lo] to [lo + n - 1], checked one
    value at a time. *)
Lemma small_Z_cases (P : Z -> Prop) (lo n : nat) :
  Forall P (List.map Z.of_nat (seq lo n)) ->
  forall d, Z.of_nat lo <= d < Z.of_nat (lo + n) -> P d.
Proof.
  intros H d Hd. rewrite Forall_forall in H. apply H.
  apply list_elem_of_In, in_map_iff. exists (Z.to_nat d).
  split; [lia | ]. apply in_seq. lia.
Qed.

Lemma digit_char_facts (k : Z) :
  0 <= k < 10 ->
  char_isdecimal (digit_char k) = true
  /\ decimal_value (digit_char k) = Some k
  /\ char_isspace (digit_char k) = false.
Proof.
  intros Hk. pattern k. apply (small_Z_cases _ 0 10); [ | lia].
  each_case ltac:(vm_compute; repeat split; reflexivity).
Qed.

Lemma zero_pad_4 (y : Z) :
  zero_pad 4 y =
  [digit_char (y / 10 / 10 / 10 mod 10); digit_char (y / 10 / 10 mod 10);
   digit_char (y / 10 mod 10); digit_char (y mod 10)].
Proof. reflexivity. Qed.

Lemma match_directive_d (d : Z) :
  1 <= d <= 31 ->
  forall items' t toks rest,
    match_items items' t = Some (toks, rest) ->
    match_items (directive_d :: Lit 46%N :: items') (zero_pad 2 d ++ 46%N :: t)
    = Some (zero_pad 2 d :: toks, rest).
Proof.
  intros Hd. pattern d. apply (small_Z_cases _ 1 31); [ | lia]. clear d Hd.
  each_case ltac:(intros items' t toks rest H; eval_zero_pad;
                  cbn; rewrite H; reflexivity).
Qed.

Lemma match_directive_m (m : Z) :
  1 <= m <= 12 ->
  forall items' t toks rest,
    match_items items' t = Some (toks, rest) ->
    match_items (directive_m :: Lit 46%N :: items') (zero_pad 2 m ++ 46%N :: t)
    = Some (zero_pad 2 m :: toks, rest).
Proof.
  intros Hm. pattern m. apply (small_Z_cases _ 1 12); [ | lia]. clear m Hm.
  each_case ltac:(intros items' t toks rest H; eval_zero_pad;
                  cbn; rewrite H; reflexivity).
Qed.

Lemma match_directive_Y (y : Z) :
  match_items [directive_Y] (zero_pad 4 y) = Some ([zero_pad 4 y], []).
Proof.
  rewrite zero_pad_4.
  assert (H : forall k, char_isdecimal (digit_char (k mod 10)) = true).
  { intros k. apply digit_char_facts. apply Z.mod_pos_bound. lia. }
  unfold directive_Y. cbn [match_items first_alt match_classes].
  rewrite !H. reflexivity.
Qed.

Lemma py_int_two_digits (d : Z) :
  1 <= d <= 31 -> py_int (zero_pad 2 d) = Some d.
Proof.
  intros Hd. pattern d. apply (small_Z_cases _ 1 31); [ | lia].
  each_case ltac:(vm_compute; reflexivity).
Qed.

Lemma py_int_year (y : Z) :
  0 <= y <= 9999 -> py_int (zero_pad 4 y) = Some y.
Proof.
  intros Hy. rewrite zero_pad_4. unfold py_int, strip, rstrip.
  assert (Hs : forall k, char_isspace (digit_char (k mod 10)) = false).
  { intros k. apply digit_char_facts. apply Z.mod_pos_bound. lia. }
  assert (Hv : forall k, decimal_value (digit_char (k mod 10)) = Some (k mod 10)).
  { intros k. apply digit_char_facts. apply Z.mod_pos_bound. lia. }
  cbn [lstrip]. rewrite Hs. cbn [rev app lstrip]. rewrite Hs.
  cbn [rev app fold_left]. rewrite !Hv. f_equal.
  Z.to_euclidean_division_equations. lia.
Qed.

Lemma new_date_valid (d : date) :
  valid_date d -> new_date (year d) (month d) (day d) = Returned d.
Proof.
  intros (Hy & Hm & Hd). unfold new_date, MINYEAR, MAXYEAR in *.
  rewrite (proj2 (Z.leb_le 1 (year d))) by lia.
  rewrite (proj2 (Z.leb_le (year d) 9999)) by lia.
  rewrite (proj2 (Z.leb_le 1 (month d))) by lia.
  rewrite (proj2 (Z.leb_le (month d) 12)) by lia.
  rewrite (proj2 (Z.leb_le 1 (day d))) by lia.
  rewrite (proj2 (Z.leb_le (day d) _)) by lia.
  destruct d; reflexivity.
Qed.

Lemma days_in_month_le_31 (y m : Z) : days_in_month y m <= 31.
Proof.
  unfold days_in_month. destruct ((m =? 2) && is_leap y); [lia | ].
  generalize (Z.to_nat (m - 1)). intros n.
  do 12 (destruct n as [ | n]; [cbn; lia | ]).
  destruct n; cbn; lia.
Qed.

Lemma new_date_inv (y m d : Z) (x : date) :
  new_date y m d = Returned x -> x = mkDate y m d /\ valid_date x.
Proof.
  unfold new_date, valid_date.
  destruct ((MINYEAR <=? y) && (y <=? MAXYEAR)) eqn:Ey; [ | discriminate].
  destruct ((1 <=? m) && (m <=? 12)) eqn:Em; [ | discriminate].
  destruct ((1 <=? d) && (d <=? days_in_month y m)) eqn:Ed; [ | discriminate].
  cbn. intros H. inversion H; subst. cbn.
  apply andb_true_iff in Ey, Em, Ed. rewrite !Z.leb_le in *.
  split; [reflexivity | lia].
Qed.

Section DateRoundTrip.
Context {R : PyRuntime}.

Lemma strptime_strftime (d : date) :
  valid_date d -> strptime (strftime d) = Returned d.
Proof.
  intros Hv. pose proof Hv as (Hy & Hm & Hd).
  pose proof (days_in_month_le_31 (year d) (month d)) as H31.
  unfold MINYEAR, MAXYEAR in *.
  unfold strptime, strftime, format_dmY.
  change (py ".") with [46%N]. cbn [app].
  rewrite (match_directive_d (day d) ltac:(lia) _ _
             [zero_pad 2 (month d); zero_pad 4 (year d)] []).
  - rewrite !py_int_two_digits, py_int_year by lia.
    apply new_date_valid, Hv.
  - apply (match_directive_m (month d) ltac:(lia) _ _ [zero_pad 4 (year d)] []).
    apply match_directive_Y.
Qed.

Lemma birthday_init_strftime (d : date) :
  valid_date d -> Birthday.init (strftime d) = Returned d.
Proof.
  intros Hv. unfold Birthday.init. rewrite strptime_strftime by exact Hv.
  reflexivity.
Qed.

Lemma birthday_init_valid (s : pystr) (d : date) :
  Birthday.init s = Returned d -> valid_date d.
Proof.
  unfold Birthday.init, strptime.
  destruct (match_items format_dmY s) as [[toks rest] | ]; [ | discriminate].
  destruct rest; [ | discriminate].
  destruct toks as [ | a [ | b [ | c [ | ? ?]]]]; try discriminate.
  destruct (py_int a), (py_int b), (py_int c); try discriminate.
  destruct (new_date _ _ _) as [[] | x] eqn:E; try discriminate.
  intros H. inversion H; subst. apply new_date_inv in E. apply E.
Qed.
End DateRoundTrip.

(* ===================================================================== *)
(** ** Properties: [strip] *)
(* ===================================================================== *)

Local Arguments char_isspace : simpl never.

Lemma lstrip_head (s : pystr) :
  lstrip s = [] \/ exists c t, lstrip s = c :: t /\ char_isspace c = false.
Proof.
  induction s as [ | c s IH]; cbn; [left; reflexivity | ].
  destruct (char_isspace c) eqn:E; [exact IH | ].
  right. exists c, s. split; [reflexivity | exact E].
Qed.

Lemma lstrip_nonspace (c : codepoint) (t : pystr) :
  char_isspace c = false -> lstrip (c :: t) = c :: t.
Proof. intros H. cbn. rewrite H. reflexivity. Qed.

Lemma lstrip_idemp (s : pystr) : lstrip (lstrip s) = lstrip s.
Proof.
  destruct (lstrip_head s) as [-> | (c & t & -> & Hc)]; [reflexivity | ].
  apply lstrip_nonspace, Hc.
Qed.

(** Stripping on the left keeps a last character that is not a space. *)
Lemma lstrip_snoc_nonspace (l : pystr) (c : codepoint) :
  char_isspace c = false -> exists u, lstrip (l ++ [c]) = u ++ [c].
Proof.
  intros Hc. induction l as [ | x l IH]; cbn.
  - rewrite Hc. exists []. reflexivity.
  - destruct (char_isspace x); [exact IH | ].
    exists (x :: l). reflexivity.
Qed.

Lemma rstrip_keeps_head (c : codepoint) (t : pystr) :
  char_isspace c = false -> exists u, rstrip (c :: t) = c :: u.
Proof.
  intros Hc. unfold rstrip. cbn [rev].
  destruct (lstrip_snoc_nonspace (rev t) c Hc) as [u ->].
  exists (rev u). rewrite rev_app_distr. reflexivity.
Qed.

Lemma strip_idemp (s : pystr) : strip (strip s) = strip s.
Proof.
  unfold strip.
  assert (Hl : lstrip (rstrip (lstrip s)) = rstrip (lstrip s)).
  { destruct (lstrip_head s) as [-> | (c & t & -> & Hc)]; [reflexivity | ].
    destruct (rstrip_keeps_head c t Hc) as [u ->].
    apply lstrip_nonspace, Hc. }
  rewrite Hl. unfold rstrip. rewrite rev_involutive, lstrip_idemp.
  reflexivity.
Qed.

Lemma char_isspace_bounds (c : codepoint) :
  char_isspace c = true -> (c <= 32 \/ 133 <= c)%N.
Proof.
  unfold char_isspace, in_ranges. intros H.
  apply existsb_exists in H. destruct H as [[lo hi] [Hin H]].
  apply in_range_spec in H. cbn in Hin.
  repeat (destruct Hin as [Hin | Hin]; [inversion Hin; subst; lia | ]).
  contradiction.
Qed.

Lemma ascii_lower_char_space (c : codepoint) :
  char_isspace (ascii_lower_char c) = char_isspace c.
Proof.
  unfold ascii_lower_char.
  destruct ((65 <=? c)%N && (c <=? 90)%N) eqn:E; [ | reflexivity].
  apply andb_true_iff in E. rewrite !N.leb_le in E.
  destruct (char_isspace (c + 32)%N) eqn:E1.
  - apply char_isspace_bounds in E1. lia.
  - destruct (char_isspace c) eqn:E2; [ | reflexivity].
    apply char_isspace_bounds in E2. lia.
Qed.

Lemma lstrip_map_ascii_lower (s : pystr) :
  lstrip (List.map ascii_lower_char s) = List.map ascii_lower_char (lstrip s).
Proof.
  induction s as [ | c s IH]; cbn; [reflexivity | ].
  rewrite ascii_lower_char_space. destruct (char_isspace c); [exact IH | ].
  reflexivity.
Qed.

(** The ASCII runtime satisfies the two laws. *)
Lemma ascii_runtime_laws : PyRuntimeLaws ascii_runtime.
Proof.
  split; cbn.
  - intros s. rewrite List.map_map. apply List.map_ext. intros c.
    unfold ascii_lower_char.
    destruct ((65 <=? c)%N && (c <=? 90)%N) eqn:E; [ | rewrite E; reflexivity].
    apply andb_true_iff in E. rewrite !N.leb_le in E.
    replace ((65 <=? c + 32)%N && (c + 32 <=? 90)%N) with false; [reflexivity | ].
    symmetry. apply andb_false_iff. right. apply N.leb_gt. lia.
  - intros s. unfold strip, rstrip.
    rewrite lstrip_map_ascii_lower, <- List.map_rev, lstrip_map_ascii_lower,
      List.map_rev. reflexivity.
Qed.

(* ===================================================================== *)
(** ** Properties: the portable form of a record *)
(* ===================================================================== *)

Section RoundTrip.
Context {R : PyRuntime}.

Lemma add_phones_valid (ps : list pystr) (r : record) :
  Forall (fun p => Phone.validate p = true) ps ->
  for_each ps Rec.add_phone r = (Returned tt, set_phones (phones r ++ ps) r).
Proof.
  intros H. revert r. induction H as [ | p ps Hp _ IH]; intros r; cbn.
  - unfold ret. rewrite app_nil_r. destruct r; reflexivity.
  - unfold bind at 1. unfold Rec.add_phone, bind, lift, get, put.
    rewrite phone_init_validate, Hp. rewrite IH. cbn.
    rewrite <- app_assoc. reflexivity.
Qed.

Lemma address_truthy (a : pystr) :
  Address.validate a = true -> truthy (Some a) = Some a.
Proof. destruct a; [discriminate | reflexivity]. Qed.

Lemma address_init_valid (a : pystr) :
  Address.validate a = true -> Address.init a = Returned a.
Proof. intros H. unfold Address.init. rewrite H. reflexivity. Qed.

Lemma strftime_truthy (d : date) : truthy (Some (strftime d)) = Some (strftime d).
Proof.
  unfold strftime. cbn [zero_pad].
  destruct (zero_pad 0 (day d / 10 / 10)); reflexivity.
Qed.

Lemma email_validate_nonempty (e : pystr) :
  Email.validate e = true -> truthy (Some e) = Some e.
Proof. destruct e; [discriminate | reflexivity]. Qed.

Context {L : PyRuntimeLaws R}.

(** A value that [Email] produced is accepted again, unchanged. *)
Lemma email_init_stable (raw e : pystr) :
  Email.init raw = Returned e ->
  Email.init e = Returned e /\ Email.validate e = true.
Proof.
  unfold Email.init.
  destruct (Email.validate (lower (strip raw))) eqn:Hv; [ | discriminate].
  cbn [negb]. intros H. injection H as <-.
  rewrite (lower_strip (strip raw)), strip_idemp, lower_idemp, Hv.
  split; reflexivity.
Qed.

End RoundTrip.

Lemma ann_ok : record_ok (R := ascii_runtime) ann.
Proof.
  split; cbn.
  - repeat constructor.
  - intros e H. inversion H; subst. exists (py " Ann@Example.COM ").
    reflexivity.
  - intros a H. inversion H; subst. reflexivity.
  - intros b H. inversion H; subst.
    repeat split; apply Z.leb_le; reflexivity.
Qed.


(* ===================================================================== *)
(** ** Properties: order on strings and the sort of the result *)
(* ===================================================================== *)

Lemma str_ltb_irrefl (a : pystr) : str_ltb a a = false.
Proof.
  induction a as [ | x a IH]; cbn; [reflexivity | ].
  rewrite N.ltb_irrefl, N.eqb_refl, IH. reflexivity.
Qed.

Lemma str_ltb_asym (a b : pystr) : str_ltb a b = true -> str_ltb b a = false.
Proof.
  revert b. induction a as [ | x a IH]; intros [ | y b]; cbn;
    try reflexivity; try discriminate.
  intros H. apply orb_true_iff in H. apply orb_false_iff.
  destruct H as [H | H].
  - apply N.ltb_lt in H. split; [apply N.ltb_ge; lia | ].
    apply andb_false_iff. left. apply N.eqb_neq. lia.
  - apply andb_true_iff in H. destruct H as [He Hl].
    apply N.eqb_eq in He. subst y. split; [apply N.ltb_irrefl | ].
    apply andb_false_iff. right. apply IH, Hl.
Qed.

Lemma str_le_trans (a b c : pystr) : str_le a b -> str_le b c -> str_le a c.
Proof.
  unfold str_le. revert b c.
  induction a as [ | x a IH]; intros [ | y b] [ | z c]; cbn;
    try reflexivity; try discriminate.
  intros Hba Hcb.
  apply orb_false_iff in Hba, Hcb. apply orb_false_iff.
  destruct Hba as [Hyx Hba], Hcb as [Hzy Hcb].
  apply N.ltb_ge in Hyx, Hzy. split; [apply N.ltb_ge; lia | ].
  destruct (N.eqb_spec z x) as [-> | Hne]; [ | reflexivity]. cbn.
  assert (y = x) by lia. subst y.
  rewrite N.eqb_refl in Hba, Hcb. cbn in Hba, Hcb.
  eapply IH; eassumption.
Qed.

Lemma insert_by_name_Forall (P : entry -> Prop) (x : entry) (l : list entry) :
  P x -> Forall P l -> Forall P (insert_by_name x l).
Proof.
  intros Hx Hl. induction Hl as [ | y l Hy Hl IH]; cbn.
  - repeat constructor. exact Hx.
  - destruct (str_ltb (entry_name x) (entry_name y)).
    + repeat constructor; assumption.
    + constructor; assumption.
Qed.

Lemma insert_by_name_Sorted (x : entry) (l : list entry) :
  Sorted name_le l -> Sorted name_le (insert_by_name x l).
Proof.
  intros Hl. induction Hl as [ | y l Hl IH Hhd]; cbn.
  - repeat constructor.
  - destruct (str_ltb (entry_name x) (entry_name y)) eqn:E.
    + constructor; [constructor; assumption | ].
      constructor. apply str_ltb_asym, E.
    + constructor; [exact IH | ].
      destruct Hhd as [ | z l Hz]; cbn.
      * constructor. exact E.
      * destruct (str_ltb (entry_name x) (entry_name z));
          constructor; [exact E | exact Hz].
Qed.

Lemma sort_by_name_spec (P : entry -> Prop) (l : list entry) :
  Forall P l ->
  Forall P (sort_by_name l) /\ StronglySorted name_le (sort_by_name l).
Proof.
  intros Hl. unfold sort_by_name.
  assert (H : forall acc, Forall P acc -> Sorted name_le acc ->
            Forall P (fold_left (fun acc x => insert_by_name x acc) l acc)
            /\ Sorted name_le (fold_left (fun acc x => insert_by_name x acc) l acc)).
  { induction Hl as [ | x l Hx Hl IH]; intros acc Ha Hs; cbn.
    - split; assumption.
    - apply IH; [apply insert_by_name_Forall | apply insert_by_name_Sorted];
        assumption. }
  destruct (H [] ltac:(constructor) ltac:(constructor)) as [HP HS].
  split; [exact HP | ].
  apply Sorted_StronglySorted; [ | exact HS].
  intros a b c. apply str_le_trans.
Qed.

(* ===================================================================== *)
(** ** Properties: ordinals and dates *)
(* ===================================================================== *)

Lemma month_day_checked (leap : bool) :
  forallb (month_day_check leap)
          (List.map Z.of_nat (seq 0 (if leap then 366 else 365))) = true.
Proof. destruct leap; vm_compute; reflexivity. Qed.

Lemma month_day_spec (leap : bool) (n : Z) :
  0 <= n < (if leap then 366 else 365) ->
  month_day_check leap n = true.
Proof.
  intros Hn. pose proof (month_day_checked leap) as H.
  rewrite forallb_forall in H. apply H. apply in_map_iff.
  exists (Z.to_nat n). split; [lia | ]. apply in_seq. destruct leap; lia.
Qed.

Lemma days_before_year_cycles (a b c d : Z) :
  0 <= b <= 3 -> 0 <= c <= 24 -> 0 <= d <= 3 ->
  days_before_year (400 * a + 100 * b + 4 * c + d + 1)
  = DI400Y * a + DI100Y * b + DI4Y * c + 365 * d.
Proof.
  intros Hb Hc Hd. unfold days_before_year, DI400Y, DI100Y, DI4Y.
  replace (400 * a + 100 * b + 4 * c + d + 1 - 1)
    with (400 * a + 100 * b + 4 * c + d) by lia.
  Z.to_euclidean_division_equations. lia.
Qed.

Lemma is_leap_cycles (a b c d : Z) :
  0 <= b <= 3 -> 0 <= c <= 24 -> 0 <= d <= 3 ->
  is_leap (400 * a + 100 * b + 4 * c + d + 1)
  = (d =? 3) && (negb (c =? 24) || (b =? 3)).
Proof.
  intros Hb Hc Hd. unfold is_leap.
  destruct (Z.eqb_spec d 3), (Z.eqb_spec c 24), (Z.eqb_spec b 3); cbn;
  repeat match goal with
  | |- context [?x mod ?k =? 0] => destruct (Z.eqb_spec (x mod k) 0)
  end; cbn; try reflexivity; exfalso;
  Z.to_euclidean_division_equations; lia.
Qed.

Lemma fromordinal_cycles (n : Z) :
  exists a b c d r,
    n - 1 = DI400Y * a + DI100Y * b + DI4Y * c + 365 * d + r
    /\ 0 <= b <= 3 /\ 0 <= c <= 24 /\ 0 <= d <= 3
    /\ 0 <= r < (if is_leap (400 * a + 100 * b + 4 * c + d + 1) then 366 else 365)
    /\ fromordinal n
       = let (m, dd) := month_day (is_leap (400 * a + 100 * b + 4 * c + d + 1)) r in
         mkDate (400 * a + 100 * b + 4 * c + d + 1) m dd.
Proof.
  unfold fromordinal.
  set (n0 := n - 1).
  set (a := n0 / DI400Y). set (r400 := n0 mod DI400Y).
  set (b := r400 / DI100Y). set (r100 := r400 mod DI100Y).
  set (c := r100 / DI4Y). set (r4 := r100 mod DI4Y).
  set (d := r4 / 365). set (r1 := r4 mod 365).
  assert (Hn0 : n0 = DI400Y * a + r400 /\ 0 <= r400 < DI400Y).
  { unfold a, r400, DI400Y. Z.to_euclidean_division_equations. lia. }
  assert (H400 : r400 = DI100Y * b + r100 /\ 0 <= r100 < DI100Y /\ 0 <= b <= 4).
  { unfold b, r100, DI100Y, DI400Y in *. Z.to_euclidean_division_equations. lia. }
  assert (H100 : r100 = DI4Y * c + r4 /\ 0 <= r4 < DI4Y /\ 0 <= c <= 24).
  { unfold c, r4, DI4Y, DI100Y in *. Z.to_euclidean_division_equations. lia. }
  assert (H4 : r4 = 365 * d + r1 /\ 0 <= r1 < 365 /\ 0 <= d <= 4).
  { unfold d, r1, DI4Y in *. Z.to_euclidean_division_equations. lia. }
  clearbody a r400 b r100 c r4 d r1 n0.
  destruct Hn0 as [En0 B400], H400 as (E400 & B100 & Bb),
    H100 as (E100 & B4 & Bc), H4 as (E4 & B1 & Bd).
  unfold DI400Y, DI100Y, DI4Y in *.
  destruct (Z.eqb_spec b 4) as [Hb4 | Hb4].
  - (* the last day of a cycle of 400 years *)
    rewrite orb_true_r.
    exists a, 3, 24, 3, 365.
    rewrite is_leap_cycles by lia. cbn [Z.eqb Pos.eqb andb orb negb].
    repeat split; try lia. cbn. f_equal. lia.
  - destruct (Z.eqb_spec d 4) as [Hd4 | Hd4]; cbn [orb].
    + (* the last day of a cycle of 4 years *)
      exists a, b, c, 3, 365.
      rewrite is_leap_cycles by lia.
      destruct (Z.eqb_spec c 24) as [Hc | Hc]; [lia | ].
      cbn [Z.eqb Pos.eqb andb orb negb].
      repeat split; try lia. cbn. f_equal. lia.
    + exists a, b, c, d, r1.
      rewrite is_leap_cycles by lia.
      repeat split; try lia.
      * destruct ((d =? 3) && (negb (c =? 24) || (b =? 3))); lia.
      * destruct (month_day _ r1) as [m dd]. f_equal. lia.
Qed.

Lemma toordinal_fromordinal (n : Z) : toordinal (fromordinal n) = n.
Proof.
  destruct (fromordinal_cycles n) as (a & b & c & d & r & En & Hb & Hc & Hd & Hr & ->).
  pose proof (month_day_spec _ r Hr) as Hmd. unfold month_day_check in Hmd.
  destruct (month_day _ r) as [m dd].
  rewrite !andb_true_iff, !Z.leb_le, Z.eqb_eq in Hmd.
  unfold toordinal, days_before_month. cbn [year month day].
  rewrite days_before_year_cycles by lia. lia.
Qed.

Lemma fromordinal_valid (n : Z) :
  1 <= n <= MAXORDINAL -> valid_date (fromordinal n).
Proof.
  intros Hn.
  destruct (fromordinal_cycles n) as (a & b & c & d & r & En & Hb & Hc & Hd & Hr & E).
  pose proof (month_day_spec _ r Hr) as Hmd. unfold month_day_check in Hmd.
  rewrite E. destruct (month_day _ r) as [m dd].
  rewrite !andb_true_iff, !Z.leb_le, Z.eqb_eq in Hmd.
  unfold valid_date, MINYEAR, MAXYEAR, MAXORDINAL, DI400Y, DI100Y, DI4Y in *.
  cbn [year month day].
  assert (Hdim : days_in_month (400 * a + 100 * b + 4 * c + d + 1) m
                 = nth (Z.to_nat (m - 1)) DAYS_IN_MONTH 0
                   + (if (m =? 2) && is_leap (400 * a + 100 * b + 4 * c + d + 1)
                      then 1 else 0)).
  { unfold days_in_month. destruct (Z.eqb_spec m 2) as [-> | Hm]; cbn [andb].
    - destruct (is_leap _); reflexivity.
    - lia. }
  rewrite Hdim.
  assert (0 <= r <= 365) by (destruct (is_leap _); lia).
  repeat split; lia.
Qed.

Lemma toordinal_pos (d : date) : valid_date d -> 1 <= toordinal d.
Proof.
  intros (Hy & Hm & Hd). unfold toordinal, days_before_year, days_before_month,
    MINYEAR, MAXYEAR in *.
  assert (0 <= nth (Z.to_nat (month d - 1)) DAYS_BEFORE_MONTH 0).
  { generalize (Z.to_nat (month d - 1)). intros n.
    do 12 (destruct n as [ | n]; [cbn; lia | ]). destruct n; cbn; lia. }
  destruct ((2 <? month d) && is_leap (year d));
    Z.to_euclidean_division_equations; lia.
Qed.

(** Date addition is addition on ordinals. *)
Lemma add_days_ordinal (a b : date) (k : Z) :
  add_days a k = Returned b ->
  toordinal b = toordinal a + k /\ valid_date b.
Proof.
  unfold add_days. destruct (999999999 <? Z.abs k); [discriminate | ].
  destruct ((0 <? toordinal a + k) && (toordinal a + k <=? MAXORDINAL)) eqn:E;
    [ | discriminate].
  apply andb_true_iff in E. rewrite Z.ltb_lt, Z.leb_le in E.
  intros H. inversion H; subst. split.
  - apply toordinal_fromordinal.
  - apply fromordinal_valid. lia.
Qed.

Lemma add_days_returns (a : date) (k : Z) :
  0 <= k -> 1 <= toordinal a -> toordinal a + k <= MAXORDINAL ->
  add_days a k = Returned (fromordinal (toordinal a + k)).
Proof.
  intros Hk Ha Hmax. unfold add_days, MAXORDINAL in *.
  destruct (Z.ltb_spec 999999999 (Z.abs k)) as [Hbig | _]; [lia | ].
  rewrite (proj2 (Z.ltb_lt 0 _)) by lia.
  rewrite (proj2 (Z.leb_le _ _)) by lia. reflexivity.
Qed.

(* ===================================================================== *)
(** ** Properties: the birthday query *)
(* ===================================================================== *)

Lemma date_eqb_eq (a b : date) : date_eqb a b = true -> a = b.
Proof.
  unfold date_eqb. rewrite !andb_true_iff, !Z.eqb_eq.
  destruct a, b; cbn. intros [[-> ->] ->]. reflexivity.
Qed.

Lemma birthday_step_inv (today target : date) (days : Z) (r : record)
  (result result' : list entry) :
  add_days today days = Returned target ->
  AddressBook.birthday_step today target r result = Returned result' ->
  result' = result
  \/ exists e, entry_of today days r e /\ result' = result ++ [e].
Proof.
  intros Htarget. unfold AddressBook.birthday_step.
  destruct (birthday r) as [bday | ] eqn:Hb;
    [ | intros H; inversion H; left; reflexivity].
  unfold replace_year.
  destruct (new_date (year today) (month bday) (day bday)) as [ | ty] eqn:Ety;
    [discriminate | ].
  apply new_date_inv in Ety. destruct Ety as [-> Hty]. cbn [obind month day].
  set (ty := mkDate (year today) (month bday) (day bday)) in *.
  assert (Hocc : forall occ,
    (if date_ltb ty today
     then new_date (year today + 1) (month bday) (day bday)
     else Returned ty) = Returned occ ->
    next_occurrence today bday occ).
  { intros occ. destruct (date_ltb ty today) eqn:Elt.
    - intros E. apply new_date_inv in E. destruct E as [-> Hv].
      repeat split; try apply Hv. right. split; [reflexivity | exact Elt].
    - intros E. inversion E; subst occ.
      repeat split; try apply Hty. left. split; [reflexivity | exact Elt]. }
  destruct (if date_ltb ty today then _ else _) as [ | occ] eqn:Eocc;
    [discriminate | ].
  specialize (Hocc occ eq_refl). cbn [obind].
  destruct (date_eqb occ target) eqn:Eeq;
    [ | intros H; inversion H; left; reflexivity].
  apply date_eqb_eq in Eeq. subst target.
  pose proof (add_days_ordinal _ _ _ Htarget) as [Hord _].
  destruct (Z.eqb_spec (weekday occ) 5) as [E5 | E5].
  - destruct (add_days occ 2) as [ | d] eqn:Ed; [discriminate | ].
    pose proof (add_days_ordinal _ _ _ Ed) as [Hd _].
    cbn. intros H. inversion H. right. eexists. split; [ | reflexivity].
    exists bday, occ, d. repeat split; try assumption; try apply Hocc.
    left. repeat split; try assumption.
    unfold weekday in *. rewrite Hd. Z.to_euclidean_division_equations. lia.
  - destruct (Z.eqb_spec (weekday occ) 6) as [E6 | E6].
    + destruct (add_days occ 1) as [ | d] eqn:Ed; [discriminate | ].
      pose proof (add_days_ordinal _ _ _ Ed) as [Hd _].
      cbn. intros H. inversion H. right. eexists. split; [ | reflexivity].
      exists bday, occ, d. repeat split; try assumption; try apply Hocc.
      right. left. repeat split; try assumption.
      unfold weekday in *. rewrite Hd. Z.to_euclidean_division_equations. lia.
    + cbn. intros H. inversion H. right. eexists. split; [ | reflexivity].
      exists bday, occ, occ. repeat split; try assumption; try apply Hocc.
      right. right. repeat split; assumption.
Qed.

Lemma birthday_loop_inv (today target : date) (days : Z) (P : entry -> Prop)
  (rs : list (loc * record)) :
  add_days today days = Returned target ->
  (forall lr e, lr ∈ rs -> entry_of today days (snd lr) e -> P e) ->
  forall result result',
    Forall P result ->
    AddressBook.birthday_loop today target rs result = Returned result' ->
    Forall P result'.
Proof.
  intros Htarget. induction rs as [ | [l r] rs IH]; intros HP result result' Hres; cbn.
  - intros H. inversion H; subst. exact Hres.
  - destruct (AddressBook.birthday_step today target r result) as [ | mid] eqn:Es;
      [discriminate | ].
    cbn. apply IH.
    + intros lr e Hin. apply HP. apply list_elem_of_further, Hin.
    + destruct (birthday_step_inv _ _ _ _ _ _ Htarget Es) as [-> | (e & He & ->)].
      * exact Hres.
      * apply Forall_app. split; [exact Hres | ]. repeat constructor.
        apply (HP (l, r)); [apply list_elem_of_here | exact He].
Qed.

(** C1: when the query for [days >= 0] returns, the state is the one it
    started from, so no stored birthday has changed; the result is
    sorted by name in the order of code points; and every entry comes
    from a record of the book that has a birthday: its name is the
    name of the record, the occurrence of the birthday's month and day
    in this year, or in the next one when this year's is before today,
    is [today] plus [days] days exactly, and its congratulation date is
    that occurrence rendered, after a move of two days from a Saturday
    and of one day from a Sunday, to a Monday in both cases, and no
    move on the other days. *)
Theorem get_birthdays_in_days_entries
  (today : date) (days : Z) (w w' : world) (result : list entry) :
  0 <= days ->
  AddressBook.get_birthdays_in_days today days w = (Returned result, w') ->
  w' = w
  /\ StronglySorted name_le result
  /\ Forall (fun e => exists k l r,
               (k, l) ∈ data w /\ heap w !! l = Some r
               /\ entry_of today days r e) result.
Proof.
  intros Hdays. unfold AddressBook.get_birthdays_in_days.
  destruct (Z.ltb_spec days 0) as [Hneg | _]; [lia | ].
  unfold bind, lift, get, ret.
  destruct (add_days today days) as [ | target] eqn:Htarget; [discriminate | ].
  destruct (values (data w) w) as [[ | rs] w1] eqn:Hvals; [discriminate | ].
  apply values_inv in Hvals. destruct Hvals as [-> Hrs].
  destruct (AddressBook.birthday_loop today target rs []) as [ | res] eqn:Hloop;
    [discriminate | ].
  intros H. injection H as Hres Hw. subst result w'. split; [reflexivity | ].
  set (P := fun e => exists k l r,
              (k, l) ∈ data w /\ heap w !! l = Some r
              /\ entry_of today days r e).
  assert (HP : Forall P res).
  { eapply (birthday_loop_inv today target days P rs Htarget);
      [ | constructor | exact Hloop].
    intros [l r] e Hin He. rewrite Forall_forall in Hrs.
    destruct (Hrs _ Hin) as [Hl [k Hk]]. cbn in *.
    exists k, l, r. repeat split; assumption. }
  destruct (sort_by_name_spec P res HP) as [H1 H2].
  split; [exact H2 | exact H1].
Qed.

(** An evaluation on Tuesday 3 November 2026: the two birthdays of
    7 November fall on a Saturday and are to be congratulated on Monday
    9 November; Ann comes before Zoe although she is later in the
    book. *)
Lemma get_birthdays_in_days_entries_witness :
  birthday_world = birthday_world
  /\ StronglySorted name_le
       [mkEntry (py "Ann") (py "09.11.2026"); mkEntry (py "Zoe") (py "09.11.2026")]
  /\ Forall (fun e => exists k l r,
               (k, l) ∈ data birthday_world /\ heap birthday_world !! l = Some r
               /\ entry_of (mkDate 2026 11 3) 4 r e)
       [mkEntry (py "Ann") (py "09.11.2026"); mkEntry (py "Zoe") (py "09.11.2026")].
Proof.
  apply (get_birthdays_in_days_entries (mkDate 2026 11 3) 4
           birthday_world birthday_world).
  - lia.
  - vm_compute. reflexivity.
Defined.

(** C2 does not hold of the program. With a record born on 29 February
    in the book and a current year that is not a leap year, the query
    raises the [ValueError] of [bday.replace(year=today.year)]: here on
    3 November 2026, for 7 days. *)
Theorem leap_day_birthday_raises :
  AddressBook.get_birthdays_in_days (mkDate 2026 11 3) 7 leap_world
  = (Raised (ValueError (py "day is out of range for month")), leap_world).
Proof. vm_compute. reflexivity. Qed.

Lemma values_state (w : world) (d : list (pystr * loc)) :
  snd (values d w) = w.
Proof.
  induction d as [ | [k l] d IH]; cbn; [reflexivity | ].
  unfold bind, deref, ret. destruct (heap w !! l); [ | reflexivity].
  destruct (values d w) as [[e | rs] w1]; cbn in *; exact IH.
Qed.

Lemma birthday_step_leap_day (today target : date) (r : record) (y : Z)
  (result : list entry) :
  MINYEAR <= year today <= MAXYEAR ->
  is_leap (year today) = false ->
  birthday r = Some (mkDate y 2 29) ->
  AddressBook.birthday_step today target r result
  = Raised (ValueError (py "day is out of range for month")).
Proof.
  intros Hy Hleap Hb. unfold AddressBook.birthday_step, replace_year, new_date.
  rewrite Hb. cbn [month day]. unfold MINYEAR, MAXYEAR in *.
  rewrite (proj2 (Z.leb_le 1 (year today))) by lia.
  rewrite (proj2 (Z.leb_le (year today) 9999)) by lia.
  unfold days_in_month. rewrite Hleap. reflexivity.
Qed.

(** X26: with a record born on 29 February in the book and a current date
    in a year that is not a leap year, the birthday query raises for
    every number of days, whatever the other records are, and leaves
    the state as it was. *)
Lemma leap_day_birthday_always_raises (today : date) (days : Z) (w : world)
  (k : pystr) (l : loc) (r : record) (y : Z) :
  MINYEAR <= year today <= MAXYEAR ->
  is_leap (year today) = false ->
  (k, l) ∈ data w -> heap w !! l = Some r ->
  birthday r = Some (mkDate y 2 29) ->
  exists e, AddressBook.get_birthdays_in_days today days w = (Raised e, w).
Proof.
  intros Hy Hleap Hin Hl Hb. unfold AddressBook.get_birthdays_in_days.
  destruct (days <? 0); [eexists; reflexivity | ].
  unfold bind, lift, get, ret.
  destruct (add_days today days) as [e | target]; [eexists; reflexivity | ].
  pose proof (values_state w (data w)) as Hst.
  destruct (values (data w) w) as [[e | rs] w1] eqn:Hvals; cbn in Hst; subst w1;
    [eexists; reflexivity | ].
  assert (Hrs : (l, r) ∈ rs).
  { clear -Hvals Hin Hl. revert rs Hvals.
    induction (data w) as [ | [k' l'] d IH]; intros rs Hvals; [inversion Hin | ].
    cbn in Hvals. unfold bind, deref, ret in Hvals.
    destruct (heap w !! l') as [r' | ] eqn:Hr'; [ | discriminate].
    pose proof (values_state w d) as Hst.
    destruct (values d w) as [[e | rs'] w1]; [discriminate | ].
    cbn in Hst. subst w1. inversion Hvals; subst rs.
    apply elem_of_cons in Hin. destruct Hin as [Heq | Hin].
    - inversion Heq; subst. rewrite Hl in Hr'. inversion Hr'; subst.
      apply list_elem_of_here.
    - apply list_elem_of_further. apply IH; [exact Hin | reflexivity]. }
  assert (Hloop : forall acc, exists e,
            AddressBook.birthday_loop today target rs acc = Raised e).
  { clear Hvals. induction rs as [ | [l' r'] rs IH]; intros acc; [inversion Hrs | ].
    cbn. apply elem_of_cons in Hrs. destruct Hrs as [Heq | Hrs].
    - inversion Heq; subst.
      rewrite (birthday_step_leap_day today target r' y acc Hy Hleap Hb).
      eexists. reflexivity.
    - destruct (AddressBook.birthday_step today target r' acc) as [e | mid];
        [eexists; reflexivity | ].
      cbn. apply IH, Hrs. }
  destruct (Hloop []) as [e ->]. eexists. reflexivity.
Qed.

(* ===================================================================== *)
(** ** Properties: when the birthday query returns *)
(* ===================================================================== *)

Lemma replace_year_returns (b : date) (y : Z) :
  valid_date b -> ~ (month b = 2 /\ day b = 29) ->
  MINYEAR <= y <= MAXYEAR ->
  replace_year b y = Returned (mkDate y (month b) (day b)).
Proof.
  intros (Hy & Hm & Hd) Hleap Hrange. unfold replace_year.
  apply (new_date_valid (mkDate y (month b) (day b))).
  unfold valid_date. cbn [year month day].
  split; [exact Hrange | ]. split; [exact Hm | ]. split; [lia | ].
  unfold days_in_month in *.
  destruct (Z.eqb_spec (month b) 2) as [E | E]; cbn [andb] in *; [ | exact (proj2 Hd)].
  rewrite E in *. cbn [Z.eqb Pos.eqb andb] in Hd |- *.
  change (nth (Z.to_nat (2 - 1)) DAYS_IN_MONTH 0) with 28 in *.
  destruct (is_leap y), (is_leap (year b)); lia.
Qed.

Lemma birthday_step_returns (today target : date) (r : record)
  (result : list entry) :
  MINYEAR <= year today < MAXYEAR ->
  1 <= toordinal target -> toordinal target + 2 <= MAXORDINAL ->
  (forall b, birthday r = Some b ->
             valid_date b /\ ~ (month b = 2 /\ day b = 29)) ->
  exists result',
    AddressBook.birthday_step today target r result = Returned result'.
Proof.
  intros Hy Hlo Hhi Hb. unfold AddressBook.birthday_step.
  destruct (birthday r) as [b | ]; [ | eexists; reflexivity].
  destruct (Hb b eq_refl) as [Hv Hleap].
  rewrite (replace_year_returns b (year today) Hv Hleap) by lia.
  cbn [obind]. unfold replace_year. cbn [month day].
  fold (replace_year b (year today + 1)).
  rewrite (replace_year_returns b (year today + 1) Hv Hleap)
    by (unfold MINYEAR, MAXYEAR in *; lia).
  set (occ := if date_ltb _ today then _ else _).
  assert (Hocc : exists o, occ = Returned o).
  { unfold occ. destruct (date_ltb _ today); eexists; reflexivity. }
  destruct Hocc as [o ->]. cbn [obind].
  destruct (date_eqb o target) eqn:Eeq; [ | eexists; reflexivity].
  apply date_eqb_eq in Eeq. subst o.
  rewrite (add_days_returns target 2), (add_days_returns target 1) by lia.
  destruct (weekday target =? 5); [eexists; reflexivity | ].
  destruct (weekday target =? 6); eexists; reflexivity.
Qed.

(** X25: the query returns on every state of the program in which no
    birthday is a 29 February, as long as the dates involved stay
    within the calendar of the library. *)
Lemma get_birthdays_in_days_returns (today : date) (days : Z) (w : world) :
  book_ok w -> valid_date today -> year today < MAXYEAR ->
  0 <= days -> toordinal today + days + 2 <= MAXORDINAL ->
  (forall k l r b, (k, l) ∈ data w -> heap w !! l = Some r ->
                   birthday r = Some b ->
                   valid_date b /\ ~ (month b = 2 /\ day b = 29)) ->
  exists result,
    AddressBook.get_birthdays_in_days today days w = (Returned result, w).
Proof.
  intros Hok Htoday Hyear Hdays Hmax Hb.
  pose proof (toordinal_pos today Htoday) as Hpos.
  unfold AddressBook.get_birthdays_in_days.
  destruct (Z.ltb_spec days 0) as [Hneg | _]; [lia | ].
  unfold bind, lift, get, ret.
  rewrite (add_days_returns today days) by lia.
  set (target := fromordinal (toordinal today + days)).
  assert (Htarget : toordinal target = toordinal today + days)
    by apply toordinal_fromordinal.
  destruct (values_returns w (data w)) as [Hv _].
  { intros k l Hin. destruct (ok_refs w Hok k l Hin) as (r & Hr & _).
    rewrite Hr. eexists. reflexivity. }
  rewrite Hv.
  assert (Hrs : Forall (fun lr => forall b, birthday (snd lr) = Some b ->
                          valid_date b /\ ~ (month b = 2 /\ day b = 29))
                  (records_of w (data w))).
  { apply Forall_forall. intros [l r] Hin b Hbr. cbn in Hbr.
    unfold records_of in Hin. apply list_elem_of_omap in Hin.
    destruct Hin as ([k l0] & Hin & Heq). cbn in Heq.
    destruct (heap w !! l0) eqn:E; inversion Heq; subst.
    eapply Hb; eassumption. }
  assert (Hloop : forall acc, exists res,
            AddressBook.birthday_loop today target (records_of w (data w)) acc
            = Returned res).
  { clear Hv. induction Hrs as [ | [l r] rs Hr _ IH]; intros acc; cbn.
    - eexists. reflexivity.
    - assert (Hy : MINYEAR <= year today < MAXYEAR)
        by (destruct Htoday as (Hy & _); lia).
      assert (Hlo : 1 <= toordinal target) by lia.
      assert (Hhi : toordinal target + 2 <= MAXORDINAL) by lia.
      destruct (birthday_step_returns today target r acc Hy Hlo Hhi Hr)
        as [mid ->].
      cbn. apply IH. }
  destruct (Hloop []) as [res ->]. eexists. reflexivity.
Qed.

(* ===================================================================== *)
(** ** Properties: the methods keep records and books well formed *)
(* ===================================================================== *)

Section Invariants.
Context {R : PyRuntime}.

Lemma record_ok_init (nm : pystr) (r : record) :
Rec.init nm = Returned r -> record_ok r.
Proof.
intros H. inversion H; subst. split; cbn; try discriminate. constructor.
Qed.

Lemma record_ok_add_phone (phone : pystr) (r r' : record) (o : outcome unit) :
record_ok r -> Rec.add_phone phone r = (o, r') -> record_ok r'.
Proof.
intros [Hp He Ha Hb]. unfold Rec.add_phone, bind, lift, get, put.
rewrite phone_init_validate.
destruct (Phone.validate phone) eqn:Hv; intros H; inversion H; subst.
- split; cbn; try assumption. apply Forall_app. split; [exact Hp | ].
  repeat constructor. exact Hv.
- split; assumption.
Qed.

Lemma record_ok_edit_phone (old_phone new_phone : pystr) (r r' : record)
  (o : outcome unit) :
record_ok r -> Rec.edit_phone old_phone new_phone r = (o, r') -> record_ok r'.
Proof.
intros Hok.
unfold Rec.edit_phone, Rec.find_phone, bind, get, ret, raise, put, lift.
destruct (Rec.find_index old_phone (phones r)) as [j | ];
  [ | intros H; inversion H; subst; exact Hok].
rewrite phone_init_validate.
destruct (Phone.validate new_phone) eqn:Hv; cbn [negb];
  intros H; inversion H; subst; [ | exact Hok].
destruct Hok as [Hp He Ha Hb]. split; cbn; try assumption.
apply Forall_insert; assumption.
Qed.

Lemma record_ok_remove_phone (phone : pystr) (r r' : record) (o : outcome unit) :
record_ok r -> Rec.remove_phone phone r = (o, r') -> record_ok r'.
Proof.
intros [Hp He Ha Hb].
unfold Rec.remove_phone, Rec.find_phone, bind, get, ret, raise, put.
destruct (Rec.find_index phone (phones r)) as [i | ];
  intros H; inversion H; subst; [ | split; assumption].
split; cbn; try assumption. apply Forall_delete. exact Hp.
Qed.

Lemma record_ok_add_email (e : pystr) (r r' : record) (o : outcome unit) :
record_ok r -> Rec.add_email e r = (o, r') -> record_ok r'.
Proof.
intros [Hp He Ha Hb]. unfold Rec.add_email, bind, lift, get, put.
destruct (Email.init e) as [ | v] eqn:Hv; intros H; inversion H; subst;
  [split; assumption | ].
split; cbn; try assumption.
intros e' E. inversion E; subst. exists e. exact Hv.
Qed.

Lemma record_ok_edit_email (e : pystr) (r r' : record) (o : outcome unit) :
record_ok r -> Rec.edit_email e r = (o, r') -> record_ok r'.
Proof.
intros Hok. unfold Rec.edit_email.
destruct (Email.validate e); cbn [negb].
- apply (record_ok_add_email e r r' o Hok).
- unfold raise. intros H. inversion H; subst. exact Hok.
Qed.

Lemma record_ok_add_address (a : pystr) (r r' : record) (o : outcome unit) :
record_ok r -> Rec.add_address a r = (o, r') -> record_ok r'.
Proof.
intros [Hp He Ha Hb]. unfold Rec.add_address, Address.init, bind, lift, get, put.
destruct (Address.validate a) eqn:Hv; cbn [negb]; intros H; inversion H; subst;
  [ | split; assumption].
split; cbn; try assumption.
intros a' E. inversion E; subst. exact Hv.
Qed.

Lemma record_ok_edit_address (a : pystr) (r r' : record) (o : outcome unit) :
record_ok r -> Rec.edit_address a r = (o, r') -> record_ok r'.
Proof.
intros Hok. unfold Rec.edit_address.
destruct (Address.validate a); cbn [negb].
- apply (record_ok_add_address a r r' o Hok).
- unfold raise. intros H. inversion H; subst. exact Hok.
Qed.

Lemma record_ok_add_birthday (b : pystr) (r r' : record) (o : outcome unit) :
record_ok r -> Rec.add_birthday b r = (o, r') -> record_ok r'.
Proof.
intros [Hp He Ha Hb]. unfold Rec.add_birthday, bind, lift, get, put.
destruct (Birthday.init b) as [ | v] eqn:Hv; intros H; inversion H; subst;
  [split; assumption | ].
split; cbn; try assumption.
intros b' E. inversion E; subst. eapply birthday_init_valid. exact Hv.
Qed.
End Invariants.

Lemma dict_get_None (k : pystr) (d : list (pystr * loc)) :
  dict_get k d = None <-> k ∉ List.map fst d.
Proof.
  induction d as [ | [k' v] d IH]; cbn.
  - split; [intros _; apply not_elem_of_nil | reflexivity].
  - rewrite not_elem_of_cons. case_bool_decide as Hk.
    + split; [discriminate | intros [Hne _]; congruence].
    + rewrite IH. split; [intros H; split; [congruence | exact H] | tauto].
Qed.

Lemma dict_set_fresh (k : pystr) (v : loc) (d : list (pystr * loc)) :
  dict_get k d = None -> dict_set k v d = d ++ [(k, v)].
Proof.
  induction d as [ | [k' v'] d IH]; cbn; [reflexivity | ].
  case_bool_decide as Hk; [discriminate | ].
  intros H. rewrite IH by exact H. reflexivity.
Qed.

Lemma input_error_state {R : PyRuntime} (func : M world pystr) (w : world) :
  snd (input_error func w) = snd (func w).
Proof.
  unfold input_error, try_except.
  destruct (func w) as [[e | a] w1]; [destruct e | ]; reflexivity.
Qed.

(** A method that keeps the name of its record keeps the book well
    formed, whether it returns or raises. *)
Lemma on_record_book_ok {A} (l : loc) (m : M record A) (w : world) :
  book_ok w -> (forall r, name (snd (m r)) = name r) ->
  book_ok (snd (on_record l m w)).
Proof.
  intros [Hrefs Hkeys] Hname. unfold on_record.
  destruct (heap w !! l) as [r | ] eqn:Hl; [ | split; assumption].
  specialize (Hname r). destruct (m r) as [o r']. cbn in *.
  split; cbn; [ | exact Hkeys].
  intros k l' Hin. destruct (Hrefs k l' Hin) as (r1 & Hr1 & Hn1).
  destruct (decide (l' = l)) as [-> | Hne].
  - exists r'. split.
    + apply list_lookup_insert_eq. eapply lookup_lt_Some. exact Hl.
    + rewrite Hl in Hr1. inversion Hr1; subst. exact Hname.
  - exists r1. split; [ | exact Hn1].
    rewrite list_lookup_insert_ne by congruence. exact Hr1.
Qed.

Lemma add_phone_name (phone : pystr) (r : record) :
  name (snd (Rec.add_phone phone r)) = name r.
Proof.
  unfold Rec.add_phone, bind, lift, get, put.
  destruct (Phone.init phone); reflexivity.
Qed.

Lemma edit_phone_name (old_phone new_phone : pystr) (r : record) :
  name (snd (Rec.edit_phone old_phone new_phone r)) = name r.
Proof.
  unfold Rec.edit_phone, Rec.find_phone, bind, get, ret, raise, put, lift.
  destruct (Rec.find_index old_phone (phones r)); [ | reflexivity].
  destruct (Phone.validate new_phone); cbn [negb]; [ | reflexivity].
  destruct (Phone.init new_phone); reflexivity.
Qed.

(** A new record under a name that the book does not have. *)
Lemma add_new_record_book_ok (nm : pystr) (w : world) :
  book_ok w -> dict_get nm (data w) = None ->
  book_ok (mkWorld (heap w ++ [mkRecord nm [] None None None])
                   (dict_set nm (length (heap w)) (data w))).
Proof.
  intros [Hrefs Hkeys] Hnone. rewrite (dict_set_fresh _ _ _ Hnone).
  split; cbn.
  - intros k l Hin. apply elem_of_app in Hin. destruct Hin as [Hin | Hin].
    + destruct (Hrefs k l Hin) as (r & Hr & Hn). exists r.
      split; [ | exact Hn]. rewrite lookup_app_l; [exact Hr | ].
      eapply lookup_lt_Some. exact Hr.
    + apply list_elem_of_singleton in Hin. inversion Hin; subst.
      exists (mkRecord nm [] None None None). split; [ | reflexivity].
      rewrite lookup_app_r by lia. rewrite Nat.sub_diag. reflexivity.
  - rewrite List.map_app. cbn. apply NoDup_app. split; [exact Hkeys | ].
    split; [ | apply NoDup_singleton].
    intros k Hk Hk'. apply list_elem_of_singleton in Hk'. subst k.
    apply dict_get_None in Hnone. exact (Hnone Hk).
Qed.

(** The states of the program: [add_contact] and [change_contact] lead
    from a well-formed book to a well-formed book, whatever their
    arguments and whether they answer with an error or not. *)
Lemma add_contact_book_ok {R : PyRuntime} (args : list pystr) (w : world) :
  book_ok w -> book_ok (snd (add_contact args w)).
Proof.
  intros Hok. unfold add_contact. rewrite input_error_state.
  destruct args as [ | nm [ | phone rest]]; try exact Hok.
  unfold AddressBook.find, bind at 1 2, get, ret.
  destruct (dict_get nm (data w)) as [l | ] eqn:Hget.
  - unfold bind at 1.
    pose proof (on_record_book_ok l (Rec.add_phone phone) w Hok
                  (add_phone_name phone)) as Hok'.
    destruct phone as [ | c s]; unfold bind, ret.
    + exact Hok.
    + destruct (on_record l (Rec.add_phone (c :: s)) w) as [[e | []] w1];
        exact Hok'.
  - unfold new_record, AddressBook.add_record, alloc, deref, bind, lift, ret.
    cbn. rewrite lookup_app_r by lia. rewrite Nat.sub_diag. cbn.
    pose proof (add_new_record_book_ok nm w Hok Hget) as Hok1.
    set (w1 := mkWorld _ _) in *.
    pose proof (on_record_book_ok (length (heap w)) (Rec.add_phone phone) w1
                  Hok1 (add_phone_name phone)) as Hok'.
    destruct phone as [ | c s].
    + exact Hok1.
    + destruct (on_record (length (heap w)) (Rec.add_phone (c :: s)) w1)
        as [[e | []] w2]; exact Hok'.
Qed.

Lemma change_contact_book_ok {R : PyRuntime} (args : list pystr) (w : world) :
  book_ok w -> book_ok (snd (change_contact args w)).
Proof.
  intros Hok. unfold change_contact. rewrite input_error_state.
  destruct args as [ | nm [ | old_phone [ | new_phone rest]]]; try exact Hok.
  unfold AddressBook.find, bind at 1 2, get, ret.
  destruct (dict_get nm (data w)) as [l | ]; [ | exact Hok].
  pose proof (on_record_book_ok l (Rec.edit_phone old_phone new_phone) w Hok
                (edit_phone_name old_phone new_phone)) as Hok'.
  unfold bind, ret.
  destruct (on_record l (Rec.edit_phone old_phone new_phone) w) as [[e | []] w1];
    exact Hok'.
Qed.

(* ===================================================================== *)
(** ** More properties: the fields *)
(* ===================================================================== *)

Lemma lstrip_nil_iff (s : pystr) :
  lstrip s = [] <-> Forall (fun c => char_isspace c = true) s.
Proof.
  induction s as [ | c s IH]; cbn [lstrip].
  - split; [constructor | reflexivity].
  - destruct (char_isspace c) eqn:E.
    + rewrite IH. split; [intros H; constructor; assumption | ].
      intros H. inversion H; assumption.
    + split; [discriminate | ]. intros H. inversion H; congruence.
Qed.

Lemma strip_nil_iff (s : pystr) :
  strip s = [] <-> Forall (fun c => char_isspace c = true) s.
Proof.
  rewrite <- lstrip_nil_iff. unfold strip.
  destruct (lstrip_head s) as [-> | (c & t & -> & Hc)].
  - split; reflexivity.
  - destruct (rstrip_keeps_head c t Hc) as [u ->]. split; discriminate.
Qed.

Lemma address_validate_iff (a : pystr) :
  Address.validate a = true <-> Exists (fun c => char_isspace c = false) a.
Proof.
  unfold Address.validate. rewrite Nat.ltb_lt.
  destruct (strip a) as [ | c t] eqn:E.
  - apply strip_nil_iff in E. split; [cbn; lia | ].
    intros H. apply Exists_exists in H. destruct H as (c & Hin & Hc).
    rewrite Forall_forall in E. rewrite (E c Hin) in Hc. discriminate.
  - split; [intros _ | cbn; lia].
    destruct (Exists_dec (fun c => char_isspace c = false) a) as [H | H]; [exact H | ].
    exfalso. apply not_Exists_Forall in H;
      [ | intros x; destruct (char_isspace x); [right | left]; congruence].
    assert (Hall : Forall (fun c => char_isspace c = true) a).
    { eapply Forall_impl; [exact H | ]. cbn. intros x Hx.
      destruct (char_isspace x); [reflexivity | contradiction]. }
    apply strip_nil_iff in Hall. congruence.
Qed.

(** X1: [Address(a)] succeeds exactly when [a] has a character that is not
    white space, and then keeps [a] as it is, white space at the ends
    included; otherwise, and for the empty string, it raises the
    [ValueError] "Address cannot be empty.". *)
Theorem address_init_iff (a : pystr) :
  (Address.init a = Returned a
   <-> Exists (fun c => char_isspace c = false) a)
  /\ (Address.init a = Raised (ValueError (py "Address cannot be empty."))
      <-> Forall (fun c => char_isspace c = true) a).
Proof.
  pose proof (address_validate_iff a) as Hv.
  assert (Hn : Forall (fun c => char_isspace c = true) a
               <-> ~ Exists (fun c => char_isspace c = false) a).
  { rewrite Forall_forall, Exists_exists. split.
    - intros H (c & Hin & Hc). rewrite (H c Hin) in Hc. discriminate.
    - intros H c Hin. destruct (char_isspace c) eqn:E; [reflexivity | ].
      exfalso. apply H. exists c. split; assumption. }
  unfold Address.init. destruct (Address.validate a); cbn [negb]; split.
  - split; [intros _; apply Hv; reflexivity | reflexivity].
  - rewrite Hn. split; [discriminate | ].
    intros H. exfalso. apply H, Hv. reflexivity.
  - split; [discriminate | ]. intros H. apply Hv in H. discriminate.
  - rewrite Hn. split; [ | reflexivity].
    intros _ H. apply Hv in H. discriminate.
Qed.

Section FieldProperties.
Context {R : PyRuntime}.

Lemma new_date_raises (y m d : Z) (e : exn) :
  new_date y m d = Raised e -> exists msg, e = ValueError msg.
Proof.
  unfold new_date.
  repeat match goal with
  | |- context [if ?b then _ else _] => destruct b
  end; intros H; inversion H; eexists; reflexivity.
Qed.

(** X2: [Birthday(s)] has two outcomes only, for every string: a date of
    the calendar, or the [ValueError] "Invalid date format. Use
    DD.MM.YYYY", whatever went wrong in the parser. *)
Theorem birthday_init_outcome (s : pystr) :
  (exists d, Birthday.init s = Returned d /\ valid_date d)
  \/ Birthday.init s
     = Raised (ValueError (py "Invalid date format. Use DD.MM.YYYY")).
Proof.
  destruct (Birthday.init s) as [e | d] eqn:E.
  - right. revert E. unfold Birthday.init, strptime.
    destruct (match_items format_dmY s) as [[toks rest] | ];
      [ | intros H; inversion H; reflexivity].
    destruct rest; [ | intros H; inversion H; reflexivity].
    destruct toks as [ | a [ | b [ | c [ | ? ?]]]];
      try (intros H; inversion H; reflexivity).
    destruct (py_int a), (py_int b), (py_int c);
      try (intros H; inversion H; reflexivity).
    destruct (new_date _ _ _) as [e' | x] eqn:En; [ | discriminate].
    apply new_date_raises in En. destruct En as [msg ->].
    intros H. inversion H. reflexivity.
  - left. exists d. split; [reflexivity | ].
    eapply birthday_init_valid. exact E.
Qed.


Context {L : PyRuntimeLaws R}.

(** X4: the value that [Email] keeps is in normal form: [Email] accepts it
    again and keeps it unchanged, so normalising twice is normalising
    once. *)
Theorem email_normal_form (raw e : pystr) :
  Email.init raw = Returned e ->
  Email.init e = Returned e /\ strip e = e /\ lower e = e.
Proof.
  intros H. split; [apply (email_init_stable raw e H) | ].
  revert H. unfold Email.init.
  destruct (Email.validate (lower (strip raw))); [ | discriminate].
  cbn [negb]. intros H. injection H as <-.
  rewrite lower_strip, strip_idemp, lower_idemp. split; reflexivity.
Qed.
End FieldProperties.


Lemma email_normal_form_witness :
  Email.init (R := ascii_runtime) (py "ann@example.com") = Returned (py "ann@example.com")
  /\ strip (py "ann@example.com") = py "ann@example.com"
  /\ lower (PyRuntime := ascii_runtime) (py "ann@example.com")
     = py "ann@example.com".
Proof.
  apply (email_normal_form (R := ascii_runtime) (L := ascii_runtime_laws)
           (py "  Ann@Example.COM ") (py "ann@example.com")).
  reflexivity.
Defined.

(* ===================================================================== *)
(** ** More properties: the phones of a record *)
(* ===================================================================== *)

(** X5: [remove_phone] falls in one of two cases. No phone is [phone]: the
    not-found [ValueError], record unchanged. Otherwise the first phone
    equal to [phone] is taken out and nothing else changes: the phones
    before it keep their place, the phones after it move up by one,
    later copies of [phone] included. *)
Theorem remove_phone_cases (r : record) (phone : pystr) :
  ((phone ∉ phones r)
   /\ Rec.remove_phone phone r =
      (Raised (ValueError (py "Phone number " ++ phone ++ py " not found")), r))
  \/ (exists (i : nat) (r' : record),
        phones r !! i = Some phone
        /\ (forall j, (j < i)%nat -> phones r !! j <> Some phone)
        /\ Rec.remove_phone phone r = (Returned tt, r')
        /\ name r' = name r /\ email r' = email r
        /\ address r' = address r /\ birthday r' = birthday r
        /\ S (length (phones r')) = length (phones r)
        /\ (forall j, (j < i)%nat -> phones r' !! j = phones r !! j)
        /\ (forall j, (i <= j)%nat -> phones r' !! j = phones r !! S j)).
Proof.
  unfold Rec.remove_phone, Rec.find_phone, bind, get, ret, raise, put.
  destruct (Rec.find_index phone (phones r)) as [i | ] eqn:Hfind.
  - right. destruct (find_index_Some _ _ _ Hfind) as [Hi Hfirst].
    exists i, (set_phones (delete i (phones r)) r). cbn.
    repeat split; try assumption.
    + rewrite length_delete by (eexists; exact Hi).
      apply lookup_lt_Some in Hi. lia.
    + intros j Hj. apply list_lookup_delete_lt. exact Hj.
    + intros j Hj. apply list_lookup_delete_ge. exact Hj.
  - left. split; [ | reflexivity]. apply find_index_None. exact Hfind.
Qed.

Lemma find_index_snoc (p : pystr) (ps : list pystr) :
  p ∉ ps -> Rec.find_index p (ps ++ [p]) = Some (length ps).
Proof.
  induction ps as [ | q ps IH]; cbn; intros H.
  - rewrite bool_decide_eq_true_2; reflexivity.
  - apply not_elem_of_cons in H. destruct H as [Hne Hn].
    rewrite bool_decide_eq_false_2 by congruence.
    rewrite IH by exact Hn. reflexivity.
Qed.

(** X6: adding a valid phone that the record does not have and removing it
    again gives the record back; duplicates are allowed, and when the
    record already has that phone it is the older copy that goes: the
    earlier position is freed and the new copy stays last. *)
Theorem add_then_remove_phone (r : record) (phone : pystr) :
  Phone.validate phone = true ->
  ((phone ∉ phones r) ->
   (Rec.add_phone phone ;; Rec.remove_phone phone)%py r = (Returned tt, r))
  /\ (forall i, phones r !! i = Some phone ->
        (forall j, (j < i)%nat -> phones r !! j <> Some phone) ->
        (Rec.add_phone phone ;; Rec.remove_phone phone)%py r
        = (Returned tt, set_phones (delete i (phones r) ++ [phone]) r)).
Proof.
  intros Hv.
  assert (Hadd : Rec.add_phone phone r
                 = (Returned tt, set_phones (phones r ++ [phone]) r)).
  { unfold Rec.add_phone, bind, lift, get, put.
    rewrite phone_init_validate, Hv. reflexivity. }
  split.
  - intros Hnot. unfold bind at 1. rewrite Hadd.
    unfold Rec.remove_phone, Rec.find_phone, bind, get, ret, put. cbn.
    rewrite (find_index_snoc _ _ Hnot). cbn.
    replace (delete (length (phones r)) (phones r ++ [phone])) with (phones r).
    + destruct r; reflexivity.
    + rewrite delete_middle. rewrite app_nil_r. reflexivity.
  - intros i Hi Hfirst. unfold bind at 1. rewrite Hadd.
    unfold Rec.remove_phone, Rec.find_phone, bind, get, ret, put. cbn.
    assert (Hf : Rec.find_index phone (phones r ++ [phone]) = Some i).
    { clear Hadd. revert i Hi Hfirst.
      induction (phones r) as [ | q ps IH]; intros i Hi Hfirst; [discriminate Hi | ].
      cbn. destruct i as [ | i].
      - cbn in Hi. inversion Hi; subst.
        rewrite bool_decide_eq_true_2; reflexivity.
      - rewrite bool_decide_eq_false_2.
        + rewrite (IH i); [reflexivity | exact Hi | ].
          intros j Hj. apply (Hfirst (S j)). lia.
        + intros ->. apply (Hfirst 0%nat); [lia | reflexivity]. }
    assert (Hd : delete i (phones r ++ [phone]) = delete i (phones r) ++ [phone]).
    { apply lookup_lt_Some in Hi. clear -Hi. revert i Hi.
      induction (phones r) as [ | q ps IH]; intros i Hi; cbn in Hi; [lia | ].
      destruct i; cbn; [reflexivity | ]. f_equal. apply IH. lia. }
    rewrite Hf. cbn. rewrite Hd. reflexivity.
Qed.

Lemma add_then_remove_phone_witness :
  ((py "0670000000" ∉ phones ann) ->
   (Rec.add_phone (py "0670000000") ;; Rec.remove_phone (py "0670000000"))%py ann
   = (Returned tt, ann))
  /\ (forall i, phones ann !! i = Some (py "0670000000") ->
        (forall j, (j < i)%nat -> phones ann !! j <> Some (py "0670000000")) ->
        (Rec.add_phone (py "0670000000") ;; Rec.remove_phone (py "0670000000"))%py ann
        = (Returned tt,
           set_phones (delete i (phones ann) ++ [py "0670000000"]) ann)).
Proof.
  apply (add_then_remove_phone ann (py "0670000000")). reflexivity.
Defined.

(* ===================================================================== *)
(** ** More properties: the dictionary of the book *)
(* ===================================================================== *)

Lemma dict_set_names (k : pystr) (v : loc) (d : list (pystr * loc)) :
  List.map fst (dict_set k v d)
  = if bool_decide (k ∈ List.map fst d) then List.map fst d
    else List.map fst d ++ [k].
Proof.
  induction d as [ | [k' v'] d IH]; cbn [dict_set List.map fst app];
    [reflexivity | ].
  destruct (decide (k' = k)) as [-> | Hk].
  - rewrite (bool_decide_eq_true_2 (k = k)) by reflexivity.
    rewrite bool_decide_eq_true_2 by apply list_elem_of_here. reflexivity.
  - rewrite (bool_decide_eq_false_2 (k' = k)) by exact Hk.
    cbn [List.map fst]. rewrite IH.
    destruct (decide (k ∈ List.map fst d)) as [Hin | Hin].
    + rewrite (bool_decide_eq_true_2 _ Hin).
      rewrite bool_decide_eq_true_2 by (apply list_elem_of_further, Hin).
      reflexivity.
    + rewrite (bool_decide_eq_false_2 _ Hin).
      rewrite bool_decide_eq_false_2; [reflexivity | ].
      intros H. apply elem_of_cons in H. destruct H as [H | H]; congruence.
Qed.

(** X8: [add_record] then [find]: the book finds the record under its
    name; the other names lead where they led; a name the book already
    had keeps its place in the order of the book and now leads to the
    new record (the last one written wins), a new name goes last. *)
Theorem add_record_then_find (w : world) (l : loc) (r : record) :
  heap w !! l = Some r ->
  exists w',
    AddressBook.add_record l w = (Returned tt, w')
    /\ heap w' = heap w
    /\ AddressBook.find (name r) w' = (Returned (Some l), w')
    /\ (forall k, k <> name r ->
          AddressBook.find k w' = (Returned (dict_get k (data w)), w'))
    /\ book_names w'
       = if bool_decide (name r ∈ book_names w) then book_names w
         else book_names w ++ [name r].
Proof.
  intros Hl. eexists. split.
  - unfold AddressBook.add_record, bind, deref. rewrite Hl. reflexivity.
  - unfold AddressBook.find, bind, get, ret, book_names. cbn.
    split; [reflexivity | ]. split; [rewrite dict_get_set_eq; reflexivity | ].
    split; [ | apply dict_set_names].
    intros k Hk. rewrite dict_get_set_ne by exact Hk. reflexivity.
Qed.

Lemma add_record_then_find_witness :
  exists w',
    AddressBook.add_record 0%nat sample_world = (Returned tt, w')
    /\ heap w' = heap sample_world
    /\ AddressBook.find (name bob) w' = (Returned (Some 0%nat), w')
    /\ (forall k, k <> name bob ->
          AddressBook.find k w' = (Returned (dict_get k (data sample_world)), w'))
    /\ book_names w'
       = if bool_decide (name bob ∈ book_names sample_world)
         then book_names sample_world
         else book_names sample_world ++ [name bob].
Proof.
  apply (add_record_then_find sample_world 0%nat bob). reflexivity.
Defined.

Lemma dict_del_split (k : pystr) (d : list (pystr * loc)) (l : loc) :
  dict_get k d = Some l ->
  exists d1 d2, d = d1 ++ (k, l) :: d2 /\ (k ∉ List.map fst d1)
                /\ dict_del k d = d1 ++ d2.
Proof.
  induction d as [ | [k' v'] d IH]; cbn; [discriminate | ].
  case_bool_decide as Hk.
  - intros H. inversion H; subst. exists [], d.
    split; [reflexivity | ]. split; [apply not_elem_of_nil | reflexivity].
  - intros H. destruct (IH H) as (d1 & d2 & -> & Hn & ->).
    exists ((k', v') :: d1), d2. split; [reflexivity | ].
    split; [ | reflexivity]. cbn. apply not_elem_of_cons. split; congruence.
Qed.

Lemma dict_get_app (k : pystr) (d1 d2 : list (pystr * loc)) :
  dict_get k (d1 ++ d2)
  = match dict_get k d1 with
    | Some l => Some l
    | None => dict_get k d2
    end.
Proof.
  induction d1 as [ | [k' v'] d1 IH]; cbn; [reflexivity | ].
  case_bool_decide; [reflexivity | exact IH].
Qed.

(** X9: [delete] falls in one of two cases on a state of the program. The
    book does not have the name: the [KeyError], state unchanged.
    Otherwise the one entry of that name is taken out of the book and
    nothing else changes: the other entries keep their order, the other
    names lead where they led, the name is no longer found, and the
    book is still well formed. *)
Theorem delete_cases (w : world) (nm : pystr) :
  book_ok w ->
  ((nm ∉ book_names w)
   /\ AddressBook.delete nm w
      = (Raised (KeyError (py "Contact '" ++ nm ++ py "' not found")), w))
  \/ (exists l d1 d2 w',
        data w = d1 ++ (nm, l) :: d2
        /\ AddressBook.delete nm w = (Returned tt, w')
        /\ heap w' = heap w /\ data w' = d1 ++ d2
        /\ AddressBook.find nm w' = (Returned None, w')
        /\ (forall k, k <> nm ->
              AddressBook.find k w' = (Returned (dict_get k (data w)), w'))
        /\ book_ok w').
Proof.
  intros [Hrefs Hkeys].
  unfold AddressBook.delete, AddressBook.find, bind, get, ret, raise, put, book_names.
  destruct (dict_get nm (data w)) as [l | ] eqn:Hget.
  - right. destruct (dict_del_split _ _ _ Hget) as (d1 & d2 & Hd & Hn1 & Hdel).
    exists l, d1, d2, (mkWorld (heap w) (d1 ++ d2)). rewrite Hdel. cbn.
    rewrite Hd in Hkeys, Hrefs, Hget |- *.
    rewrite List.map_app in Hkeys. cbn in Hkeys.
    apply NoDup_app in Hkeys. destruct Hkeys as (Hk1 & Hdisj & Hk2).
    apply NoDup_cons in Hk2. destruct Hk2 as [Hn2 Hk2].
    assert (Hnone : dict_get nm (d1 ++ d2) = None).
    { apply dict_get_None. rewrite List.map_app.
      intros H. apply elem_of_app in H. destruct H as [H | H]; contradiction. }
    repeat split; try reflexivity.
    + rewrite Hnone. reflexivity.
    + intros k Hk. rewrite !dict_get_app. cbn.
      rewrite bool_decide_eq_false_2 by congruence. reflexivity.
    + cbn. intros k l' Hin. apply Hrefs.
      apply elem_of_app in Hin. apply elem_of_app.
      destruct Hin as [Hin | Hin]; [left; exact Hin | right].
      apply list_elem_of_further, Hin.
    + cbn. rewrite List.map_app. apply NoDup_app. split; [exact Hk1 | ].
      split; [ | exact Hk2].
      intros k Hin1 Hin2. apply (Hdisj k Hin1). apply list_elem_of_further, Hin2.
  - left. split; [ | reflexivity]. apply dict_get_None. exact Hget.
Qed.

Lemma delete_cases_witness :
  ((py "Bob" ∉ book_names sample_world)
   /\ AddressBook.delete (py "Bob") sample_world
      = (Raised (KeyError (py "Contact '" ++ py "Bob" ++ py "' not found")),
         sample_world))
  \/ (exists l d1 d2 w',
        data sample_world = d1 ++ (py "Bob", l) :: d2
        /\ AddressBook.delete (py "Bob") sample_world = (Returned tt, w')
        /\ heap w' = heap sample_world /\ data w' = d1 ++ d2
        /\ AddressBook.find (py "Bob") w' = (Returned None, w')
        /\ (forall k, k <> py "Bob" ->
              AddressBook.find k w'
              = (Returned (dict_get k (data sample_world)), w'))
        /\ book_ok w').
Proof.
  apply (delete_cases sample_world (py "Bob")). exact sample_world_ok.
Defined.

(* ===================================================================== *)
(** ** More properties: no handler lets an exception out *)
(* ===================================================================== *)

Lemma triple_ret {A} (P : world -> Prop) (Q : A -> world -> Prop) (a : A) :
  (forall w, P w -> Q a w) -> triple P (ret a) Q.
Proof. intros H w Hw. cbn. apply H, Hw. Qed.

Lemma triple_raise {A} (P : world -> Prop) (Q : A -> world -> Prop) (e : exn) :
  e <> Dangling -> (forall w, P w -> book_ok w) -> triple P (raise e) Q.
Proof. intros He H w Hw. cbn. split; [exact He | apply H, Hw]. Qed.

Lemma triple_bind {A B} (P : world -> Prop) (Q1 : A -> world -> Prop)
  (Q : B -> world -> Prop) (m : M world A) (k : A -> M world B) :
  triple P m Q1 -> (forall a, triple (Q1 a) (k a) Q) -> triple P (bind m k) Q.
Proof.
  intros Hm Hk w Hw. unfold bind. specialize (Hm w Hw).
  destruct (m w) as [[e | a] w1]; [exact Hm | ]. apply Hk, Hm.
Qed.

Lemma triple_weaken {A} (P P' : world -> Prop) (Q : A -> world -> Prop)
  (m : M world A) :
  (forall w, P' w -> P w) -> triple P m Q -> triple P' m Q.
Proof. intros HP Hm w Hw. apply Hm, HP, Hw. Qed.

Lemma triple_find (nm : pystr) :
  triple book_ok (AddressBook.find nm)
    (fun found w => book_ok w
                    /\ (forall l, found = Some l -> holds_name w l nm)
                    /\ (found = None -> dict_get nm (data w) = None)).
Proof.
  intros w Hok. unfold AddressBook.find, bind, get, ret.
  split; [exact Hok | ]. split; [ | tauto]. intros l Hl.
  apply dict_get_elem in Hl. apply (ok_refs w Hok), Hl.
Qed.

Lemma triple_deref (l : loc) (nm : pystr) :
  triple (fun w => book_ok w /\ holds_name w l nm) (deref l)
    (fun r w => book_ok w /\ holds_name w l nm /\ heap w !! l = Some r).
Proof.
  intros w [Hok (r & Hr & Hn)]. unfold deref. rewrite Hr.
  split; [exact Hok | ]. split; [exists r; split; assumption | exact Hr].
Qed.

Lemma triple_on_record {A} (l : loc) (nm : pystr) (m : M record A) :
  (forall r, name (snd (m r)) = name r) ->
  (forall r, fst (m r) <> Raised Dangling) ->
  triple (fun w => book_ok w /\ holds_name w l nm) (on_record l m)
    (fun _ w => book_ok w).
Proof.
  intros Hname Hexn w [Hok (r & Hr & Hn)].
  pose proof (on_record_book_ok l m w Hok Hname) as Hok'.
  unfold on_record in *. rewrite Hr in *. specialize (Hexn r).
  destruct (m r) as [[e | a] r']; cbn in *; [ | exact Hok'].
  split; [congruence | exact Hok'].
Qed.

Lemma dict_del_sublist (k : pystr) (d : list (pystr * loc)) :
  dict_del k d `sublist_of` d.
Proof.
  induction d as [ | [k' v'] d IH]; cbn; [constructor | ].
  case_bool_decide; [apply sublist_cons; reflexivity | apply sublist_skip, IH].
Qed.

(** A book with fewer entries is still well formed. *)
Lemma book_ok_sublist (w : world) (d : list (pystr * loc)) :
  book_ok w -> d `sublist_of` data w -> book_ok (mkWorld (heap w) d).
Proof.
  intros [Hrefs Hkeys] Hsub. split; cbn.
  - intros k l Hin. apply Hrefs. eapply elem_of_sublist; eassumption.
  - eapply sublist_NoDup; [exact Hkeys | ].
    clear -Hsub. induction Hsub; cbn; constructor; assumption.
Qed.

Lemma triple_delete (nm : pystr) :
  triple book_ok (AddressBook.delete nm) (fun _ w => book_ok w).
Proof.
  intros w Hok. unfold AddressBook.delete, bind, get, put, raise.
  destruct (dict_get nm (data w)).
  - apply book_ok_sublist; [exact Hok | apply dict_del_sublist].
  - split; [discriminate | exact Hok].
Qed.

Lemma triple_new_record (nm : pystr) (msg : pystr) :
  triple (fun w => book_ok w /\ dict_get nm (data w) = None)
    (let! rcd := new_record nm in
     AddressBook.add_record rcd ;;
     ret (rcd, msg))%py
    (fun rm w => book_ok w /\ holds_name w (fst rm) nm).
Proof.
  intros w [Hok Hnone].
  unfold new_record, AddressBook.add_record, alloc, deref, bind, lift, ret.
  cbn. rewrite lookup_app_r by lia. rewrite Nat.sub_diag. cbn.
  split; [apply add_new_record_book_ok; assumption | ].
  exists (mkRecord nm [] None None None). split; [ | reflexivity]. cbn.
  rewrite lookup_app_r by lia. rewrite Nat.sub_diag. reflexivity.
Qed.

(** The decorator turns every outcome of a handler on a state of the
    program into an answer. *)
Lemma triple_input_error {R : PyRuntime} (P : world -> Prop)
  (func : M world pystr) (w : world) :
  triple P func (fun _ w' => book_ok w') -> P w ->
  exists msg w', input_error func w = (Returned msg, w') /\ book_ok w'.
Proof.
  intros Hf Hw. specialize (Hf w Hw). unfold input_error, try_except.
  destruct (func w) as [[e | a] w1].
  - destruct Hf as [He Hok].
    destruct e; try contradiction; eexists; eexists; (split; [reflexivity | exact Hok]).
  - eexists. eexists. split; [reflexivity | exact Hf].
Qed.

Section HandlersSafe.
Context {R : PyRuntime}.

Lemma add_phone_no_dangling (p : pystr) (r : record) :
  fst (Rec.add_phone p r) <> Raised Dangling.
Proof.
  unfold Rec.add_phone, bind, lift, get, put. rewrite phone_init_validate.
  destruct (Phone.validate p); discriminate.
Qed.

Lemma edit_phone_no_dangling (p q : pystr) (r : record) :
  fst (Rec.edit_phone p q r) <> Raised Dangling.
Proof.
  unfold Rec.edit_phone, Rec.find_phone, bind, get, ret, raise, put, lift.
  destruct (Rec.find_index p (phones r)); [ | discriminate].
  rewrite phone_init_validate.
  destruct (Phone.validate q); discriminate.
Qed.

Lemma add_email_facts (e : pystr) (r : record) :
  name (snd (Rec.add_email e r)) = name r
  /\ fst (Rec.add_email e r) <> Raised Dangling.
Proof.
  unfold Rec.add_email, Email.init, bind, lift, get, put.
  destruct (Email.validate (lower (strip e))); cbn; split;
    try reflexivity; discriminate.
Qed.

Lemma edit_email_facts (e : pystr) (r : record) :
  name (snd (Rec.edit_email e r)) = name r
  /\ fst (Rec.edit_email e r) <> Raised Dangling.
Proof.
  unfold Rec.edit_email. destruct (Email.validate e); cbn [negb].
  - apply add_email_facts.
  - split; [reflexivity | discriminate].
Qed.

Lemma add_address_facts (a : pystr) (r : record) :
  name (snd (Rec.add_address a r)) = name r
  /\ fst (Rec.add_address a r) <> Raised Dangling.
Proof.
  unfold Rec.add_address, Address.init, bind, lift, get, put.
  destruct (Address.validate a); cbn; split; try reflexivity; discriminate.
Qed.

Lemma edit_address_facts (a : pystr) (r : record) :
  name (snd (Rec.edit_address a r)) = name r
  /\ fst (Rec.edit_address a r) <> Raised Dangling.
Proof.
  unfold Rec.edit_address. destruct (Address.validate a); cbn [negb].
  - apply add_address_facts.
  - split; [reflexivity | discriminate].
Qed.

Lemma birthday_init_raises (s : pystr) (e : exn) :
  Birthday.init s = Raised e -> exists msg, e = ValueError msg.
Proof.
  unfold Birthday.init, strptime.
  destruct (match_items format_dmY s) as [[toks rest] | ];
    [ | intros H; inversion H; eexists; reflexivity].
  destruct rest; [ | intros H; inversion H; eexists; reflexivity].
  destruct toks as [ | a [ | b [ | c [ | ? ?]]]];
    try (intros H; inversion H; eexists; reflexivity).
  destruct (py_int a), (py_int b), (py_int c);
    try (intros H; inversion H; eexists; reflexivity).
  destruct (new_date _ _ _) as [e' | x] eqn:En; [ | discriminate].
  apply new_date_raises in En. destruct En as [msg ->].
  intros H. inversion H. eexists. reflexivity.
Qed.

Lemma add_birthday_facts (b : pystr) (r : record) :
  name (snd (Rec.add_birthday b r)) = name r
  /\ fst (Rec.add_birthday b r) <> Raised Dangling.
Proof.
  unfold Rec.add_birthday, bind, lift, get, put.
  destruct (Birthday.init b) as [e | d] eqn:E; cbn.
  - split; [reflexivity | ]. apply birthday_init_raises in E.
    destruct E as [msg ->]. discriminate.
  - split; [reflexivity | discriminate].
Qed.

(** The body shared by the handlers that call one method on the record
    of a name. *)
Lemma triple_find_then_method {A} (nm : pystr) (m : M record A) (msg : pystr) :
  (forall r, name (snd (m r)) = name r) ->
  (forall r, fst (m r) <> Raised Dangling) ->
  triple book_ok
    (let! found := AddressBook.find nm in
     match found with
     | None => raise (contact_not_found nm)
     | Some rcd => on_record rcd m ;; ret msg
     end)%py
    (fun _ w => book_ok w).
Proof.
  intros Hname Hexn. eapply triple_bind; [apply triple_find | ].
  intros [l | ].
  - eapply triple_bind.
    + eapply triple_weaken; [ | apply (triple_on_record l nm m Hname Hexn)].
      intros w (Hok & H & _). split; [exact Hok | apply H; reflexivity].
    + intros u. apply triple_ret. auto.
  - apply triple_raise; [discriminate | tauto].
Qed.

(** The same with a check that the record has the field already. *)
Lemma triple_find_check_method {A B} (nm : pystr) (field : record -> option B)
  (m : M record A) (msg : pystr) (e : exn) :
  e <> Dangling ->
  (forall r, name (snd (m r)) = name r) ->
  (forall r, fst (m r) <> Raised Dangling) ->
  triple book_ok
    (let! found := AddressBook.find nm in
     match found with
     | None => raise (contact_not_found nm)
     | Some rcd =>
         let! r := deref rcd in
         match field r with
         | None => raise e
         | Some _ => on_record rcd m ;; ret msg
         end
     end)%py
    (fun _ w => book_ok w).
Proof.
  intros He Hname Hexn. eapply triple_bind; [apply triple_find | ].
  intros [l | ].
  - eapply triple_bind.
    + eapply triple_weaken; [ | apply (triple_deref l nm)].
      intros w (Hok & H & _). split; [exact Hok | apply H; reflexivity].
    + intros r. destruct (field r).
      * eapply triple_bind.
        -- eapply triple_weaken; [ | apply (triple_on_record l nm m Hname Hexn)].
           intros w (Hok & H & _). split; assumption.
        -- intros u. apply triple_ret. auto.
      * apply triple_raise; [exact He | tauto].
  - apply triple_raise; [discriminate | tauto].
Qed.

(** X10: whatever the arguments, each of the modelled handlers, run on a
    state of the program, returns an answer and never lets an exception
    out, and the state it leaves is a state of the program again. *)
Theorem handlers_never_raise (h : list pystr -> M world pystr)
  (args : list pystr) (w : world) :
  h ∈ modelled_handlers -> book_ok w ->
  exists msg w', h args w = (Returned msg, w') /\ book_ok w'.
Proof.
  intros Hh Hok. unfold modelled_handlers in Hh.
  assert (Hraise : forall (msg : pystr),
            triple book_ok (raise (A := pystr) (IndexError msg))
                   (fun _ w' => book_ok w')).
  { intros msg. apply triple_raise; [discriminate | tauto]. }
  repeat (apply elem_of_cons in Hh; destruct Hh as [-> | Hh]);
    [ .. | inversion Hh].
  - (* add_contact *)
    apply (triple_input_error book_ok); [ | exact Hok].
    destruct args as [ | nm [ | phone rest]]; try apply Hraise.
    eapply triple_bind; [apply triple_find | ]. intros found.
    eapply (triple_bind _ (fun rm w0 => book_ok w0 /\ holds_name w0 (fst rm) nm)).
    + destruct found as [l | ].
      * apply triple_ret. intros w0 (Hok0 & H & _).
        split; [exact Hok0 | apply H; reflexivity].
      * eapply triple_weaken; [ | apply triple_new_record].
        intros w0 (Hok0 & _ & H). split; [exact Hok0 | apply H; reflexivity].
    + intros [rcd message].
      eapply (triple_bind _ (fun _ w0 => book_ok w0)).
      * destruct phone as [ | c p].
        -- apply triple_ret. intros w0 [H _]. exact H.
        -- eapply triple_weaken;
             [ | apply (triple_on_record rcd nm (Rec.add_phone (c :: p)));
                 [apply add_phone_name | apply add_phone_no_dangling]].
           cbn. tauto.
      * intros u. apply triple_ret. auto.
  - (* change_contact *)
    apply (triple_input_error book_ok); [ | exact Hok].
    destruct args as [ | nm [ | old_phone [ | new_phone rest]]]; try apply Hraise.
    apply triple_find_then_method;
      [apply edit_phone_name | apply edit_phone_no_dangling].
  - (* delete_contact *)
    apply (triple_input_error book_ok); [ | exact Hok].
    destruct args as [ | nm rest]; [apply Hraise | ].
    eapply triple_bind; [apply triple_delete | ].
    intros u. apply triple_ret. auto.
  - (* add_birthday *)
    apply (triple_input_error book_ok); [ | exact Hok].
    destruct args as [ | nm [ | b rest]]; try apply Hraise.
    apply triple_find_then_method; intros r; apply add_birthday_facts.
  - (* change_birthday *)
    apply (triple_input_error book_ok); [ | exact Hok].
    destruct args as [ | nm [ | b rest]]; try apply Hraise.
    apply (triple_find_check_method nm birthday);
      [discriminate | intros r; apply add_birthday_facts
       | intros r; apply add_birthday_facts].
  - (* show_birthday *)
    apply (triple_input_error book_ok); [ | exact Hok].
    destruct args as [ | nm rest]; [apply Hraise | ].
    eapply triple_bind; [apply triple_find | ].
    intros [l | ]; [ | apply triple_raise; [discriminate | tauto]].
    eapply triple_bind.
    + eapply triple_weaken; [ | apply (triple_deref l nm)].
      intros w0 (Hok0 & H & _). split; [exact Hok0 | apply H; reflexivity].
    + intros r. destruct (birthday r); apply triple_ret; tauto.
  - (* add_email *)
    apply (triple_input_error book_ok); [ | exact Hok].
    destruct args as [ | nm [ | e rest]]; try apply Hraise.
    apply triple_find_then_method; intros r; apply add_email_facts.
  - (* change_email *)
    apply (triple_input_error book_ok); [ | exact Hok].
    destruct args as [ | nm [ | e rest]]; try apply Hraise.
    apply (triple_find_check_method nm email);
      [discriminate | intros r; apply edit_email_facts
       | intros r; apply edit_email_facts].
  - (* add_address *)
    apply (triple_input_error book_ok); [ | exact Hok].
    destruct args as [ | nm [ | a rest]]; try apply Hraise.
    apply triple_find_then_method; intros r; apply add_address_facts.
  - (* change_address *)
    apply (triple_input_error book_ok); [ | exact Hok].
    destruct args as [ | nm [ | a rest]]; try apply Hraise.
    apply (triple_find_check_method nm address);
      [discriminate | intros r; apply edit_address_facts
       | intros r; apply edit_address_facts].
Qed.
End HandlersSafe.

Lemma handlers_never_raise_witness :
  exists msg w',
    change_birthday (R := ascii_runtime) [py "Bob"; py "31.02.1999"] sample_world
    = (Returned msg, w') /\ book_ok w'.
Proof.
  apply (handlers_never_raise (R := ascii_runtime) change_birthday
           [py "Bob"; py "31.02.1999"] sample_world).
  - unfold modelled_handlers. do 4 apply list_elem_of_further.
    apply list_elem_of_here.
  - exact sample_world_ok.
Defined.

(* ===================================================================== *)
(** ** More properties: what the handlers answer and change *)
(* ===================================================================== *)

Local Arguments py : simpl never.

Lemma on_record_unchanged {A} (l : loc) (m : M record A) (w : world)
  (r : record) (o : outcome A) :
  heap w !! l = Some r -> m r = (o, r) -> on_record l m w = (o, w).
Proof.
  intros Hl Hm. unfold on_record. rewrite Hl, Hm.
  rewrite list_insert_id by exact Hl. destruct w; reflexivity.
Qed.

Section HandlerEffects.
Context {R : PyRuntime}.

(** X11: a new name with a valid phone: the answer is "Contact added." and
    the book gets, in last place, a new record of that name whose only
    field set is that one phone; nothing else changes. *)
Theorem add_contact_new_name (w : world) (nm phone : pystr)
  (rest : list pystr) :
  dict_get nm (data w) = None ->
  Phone.validate phone = true ->
  add_contact (nm :: phone :: rest) w
  = (Returned (py "Contact added."),
     mkWorld (heap w ++ [mkRecord nm [phone] None None None])
             (data w ++ [(nm, length (heap w))])).
Proof.
  intros Hget Hv.
  assert (Hne : exists c s, phone = c :: s).
  { destruct phone as [ | c s]; [discriminate Hv | eauto]. }
  destruct Hne as (c & s & ->).
  unfold add_contact, input_error, try_except, AddressBook.find, new_record,
    AddressBook.add_record, alloc, deref, on_record, Rec.add_phone,
    bind, lift, get, ret, put.
  rewrite Hget. cbn. rewrite lookup_app_r by lia. rewrite Nat.sub_diag. cbn.
  rewrite lookup_app_r by lia. rewrite Nat.sub_diag. cbn.
  rewrite phone_init_validate, Hv. cbn.
  rewrite (dict_set_fresh _ _ _ Hget).
  rewrite insert_app_r_alt by lia. rewrite Nat.sub_diag. reflexivity.
Qed.

(** X12: a phone that is not valid. For a name the book has, the answer is
    the error of the validation and nothing changes. For a new name
    the answer is the same error, but the record was created and added
    before the phone was looked at: the book now has that name, with a
    record without any phone. *)
Theorem add_contact_invalid_phone (w : world) (nm phone : pystr)
  (rest : list pystr) :
  phone <> [] -> Phone.validate phone = false ->
  (forall l r, dict_get nm (data w) = Some l -> heap w !! l = Some r ->
     add_contact (nm :: phone :: rest) w
     = (Returned (py
          "Error: Phone number must contain 10 digits. Use format like 0931112233."),
        w))
  /\ (dict_get nm (data w) = None ->
      add_contact (nm :: phone :: rest) w
      = (Returned (py
           "Error: Phone number must contain 10 digits. Use format like 0931112233."),
         mkWorld (heap w ++ [mkRecord nm [] None None None])
                 (data w ++ [(nm, length (heap w))]))).
Proof.
  intros Hne Hv. destruct phone as [ | c s]; [contradiction | ].
  assert (Hadd : forall r, Rec.add_phone (c :: s) r
    = (Raised (ValueError (py
         "Phone number must contain 10 digits. Use format like 0931112233.")), r)).
  { intros r. unfold Rec.add_phone, bind, lift.
    rewrite phone_init_validate, Hv. reflexivity. }
  split.
  - intros l r Hget Hl.
    unfold add_contact, input_error, try_except, AddressBook.find,
      bind, get, ret.
    rewrite Hget. rewrite (on_record_unchanged l _ w r _ Hl (Hadd r)).
    reflexivity.
  - intros Hget.
    unfold add_contact, input_error, try_except, AddressBook.find, new_record,
      AddressBook.add_record, alloc, deref, on_record, Rec.add_phone,
      bind, lift, get, ret, put.
    rewrite Hget. cbn. rewrite lookup_app_r by lia. rewrite Nat.sub_diag. cbn.
    rewrite lookup_app_r by lia. rewrite Nat.sub_diag. cbn.
    rewrite phone_init_validate, Hv. cbn.
    rewrite (dict_set_fresh _ _ _ Hget).
    rewrite insert_app_r_alt by lia. rewrite Nat.sub_diag. reflexivity.
Qed.

(** X13: with no argument at all, every modelled handler answers with its
    "Not enough arguments" usage line and changes nothing. *)
Theorem handlers_without_arguments (h : list pystr -> M world pystr)
  (w : world) :
  h ∈ modelled_handlers ->
  exists usage,
    h [] w = (Returned (py "Error: Not enough arguments. Usage: " ++ usage), w).
Proof.
  intros Hh. unfold modelled_handlers in Hh.
  repeat (apply elem_of_cons in Hh; destruct Hh as [-> | Hh]);
    [ .. | inversion Hh]; eexists; reflexivity.
Qed.


(** X15: the three "change" handlers of an optional field refuse to set a
    field that the contact does not have yet: the answer says to use
    the "add" command first, and nothing changes, even when the new
    value is valid. *)
Theorem change_requires_existing_value (w : world) (nm v : pystr)
  (rest : list pystr) (l : loc) (r : record) :
  dict_get nm (data w) = Some l -> heap w !! l = Some r ->
  (birthday r = None ->
   change_birthday (nm :: v :: rest) w
   = (Returned (py "Error: Contact '" ++ nm
                ++ py "' has no birthday. Use 'add birthday' first."), w))
  /\ (email r = None ->
      change_email (nm :: v :: rest) w
      = (Returned (py "Error: Contact '" ++ nm
                   ++ py "' has no email. Use 'add email' first."), w))
  /\ (address r = None ->
      change_address (nm :: v :: rest) w
      = (Returned (py "Error: Contact '" ++ nm
                   ++ py "' has no address. Use 'add address' first."), w)).
Proof.
  intros Hget Hl.
  repeat split; intros Hnone;
    unfold change_birthday, change_email, change_address, input_error,
      try_except, AddressBook.find, deref, bind, get, ret, raise;
    rewrite Hget, Hl, Hnone; reflexivity.
Qed.

(** X16: [change_contact] on a contact of the book. When no phone of the
    record is [old_phone], or [new_phone] is not valid, the answer is
    the error and nothing changes; otherwise the answer is "Contact
    updated." and, in the same record object, the first phone equal to
    [old_phone] is replaced where it stands. *)
Theorem change_contact_effect (w : world) (nm old_phone new_phone : pystr)
  (rest : list pystr) (l : loc) (r : record) :
  dict_get nm (data w) = Some l -> heap w !! l = Some r ->
  ((old_phone ∉ phones r) ->
   change_contact (nm :: old_phone :: new_phone :: rest) w
   = (Returned (py "Error: Phone number " ++ old_phone ++ py " not found"), w))
  /\ ((old_phone ∈ phones r) -> Phone.validate new_phone = false ->
      change_contact (nm :: old_phone :: new_phone :: rest) w
      = (Returned (py
           "Error: New phone number must contain 10 digits. Use format like 0931112233."),
         w))
  /\ (forall i, phones r !! i = Some old_phone ->
        (forall j, (j < i)%nat -> phones r !! j <> Some old_phone) ->
        Phone.validate new_phone = true ->
        change_contact (nm :: old_phone :: new_phone :: rest) w
        = (Returned (py "Contact updated."),
           mkWorld (<[l := set_phones (<[i := new_phone]> (phones r)) r]> (heap w))
                   (data w))).
Proof.
  intros Hget Hl.
  assert (Hrun : change_contact (nm :: old_phone :: new_phone :: rest) w
    = match on_record l (Rec.edit_phone old_phone new_phone) w with
      | (Returned _, w') => (Returned (py "Contact updated."), w')
      | (Raised (ValueError msg), w') => (Returned (py "Error: " ++ msg), w')
      | (Raised (KeyError msg), w') => (Returned (py "Error: " ++ repr msg), w')
      | (Raised (IndexError msg), w') => (Returned (py "Error: " ++ msg), w')
      | (Raised (OverflowError msg), w') =>
          (Returned (py "Unexpected error: " ++ msg), w')
      | (Raised Dangling, w') => (Raised Dangling, w')
      end).
  { unfold change_contact, input_error, try_except, AddressBook.find,
      bind, get, ret, raise.
    rewrite Hget.
    destruct (on_record l (Rec.edit_phone old_phone new_phone) w)
      as [[[] | []] w']; reflexivity. }
  rewrite Hrun. clear Hrun.
  split; [ | split].
  - intros Hnot. apply find_index_None in Hnot.
    rewrite (on_record_unchanged l _ w r
               (Raised (ValueError (py "Phone number " ++ old_phone
                                    ++ py " not found"))) Hl);
      [reflexivity | ].
    unfold Rec.edit_phone, Rec.find_phone, bind, get, ret, raise.
    rewrite Hnot. reflexivity.
  - intros Hin Hv.
    rewrite (on_record_unchanged l _ w r
               (Raised (ValueError (py
                  "New phone number must contain 10 digits. Use format like 0931112233.")))
               Hl); [reflexivity | ].
    unfold Rec.edit_phone, Rec.find_phone, bind, get, ret, raise.
    destruct (Rec.find_index old_phone (phones r)) eqn:Hf.
    + rewrite Hv. reflexivity.
    + apply find_index_None in Hf. contradiction.
  - intros i Hi Hfirst Hv.
    assert (Hf : Rec.find_index old_phone (phones r) = Some i).
    { destruct (Rec.find_index old_phone (phones r)) as [k | ] eqn:Hf.
      - destruct (find_index_Some _ _ _ Hf) as [Hk Hkfirst].
        f_equal. destruct (Nat.lt_trichotomy k i) as [Hlt | [Heq | Hgt]].
        + exfalso. exact (Hfirst k Hlt Hk).
        + exact Heq.
        + exfalso. exact (Hkfirst i Hgt Hi).
      - apply find_index_None in Hf. exfalso. apply Hf.
        eapply list_elem_of_lookup_2. exact Hi. }
    unfold on_record, Rec.edit_phone, Rec.find_phone, bind, get, ret, put, lift.
    rewrite Hl, Hf, Hv, phone_init_validate, Hv. reflexivity.
Qed.


Lemma join_head (a : pystr) (rest : list pystr) :
  exists s, join (py " ") (a :: rest) = a ++ s.
Proof.
  destruct rest as [ | b rest]; cbn [join].
  - exists []. rewrite app_nil_r. reflexivity.
  - eexists. reflexivity.
Qed.

(** X18: "add address" takes all the words after the name: for a contact of
    the book and at least one word, the address kept is the words
    joined by single spaces, the answer is "Address added.", and the
    validation of the address cannot fail. *)
Theorem add_address_joins_words (w : world) (nm a : pystr)
  (rest : list pystr) (l : loc) (r : record) :
  dict_get nm (data w) = Some l -> heap w !! l = Some r -> token a ->
  add_address (nm :: a :: rest) w
  = (Returned (py "Address added."),
     mkWorld (<[l := set_address (Some (join (py " ") (a :: rest))) r]> (heap w))
             (data w)).
Proof.
  intros Hget Hl [Hne Hns].
  assert (Hv : Address.validate (join (py " ") (a :: rest)) = true).
  { apply address_validate_iff. destruct (join_head a rest) as [s ->].
    destruct a as [ | c a']; [contradiction | ].
    apply Exists_cons_hd. inversion Hns; assumption. }
  unfold add_address, input_error, try_except, AddressBook.find, on_record,
    Rec.add_address, Address.init, bind, lift, get, ret, put.
  rewrite Hget, Hl, Hv. reflexivity.
Qed.
End HandlerEffects.

Lemma add_contact_new_name_witness :
  add_contact (R := ascii_runtime) [py "Zed"; py "0440000000"] sample_world
  = (Returned (py "Contact added."),
     mkWorld (heap sample_world
              ++ [mkRecord (py "Zed") [py "0440000000"] None None None])
             (data sample_world ++ [(py "Zed", length (heap sample_world))])).
Proof.
  apply (add_contact_new_name (R := ascii_runtime) sample_world
           (py "Zed") (py "0440000000") []); reflexivity.
Defined.

Lemma add_contact_invalid_phone_witness :
  (forall l r, dict_get (py "Zed") (data sample_world) = Some l ->
     heap sample_world !! l = Some r ->
     add_contact (R := ascii_runtime) [py "Zed"; py "12345"] sample_world
     = (Returned (py
          "Error: Phone number must contain 10 digits. Use format like 0931112233."),
        sample_world))
  /\ (dict_get (py "Zed") (data sample_world) = None ->
      add_contact (R := ascii_runtime) [py "Zed"; py "12345"] sample_world
      = (Returned (py
           "Error: Phone number must contain 10 digits. Use format like 0931112233."),
         mkWorld (heap sample_world ++ [mkRecord (py "Zed") [] None None None])
                 (data sample_world
                  ++ [(py "Zed", length (heap sample_world))]))).
Proof.
  apply (add_contact_invalid_phone (R := ascii_runtime) sample_world
           (py "Zed") (py "12345") []).
  - discriminate.
  - reflexivity.
Defined.

Lemma handlers_without_arguments_witness :
  exists usage,
    delete_contact (R := ascii_runtime) [] sample_world
    = (Returned (py "Error: Not enough arguments. Usage: " ++ usage),
       sample_world).
Proof.
  apply (handlers_without_arguments (R := ascii_runtime) delete_contact
           sample_world).
  unfold modelled_handlers. do 2 apply list_elem_of_further.
  apply list_elem_of_here.
Defined.


Lemma change_requires_existing_value_witness :
  (birthday bob = None ->
   change_birthday (R := ascii_runtime) [py "Bob"; py "a@b.co"] sample_world
   = (Returned (py "Error: Contact '" ++ py "Bob"
                ++ py "' has no birthday. Use 'add birthday' first."),
      sample_world))
  /\ (email bob = None ->
      change_email (R := ascii_runtime) [py "Bob"; py "a@b.co"] sample_world
      = (Returned (py "Error: Contact '" ++ py "Bob"
                   ++ py "' has no email. Use 'add email' first."),
         sample_world))
  /\ (address bob = None ->
      change_address (R := ascii_runtime) [py "Bob"; py "a@b.co"] sample_world
      = (Returned (py "Error: Contact '" ++ py "Bob"
                   ++ py "' has no address. Use 'add address' first."),
         sample_world)).
Proof.
  apply (change_requires_existing_value (R := ascii_runtime) sample_world
           (py "Bob") (py "a@b.co") [] 0%nat bob); reflexivity.
Defined.

Lemma change_contact_effect_witness :
  ((py "0501234567" ∉ phones ann) ->
   change_contact (R := ascii_runtime)
     [py "Ann"; py "0501234567"; py "0990000002"] sample_world
   = (Returned (py "Error: Phone number " ++ py "0501234567" ++ py " not found"),
      sample_world))
  /\ ((py "0501234567" ∈ phones ann) ->
      Phone.validate (py "0990000002") = false ->
      change_contact (R := ascii_runtime)
        [py "Ann"; py "0501234567"; py "0990000002"] sample_world
      = (Returned (py
           "Error: New phone number must contain 10 digits. Use format like 0931112233."),
         sample_world))
  /\ (forall i, phones ann !! i = Some (py "0501234567") ->
        (forall j, (j < i)%nat -> phones ann !! j <> Some (py "0501234567")) ->
        Phone.validate (py "0990000002") = true ->
        change_contact (R := ascii_runtime)
          [py "Ann"; py "0501234567"; py "0990000002"] sample_world
        = (Returned (py "Contact updated."),
           mkWorld (<[1%nat := set_phones (<[i := py "0990000002"]> (phones ann))
                                 ann]> (heap sample_world))
                   (data sample_world))).
Proof.
  apply (change_contact_effect (R := ascii_runtime) sample_world (py "Ann")
           (py "0501234567") (py "0990000002") [] 1%nat ann); reflexivity.
Defined.


Lemma add_address_joins_words_witness :
  add_address (R := ascii_runtime) [py "Bob"; py "1"; py "Main"; py "St"]
    sample_world
  = (Returned (py "Address added."),
     mkWorld (<[0%nat := set_address
                           (Some (join (py " ") [py "1"; py "Main"; py "St"]))
                           bob]> (heap sample_world))
             (data sample_world)).
Proof.
  apply (add_address_joins_words (R := ascii_runtime) sample_world (py "Bob")
           (py "1") [py "Main"; py "St"] 0%nat bob); try reflexivity.
  split; [discriminate | repeat constructor].
Defined.

(* ===================================================================== *)
(** ** More properties: reading a command line *)
(* ===================================================================== *)

Lemma split_from_tokens (cur s : pystr) :
  Forall (fun c => char_isspace c = false) cur ->
  Forall token (split_from cur s).
Proof.
  revert cur. induction s as [ | c s IH]; intros cur Hcur; cbn [split_from].
  - destruct cur as [ | x cur']; [constructor | ].
    constructor; [split; [discriminate | exact Hcur] | constructor].
  - destruct (char_isspace c) eqn:E.
    + destruct cur as [ | x cur']; [apply IH; constructor | ].
      constructor; [split; [discriminate | exact Hcur] | apply IH; constructor].
    + apply IH. apply Forall_app. split; [exact Hcur | ].
      repeat constructor. exact E.
Qed.

Lemma split_from_space (s : pystr) :
  Forall (fun c => char_isspace c = true) s -> split_from [] s = [].
Proof.
  induction 1 as [ | c s Hc _ IH]; cbn [split_from]; [reflexivity | ].
  rewrite Hc. exact IH.
Qed.

Lemma split_from_word (cur t s : pystr) :
  Forall (fun c => char_isspace c = false) t ->
  split_from cur (t ++ s) = split_from (cur ++ t) s.
Proof.
  intros Ht. revert cur. induction Ht as [ | c t Hc _ IH]; intros cur; cbn [app].
  - rewrite app_nil_r. reflexivity.
  - cbn [split_from]. rewrite Hc, IH, <- app_assoc. reflexivity.
Qed.

(** Words joined by single spaces are split into the same words. *)
Lemma split_join (toks : list pystr) :
  Forall token toks -> split (join (py " ") toks) = toks.
Proof.
  unfold split. induction 1 as [ | t toks [Hne Ht] Htoks IH]; [reflexivity | ].
  destruct toks as [ | t' toks'].
  - cbn [join]. rewrite <- (app_nil_r t) at 1.
    rewrite split_from_word by exact Ht. cbn.
    destruct t; [contradiction | reflexivity].
  - change (join (py " ") (t :: t' :: toks'))
      with (t ++ 32%N :: join (py " ") (t' :: toks')).
    rewrite split_from_word by exact Ht. cbn [app split_from].
    change (char_isspace 32%N) with true. cbn iota.
    destruct t; [contradiction | ]. rewrite IH. reflexivity.
Qed.

Section ParseInput.
Context {R : PyRuntime}.

(** X19: every argument that [parse_input] returns is a word: it is not
    empty and has no white space in it, whatever was typed; and a line
    of white space only, or the empty line, gives the empty command
    with no argument. *)
Theorem parse_input_arguments (user_input : pystr) :
  Forall token (snd (parse_input user_input))
  /\ (Forall (fun c => char_isspace c = true) user_input ->
      parse_input user_input = ([], [])).
Proof.
  unfold parse_input, split. split.
  - pose proof (split_from_tokens [] user_input ltac:(constructor)) as H.
    destruct (split_from [] user_input) as [ | p0 [ | p1 rest]];
      [constructor | constructor | ].
    inversion H as [ | ? ? H0 H1]; subst. cbv zeta.
    match goal with
    | |- context [if ?b then _ else _] => destruct b
    end; cbn [snd]; [ | exact H1].
    inversion H1; assumption.
  - intros Hs. rewrite (split_from_space _ Hs). reflexivity.
Qed.

(** X20: a line made of words separated by single spaces is read back into
    those words: when the first two words, lowered, are a two-word
    command, that is the command and the other words are the
    arguments, unchanged and in order. *)
Theorem parse_input_two_word_command (p0 p1 cmd : pystr)
  (args : list pystr) :
  Forall token (p0 :: p1 :: args) ->
  lower (p0 ++ py " " ++ p1) = cmd ->
  cmd ∈ TWO_WORD_COMMANDS ->
  parse_input (join (py " ") (p0 :: p1 :: args)) = (cmd, args).
Proof.
  intros Htok Hlow Hin. unfold parse_input.
  rewrite (split_join _ Htok). rewrite Hlow.
  replace (existsb (fun c => bool_decide (cmd = c)) TWO_WORD_COMMANDS)
    with true; [reflexivity | ].
  symmetry. apply existsb_exists. exists cmd.
  split; [apply list_elem_of_In, Hin | apply bool_decide_eq_true_2; reflexivity].
Qed.
End ParseInput.

Lemma parse_input_two_word_command_witness :
  parse_input (R := ascii_runtime)
    (join (py " ") [py "Add"; py "CONTACT"; py "Ann"; py "0931112233"])
  = (py "add contact", [py "Ann"; py "0931112233"]).
Proof.
  apply (parse_input_two_word_command (R := ascii_runtime)
           (py "Add") (py "CONTACT") (py "add contact")
           [py "Ann"; py "0931112233"]).
  - repeat constructor; discriminate.
  - reflexivity.
  - unfold TWO_WORD_COMMANDS. apply list_elem_of_further, list_elem_of_here.
Defined.

(* ===================================================================== *)
(** ** More properties: saving and loading *)
(* ===================================================================== *)

Lemma dict_set_elem (k0 k : pystr) (v l : loc) (d : list (pystr * loc)) :
  NoDup (List.map fst d) ->
  (k, l) ∈ dict_set k0 v d ->
  (k = k0 /\ l = v) \/ ((k, l) ∈ d /\ k <> k0).
Proof.
  induction d as [ | [k' v'] d IH]; cbn; intros Hnd.
  - intros H. apply list_elem_of_singleton in H. inversion H. left. tauto.
  - apply NoDup_cons in Hnd. destruct Hnd as [Hk' Hnd].
    case_bool_decide as Hk.
    + subst k'. intros H. apply elem_of_cons in H. destruct H as [H | H].
      * inversion H; subst. left. tauto.
      * right. split; [apply list_elem_of_further, H | ].
        intros ->. apply Hk'. apply list_elem_of_fmap.
        exists (k0, l). split; [reflexivity | exact H].
    + intros H. apply elem_of_cons in H. destruct H as [H | H].
      * inversion H; subst. right. split; [apply list_elem_of_here | exact Hk].
      * destruct (IH Hnd H) as [Hl | [Hin Hne]]; [left; exact Hl | ].
        right. split; [apply list_elem_of_further, Hin | exact Hne].
Qed.

(** A new record object put in the book under its name, whether the
    book had that name or not. *)
Lemma add_allocated_book_ok (w : world) (r : record) :
  book_ok w ->
  book_ok (mkWorld (heap w ++ [r])
                   (dict_set (name r) (length (heap w)) (data w))).
Proof.
  intros [Hrefs Hkeys]. split; cbn.
  - intros k l Hin.
    destruct (dict_set_elem _ _ _ _ _ Hkeys Hin) as [[-> ->] | [Hin' _]].
    + exists r. split; [ | reflexivity].
      rewrite lookup_app_r by lia. rewrite Nat.sub_diag. reflexivity.
    + destruct (Hrefs k l Hin') as (r' & Hr' & Hn). exists r'.
      split; [ | exact Hn]. rewrite lookup_app_l; [exact Hr' | ].
      eapply lookup_lt_Some. exact Hr'.
  - rewrite dict_set_names. case_bool_decide as Hin; [exact Hkeys | ].
    apply NoDup_app. split; [exact Hkeys | ].
    split; [ | apply NoDup_singleton].
    intros k Hk Hk'. apply list_elem_of_singleton in Hk'. subst k.
    exact (Hin Hk).
Qed.

Lemma records_of_cons (w : world) (k : pystr) (l : loc)
  (d : list (pystr * loc)) :
  records_of w ((k, l) :: d)
  = match heap w !! l with
    | Some r => (l, r) :: records_of w d
    | None => records_of w d
    end.
Proof. unfold records_of. cbn. destruct (heap w !! l); reflexivity. Qed.

Lemma records_of_loaded (pre rs : list record) (d : list (pystr * loc)) :
  List.map snd
    (records_of (mkWorld (pre ++ rs) d)
       (combine (List.map name rs) (seq (length pre) (length rs))))
  = rs.
Proof.
  revert pre. induction rs as [ | r rs IH]; intros pre; [reflexivity | ].
  cbn [List.map length seq combine]. rewrite records_of_cons. cbn [heap].
  rewrite lookup_app_r by lia. rewrite Nat.sub_diag. cbn [lookup list_lookup].
  cbn [List.map snd]. f_equal. specialize (IH (pre ++ [r])).
  rewrite <- app_assoc, length_app in IH. cbn [length app] in IH.
  rewrite Nat.add_1_r in IH. exact IH.
Qed.

Lemma combine_names (names : list pystr) (n : nat) :
  List.map fst (combine names (seq n (length names))) = names.
Proof.
  revert n. induction names as [ | k names IH]; intros n; [reflexivity | ].
  cbn. rewrite IH. reflexivity.
Qed.

Lemma book_records_names (w : world) :
  book_ok w -> List.map name (book_records w) = book_names w.
Proof.
  intros [Hrefs _]. unfold book_records, book_names, records_of.
  revert Hrefs. generalize (data w) as d.
  induction d as [ | [k l] d IH]; intros Hrefs; [reflexivity | ].
  destruct (Hrefs k l) as (r & Hr & Hn); [apply list_elem_of_here | ].
  cbn. rewrite Hr. cbn. rewrite Hn. f_equal. apply IH.
  intros k' l' Hin. apply Hrefs. apply list_elem_of_further, Hin.
Qed.

Section PersistenceProperties.
Context {R : PyRuntime}.

Lemma load_step (record_dict : portable) (rest : list portable) (w : world) :
  load_records (record_dict :: rest) w
  = match Rec.from_dict record_dict with
    | Raised e => (Raised e, w)
    | Returned r =>
        load_records rest
          (mkWorld (heap w ++ [r])
                   (dict_set (name r) (length (heap w)) (data w)))
    end.
Proof.
  cbn [load_records]. unfold AddressBook.add_record, bind, lift, alloc, deref.
  destruct (Rec.from_dict record_dict) as [e | r]; [reflexivity | ].
  cbn [heap data]. rewrite lookup_app_r by lia. rewrite Nat.sub_diag.
  reflexivity.
Qed.

Lemma load_records_book_ok (data_list : list portable) (w : world) :
  book_ok w -> book_ok (snd (load_records data_list w)).
Proof.
  revert w. induction data_list as [ | d rest IH]; intros w Hok; [exact Hok | ].
  rewrite load_step. destruct (Rec.from_dict d) as [e | r]; [exact Hok | ].
  apply IH. apply add_allocated_book_ok. exact Hok.
Qed.

(** X21: whatever is in the file, [load_data] returns a well-formed book: no
    name twice, every name leading to the record of that name. A name
    that the file has twice is kept once, with the record read last. *)
Theorem load_data_book_ok (f : file_content) : book_ok (load_data f).
Proof.
  destruct f as [ | | data_list]; cbn; try apply book_ok_empty.
  pose proof (load_records_book_ok data_list _ book_ok_empty) as H.
  destruct (load_records data_list _) as [[e | []] w];
    [apply book_ok_empty | exact H].
Qed.

(** X22: one stored record that [from_dict] refuses is enough for
    [load_data] to give up the whole file: the book returned is empty,
    and the records read before the bad one are not kept. *)
Theorem load_data_all_or_nothing (data_list : list portable)
  (d : portable) (e : exn) :
  d ∈ data_list -> Rec.from_dict d = Raised e ->
  load_data (Json data_list) = mkWorld [] [].
Proof.
  intros Hin Hbad. unfold load_data.
  assert (H : forall w, exists e' w', load_records data_list w = (Raised e', w')).
  { induction data_list as [ | x rest IH]; intros w; [inversion Hin | ].
    rewrite load_step. apply elem_of_cons in Hin.
    destruct Hin as [<- | Hin].
    - rewrite Hbad. eauto.
    - destruct (Rec.from_dict x) as [e' | r]; [eauto | ]. apply IH, Hin. }
  destruct (H (mkWorld [] [])) as (e' & w' & ->). reflexivity.
Qed.

Context {L : PyRuntimeLaws R}.

Lemma from_dict_of_to_dict (r : record) :
  record_ok r -> Rec.from_dict (Rec.to_dict r) = Returned r.
Proof.
  intros [Hp He Ha Hb].
  unfold Rec.from_dict, Rec.to_dict, Rec.fill, Rec.init, Name.init.
  cbn [p_name p_phones p_email p_address p_birthday obind default].
  unfold bind at 1. rewrite (add_phones_valid _ _ Hp). cbn [phones app].
  unfold bind at 1.
  destruct r as [nm ps em ad bd]; cbn in *.
  assert (Hem : forall r0 : record,
    match truthy em with
    | Some e => Rec.add_email e
    | None => ret tt
    end r0 = (Returned tt, set_email (match em with
                                      | Some e => Some e
                                      | None => email r0 end) r0)).
  { intros r0. destruct em as [e | ].
    - destruct (He e eq_refl) as [raw Hraw].
      destruct (email_init_stable _ _ Hraw) as [Hi Hv].
      rewrite (email_validate_nonempty _ Hv).
      unfold Rec.add_email, bind, lift, get, put. rewrite Hi. reflexivity.
    - destruct r0; reflexivity. }
  rewrite Hem. unfold bind at 1.
  assert (Had : forall r0 : record,
    match truthy ad with
    | Some a => Rec.add_address a
    | None => ret tt
    end r0 = (Returned tt, set_address (match ad with
                                        | Some a => Some a
                                        | None => address r0 end) r0)).
  { intros r0. destruct ad as [a | ].
    - rewrite (address_truthy _ (Ha a eq_refl)).
      unfold Rec.add_address, bind, lift, get, put.
      rewrite (address_init_valid _ (Ha a eq_refl)). reflexivity.
    - destruct r0; reflexivity. }
  rewrite Had.
  destruct bd as [b | ]; cbn [option_map].
  - rewrite strftime_truthy.
    unfold Rec.add_birthday, bind, lift, get, put.
    rewrite (birthday_init_strftime _ (Hb b eq_refl)). cbn.
    destruct em, ad; reflexivity.
  - cbn. destruct em, ad; reflexivity.
Qed.

Lemma load_records_saved (rs : list record) (w : world) :
  Forall record_ok rs ->
  NoDup (List.map name rs) ->
  (forall r, r ∈ rs -> name r ∉ List.map fst (data w)) ->
  load_records (List.map Rec.to_dict rs) w
  = (Returned tt,
     mkWorld (heap w ++ rs)
             (data w ++ combine (List.map name rs)
                          (seq (length (heap w)) (length rs)))).
Proof.
  intros Hok. revert w. induction Hok as [ | r rs Hr _ IH]; intros w Hnd Hfresh.
  - cbn. unfold ret. rewrite !app_nil_r. destruct w; reflexivity.
  - cbn [List.map]. rewrite load_step, (from_dict_of_to_dict r Hr).
    cbn [List.map] in Hnd. apply NoDup_cons in Hnd. destruct Hnd as [Hr' Hnd].
    assert (Hnone : dict_get (name r) (data w) = None).
    { apply dict_get_None. apply Hfresh. apply list_elem_of_here. }
    rewrite (dict_set_fresh _ _ _ Hnone).
    rewrite IH; [ | exact Hnd | ].
    + cbn [heap data length seq combine List.map].
      rewrite length_app, Nat.add_1_r, <- !app_assoc. reflexivity.
    + intros r' Hin. cbn [data]. rewrite List.map_app.
      intros H. apply elem_of_app in H. destruct H as [H | H].
      * apply (Hfresh r'); [apply list_elem_of_further, Hin | exact H].
      * cbn in H. apply list_elem_of_singleton in H. apply Hr'.
        rewrite <- H. apply list_elem_of_fmap. exists r'. split; [reflexivity | exact Hin].
Qed.

End PersistenceProperties.

Lemma bob_ok : record_ok (R := ascii_runtime) bob.
Proof.
  split; cbn.
  - repeat constructor.
  - discriminate.
  - discriminate.
  - intros b H. inversion H; subst.
    repeat split; apply Z.leb_le; reflexivity.
Qed.

Lemma sample_records_ok :
  Forall (record_ok (R := ascii_runtime)) (book_records sample_world).
Proof.
  change (book_records sample_world) with [bob; ann].
  constructor; [exact bob_ok | ]. constructor; [exact ann_ok | constructor].
Qed.


Lemma load_data_all_or_nothing_witness :
  load_data (R := ascii_runtime) (Json [Rec.to_dict ann; bad_dict])
  = mkWorld [] [].
Proof.
  apply (load_data_all_or_nothing (R := ascii_runtime)
           [Rec.to_dict ann; bad_dict] bad_dict
           (ValueError (py
              "Phone number must contain 10 digits. Use format like 0931112233."))).
  - apply list_elem_of_further, list_elem_of_here.
  - reflexivity.
Defined.

(* ===================================================================== *)
(** ** More properties: the birthday query finds every birthday *)
(* ===================================================================== *)

Lemma values_elem (w : world) (d : list (pystr * loc))
  (rs : list (loc * record)) (k : pystr) (l : loc) (r : record) :
  values d w = (Returned rs, w) -> (k, l) ∈ d -> heap w !! l = Some r ->
  (l, r) ∈ rs.
Proof.
  revert rs. induction d as [ | [k' l'] d IH]; intros rs Hvals Hin Hl;
    [inversion Hin | ].
  cbn in Hvals. unfold bind, deref, ret in Hvals.
  destruct (heap w !! l') as [r' | ] eqn:Hr'; [ | discriminate].
  pose proof (values_state w d) as Hst.
  destruct (values d w) as [[e | rs'] w1]; [discriminate | ].
  cbn in Hst. subst w1. inversion Hvals; subst rs.
  apply elem_of_cons in Hin. destruct Hin as [Heq | Hin].
  - inversion Heq; subst. rewrite Hl in Hr'. inversion Hr'; subst.
    apply list_elem_of_here.
  - apply list_elem_of_further. apply IH; [reflexivity | exact Hin | exact Hl].
Qed.

Lemma date_eqb_refl (d : date) : date_eqb d d = true.
Proof. unfold date_eqb. rewrite !Z.eqb_refl. reflexivity. Qed.

Lemma birthday_step_extends (today target : date) (r : record)
  (acc acc' : list entry) :
  AddressBook.birthday_step today target r acc = Returned acc' ->
  exists ext, acc' = acc ++ ext.
Proof.
  unfold AddressBook.birthday_step.
  destruct (birthday r) as [bday | ];
    [ | intros H; inversion H; exists []; rewrite app_nil_r; reflexivity].
  destruct (replace_year bday (year today)) as [ | ty]; [discriminate | ].
  cbn [obind].
  destruct (if date_ltb ty today then _ else _) as [ | occ]; [discriminate | ].
  cbn [obind]. destruct (date_eqb occ target);
    [ | intros H; inversion H; exists []; rewrite app_nil_r; reflexivity].
  destruct (if weekday occ =? 5 then _ else _) as [ | d]; [discriminate | ].
  cbn. intros H. inversion H. eexists. reflexivity.
Qed.

Lemma birthday_loop_extends (today target : date) (rs : list (loc * record))
  (acc acc' : list entry) :
  AddressBook.birthday_loop today target rs acc = Returned acc' ->
  exists ext, acc' = acc ++ ext.
Proof.
  revert acc. induction rs as [ | [l r] rs IH]; intros acc; cbn.
  - intros H. inversion H. exists []. rewrite app_nil_r. reflexivity.
  - destruct (AddressBook.birthday_step today target r acc) as [ | mid] eqn:Es;
      [discriminate | ].
    cbn. intros H. destruct (birthday_step_extends _ _ _ _ _ Es) as [e1 ->].
    destruct (IH _ H) as [e2 ->]. exists (e1 ++ e2). rewrite app_assoc.
    reflexivity.
Qed.

Lemma birthday_step_hit (today target bday : date) (r : record)
  (acc acc' : list entry) :
  birthday r = Some bday -> next_occurrence today bday target ->
  AddressBook.birthday_step today target r acc = Returned acc' ->
  exists e, acc' = acc ++ [e] /\ entry_name e = name r.
Proof.
  intros Hb (Hm & Hd & _ & Hcase). unfold AddressBook.birthday_step, replace_year.
  rewrite Hb.
  destruct (new_date (year today) (month bday) (day bday)) as [ | ty] eqn:Ety;
    [discriminate | ].
  apply new_date_inv in Ety. destruct Ety as [-> _]. cbn [obind month day].
  assert (Hocc : (if date_ltb (mkDate (year today) (month bday) (day bday)) today
                  then new_date (year today + 1) (month bday) (day bday)
                  else Returned (mkDate (year today) (month bday) (day bday)))
                 = Returned target
                 \/ exists e, (if date_ltb (mkDate (year today) (month bday) (day bday)) today
                               then new_date (year today + 1) (month bday) (day bday)
                               else Returned (mkDate (year today) (month bday) (day bday)))
                              = Raised e).
  { destruct Hcase as [[Hy Hlt] | [Hy Hlt]].
    - assert (Heq : target = mkDate (year today) (month bday) (day bday)).
      { destruct target; cbn in *. congruence. }
      rewrite <- Heq, Hlt. left. congruence.
    - rewrite Hlt.
      destruct (new_date (year today + 1) (month bday) (day bday)) as [e | ny] eqn:En;
        [right; eauto | ].
      apply new_date_inv in En. destruct En as [-> _]. left. f_equal.
      destruct target; cbn in *. congruence. }
  destruct Hocc as [-> | [e ->]]; [ | discriminate].
  cbn [obind]. rewrite date_eqb_refl.
  destruct (if weekday target =? 5 then _ else _) as [ | d]; [discriminate | ].
  cbn. intros H. inversion H. eexists. split; reflexivity.
Qed.

Lemma insert_by_name_elem (x e : entry) (l : list entry) :
  e ∈ l \/ e = x -> e ∈ insert_by_name x l.
Proof.
  induction l as [ | y l IH]; cbn.
  - intros [H | ->]; [inversion H | apply list_elem_of_here].
  - destruct (str_ltb (entry_name x) (entry_name y)).
    + intros [H | ->]; [apply list_elem_of_further, H | apply list_elem_of_here].
    + intros [H | ->].
      * apply elem_of_cons in H. destruct H as [-> | H];
          [apply list_elem_of_here | apply list_elem_of_further, IH; left; exact H].
      * apply list_elem_of_further, IH. right. reflexivity.
Qed.

Lemma sort_by_name_elem (e : entry) (l : list entry) :
  e ∈ l -> e ∈ sort_by_name l.
Proof.
  unfold sort_by_name.
  assert (H : forall acc, e ∈ acc \/ e ∈ l ->
            e ∈ fold_left (fun acc x => insert_by_name x acc) l acc).
  { induction l as [ | x l IH]; intros acc; cbn.
    - intros [H | H]; [exact H | inversion H].
    - intros [H | H]; apply IH.
      + left. apply insert_by_name_elem. left. exact H.
      + apply elem_of_cons in H. destruct H as [-> | H]; [ | right; exact H].
        left. apply insert_by_name_elem. right. reflexivity. }
  intros He. apply H. right. exact He.
Qed.

(** X24: the query misses nobody: when it returns, every record of the book
    whose birthday next occurs on [today] plus [days] days has an entry
    of its name in the result. *)
Theorem get_birthdays_in_days_complete
  (today : date) (days : Z) (w w' : world) (result : list entry)
  (k : pystr) (l : loc) (r : record) (bday occ : date) :
  AddressBook.get_birthdays_in_days today days w = (Returned result, w') ->
  (k, l) ∈ data w -> heap w !! l = Some r -> birthday r = Some bday ->
  next_occurrence today bday occ -> add_days today days = Returned occ ->
  exists e, e ∈ result /\ entry_name e = name r.
Proof.
  intros Hrun Hin Hl Hb Hocc Htarget. revert Hrun.
  unfold AddressBook.get_birthdays_in_days.
  destruct (days <? 0); [discriminate | ].
  unfold bind, lift, get, ret. rewrite Htarget.
  pose proof (values_state w (data w)) as Hst.
  destruct (values (data w) w) as [[ | rs] w1] eqn:Hvals; [discriminate | ].
  cbn in Hst. subst w1.
  pose proof (values_elem _ _ _ _ _ _ Hvals Hin Hl) as Hrs.
  destruct (AddressBook.birthday_loop today occ rs []) as [ | res] eqn:Hloop;
    [discriminate | ].
  intros H. inversion H; subst.
  assert (Hres : forall acc, AddressBook.birthday_loop today occ rs acc = Returned res ->
            exists e, e ∈ res /\ entry_name e = name r).
  { clear Hloop Hvals H. induction rs as [ | [l' r'] rs IH]; intros acc;
      [inversion Hrs | ].
    cbn. destruct (AddressBook.birthday_step today occ r' acc) as [ | mid] eqn:Es;
      [discriminate | ].
    cbn. intros Hl'. apply elem_of_cons in Hrs. destruct Hrs as [Heq | Hrs].
    - inversion Heq; subst.
      destruct (birthday_step_hit _ _ _ _ _ _ Hb Hocc Es) as (e & -> & He).
      destruct (birthday_loop_extends _ _ _ _ _ Hl') as [ext ->].
      exists e. split; [ | exact He].
      apply elem_of_app. left. apply elem_of_app. right. apply list_elem_of_here.
    - apply (IH Hrs mid Hl'). }
  destruct (Hres [] Hloop) as (e & He & Hn).
  exists e. split; [apply sort_by_name_elem, He | exact Hn].
Qed.

Lemma get_birthdays_in_days_complete_witness :
  exists e,
    e ∈ [mkEntry (py "Ann") (py "09.11.2026"); mkEntry (py "Zoe") (py "09.11.2026")]
    /\ entry_name e = name zoe.
Proof.
  apply (get_birthdays_in_days_complete (mkDate 2026 11 3) 4
           birthday_world birthday_world _ (py "Zoe") 0%nat zoe
           (mkDate 2001 11 7) (mkDate 2026 11 7)).
  - vm_compute. reflexivity.
  - apply list_elem_of_here.
  - reflexivity.
  - reflexivity.
  - repeat split; try (apply Z.leb_le; reflexivity).
    left. split; reflexivity.
  - vm_compute. reflexivity.
Defined.

(** Evaluations with their hypotheses checked: the query returns on the
    sample book, and raises on the book with a record born on
    29 February. *)
Lemma get_birthdays_in_days_returns_witness :
  exists result,
    AddressBook.get_birthdays_in_days (mkDate 2026 11 3) 4 birthday_world
    = (Returned result, birthday_world).
Proof.
  apply (get_birthdays_in_days_returns (mkDate 2026 11 3) 4 birthday_world).
  - split.
    + intros k l H. unfold birthday_world in H. cbn in H.
      apply list_elem_of_In in H. cbn in H.
      destruct H as [H | [H | [H | []]]]; inversion H; subst; eexists;
        split; reflexivity.
    + cbn. repeat constructor; cbn; intros H;
        repeat (apply elem_of_cons in H; destruct H as [H | H];
                [discriminate H | ]); inversion H.
  - repeat split; apply Z.leb_le; reflexivity.
  - reflexivity.
  - lia.
  - apply Z.leb_le. vm_compute. reflexivity.
  - intros k l r b Hin Hl Hb. unfold birthday_world in Hin. cbn in Hin.
    apply list_elem_of_In in Hin. cbn in Hin.
    destruct Hin as [H | [H | [H | []]]]; inversion H; subst;
      cbn in Hl; inversion Hl; subst; cbn in Hb; inversion Hb; subst;
      (split; [repeat split; apply Z.leb_le; reflexivity | cbn; lia]).
Defined.

Lemma leap_day_birthday_always_raises_witness :
  exists e,
    AddressBook.get_birthdays_in_days (mkDate 2026 11 3) 30 leap_world
    = (Raised e, leap_world).
Proof.
  apply (leap_day_birthday_always_raises (mkDate 2026 11 3) 30 leap_world
           (py "Leap") 1%nat leapling 2000).
  - split; apply Z.leb_le; reflexivity.
  - reflexivity.
  - apply list_elem_of_further, list_elem_of_here.
  - reflexivity.
  - reflexivity.
Defined.

(* ===================================================================== *)
(** ** More properties: records stay valid, and the empty query *)
(* ===================================================================== *)

Section RecordInvariant.
Context {R : PyRuntime}.

(** X7: a record is never partially invalid: each method that changes a
    field validates first, so from a record of the program it leaves a
    record of the program, whether it returns or raises. *)
Theorem record_methods_keep_record_ok (r : record) (a b : pystr) :
  record_ok r ->
  record_ok (snd (Rec.add_phone a r))
  /\ record_ok (snd (Rec.remove_phone a r))
  /\ record_ok (snd (Rec.edit_phone a b r))
  /\ record_ok (snd (Rec.add_email a r))
  /\ record_ok (snd (Rec.edit_email a r))
  /\ record_ok (snd (Rec.add_address a r))
  /\ record_ok (snd (Rec.edit_address a r))
  /\ record_ok (snd (Rec.add_birthday a r)).
Proof.
  intros Hok.
  repeat apply conj;
    match goal with
    | |- record_ok (snd ?m) => destruct m as [o r'] eqn:E; cbn [snd]
    end.
  - eapply record_ok_add_phone; eassumption.
  - eapply record_ok_remove_phone; eassumption.
  - eapply record_ok_edit_phone; eassumption.
  - eapply record_ok_add_email; eassumption.
  - eapply record_ok_edit_email; eassumption.
  - eapply record_ok_add_address; eassumption.
  - eapply record_ok_edit_address; eassumption.
  - eapply record_ok_add_birthday; eassumption.
Qed.

Lemma contains_nil (s : pystr) : contains [] s = true.
Proof. destruct s; reflexivity. Qed.

(** X27: a query whose lowered form is empty matches every record: on a
    state of the program [search] then returns all the records of the
    book, in the order of the book. *)
Theorem search_empty_query (w : world) (query : pystr) :
  book_ok w -> lower query = [] ->
  AddressBook.search query w = (Returned (List.map snd (data w)), w).
Proof.
  intros Hok Hq.
  destruct (values_returns w (data w)) as [Hv Hm].
  { intros k l Hin. destruct (ok_refs w Hok k l Hin) as (r & Hr & _).
    rewrite Hr. eexists. reflexivity. }
  unfold AddressBook.search, bind, get, ret. rewrite Hv, Hq.
  rewrite search_loop_spec. cbn [app]. rewrite <- Hm.
  assert (Hall : forall rs : list (loc * record),
            List.filter (fun lr => record_matches [] (snd lr)) rs = rs).
  { induction rs as [ | [l r] rs IH]; [reflexivity | ].
    cbn [List.filter snd]. unfold record_matches at 1. rewrite contains_nil.
    cbn [orb]. rewrite IH. reflexivity. }
  rewrite Hall. reflexivity.
Qed.
End RecordInvariant.

Lemma record_methods_keep_record_ok_witness :
  record_ok (R := ascii_runtime) (snd (Rec.add_phone (py "12") ann))
  /\ record_ok (R := ascii_runtime) (snd (Rec.remove_phone (py "12") ann))
  /\ record_ok (R := ascii_runtime) (snd (Rec.edit_phone (py "12") (py "x") ann))
  /\ record_ok (R := ascii_runtime)
       (snd (Rec.add_email (R := ascii_runtime) (py "12") ann))
  /\ record_ok (R := ascii_runtime)
       (snd (Rec.edit_email (R := ascii_runtime) (py "12") ann))
  /\ record_ok (R := ascii_runtime)
       (snd (Rec.add_address (py "12") ann))
  /\ record_ok (R := ascii_runtime)
       (snd (Rec.edit_address (py "12") ann))
  /\ record_ok (R := ascii_runtime)
       (snd (Rec.add_birthday (R := ascii_runtime) (py "12") ann)).
Proof.
  exact (record_methods_keep_record_ok (R := ascii_runtime) ann
           (py "12") (py "x") ann_ok).
Defined.

Lemma search_empty_query_witness :
  AddressBook.search (R := ascii_runtime) [] sample_world
  = (Returned (List.map snd (data sample_world)), sample_world).
Proof.
  apply (search_empty_query (R := ascii_runtime) sample_world []).
  - exact sample_world_ok.
  - reflexivity.
Defined.
